(** * Media resolution of the download worker

    A shallow embedding of [worker/core/downloader.py] (class
    [MediaDownloader]) and the properties of its metadata resolution and
    file staging.

    Python values that occur in a metadata document are the type [pyval];
    dictionaries are objects of a heap and are referred to by location, so
    that the in-place update of a descriptor and the copy made by the
    fallback pass can be told apart.  Code that raises is modelled in a
    state-and-exception monad over the heap, the two directories the
    resolver works on and a trace of the file-system effects. *)

From Stdlib Require Import ZArith Bool Ascii String List.
From Stdlib Require Import SpecFloat.
From stdpp Require Import base option list strings gmap.

Set Warnings "-register-all".
Local Open Scope string_scope.
Local Open Scope list_scope.
Local Open Scope Z_scope.

(** ** Values *)

Definition loc := positive.

(** A Python [float] is an IEEE-754 binary64, represented by its
    specification-level value. *)
Definition pyfloat := spec_float.

Inductive pyval : Type :=
  | VNone
  | VBool (b : bool)
  | VInt (z : Z)
  | VFloat (f : pyfloat)
  | VStr (s : string)
  | VList (items : list pyval)
  | VRef (l : loc).

(** A [dict] with string keys; the heap maps every location to the
    dictionary stored there. *)
Abbreviation pydict := (gmap string pyval).
Abbreviation pyheap := (gmap loc (gmap string pyval)).

(** ** Exceptions *)

Inductive exn : Type :=
  | KeyError (key : string)
  | IndexError
  | TypeError
  | AttributeError
  | ValueError (msg : string)
  | OverflowError
  | RuntimeError (msg : string)
  | MediaDownloaderError (msg : string)
  | FileNotFoundError
  | FileExistsError
  | ShutilError
  | OutOfModel.

(** [OSError] and its subclasses ([shutil.Error] derives from it). *)
Definition is_OSError (e : exn) : bool :=
  match e with
  | FileNotFoundError | FileExistsError | ShutilError => true
  | _ => false
  end.

Definition is_ValueError (e : exn) : bool :=
  match e with ValueError _ => true | _ => false end.

Inductive res (A : Type) : Type :=
  | Ok (a : A)
  | Raise (e : exn).
Arguments Ok {A} a.
Arguments Raise {A} e.

(** ** The file system seen by the resolver

    Two directories matter: the scratch directory [curr_tmp_dir] the
    extraction tool wrote into, and the staging directory
    [destination_dir].  Both hold regular files only; a listing gives the
    entries in the order the operating system enumerates them. *)

Definition listing := list (string * Z).

Inductive path : Type :=
  | ScratchDir
  | StagingDir
  | InScratch (name : string)
  | InStaging (name : string)
  | Elsewhere.

Inductive event : Type :=
  | EvMkdir (p : path)
  | EvMove (src dst : path)
  | EvRemoveDir (p : path).

Record world : Type := World {
  heap : gmap loc (gmap string pyval);
  scratch : option listing;
  staging : option listing;
  trace : list event
}.

Definition set_heap (h : gmap loc (gmap string pyval)) (w : world) : world :=
  World h (scratch w) (staging w) (trace w).
Definition set_scratch (d : option listing) (w : world) : world :=
  World (heap w) d (staging w) (trace w).
Definition set_staging (d : option listing) (w : world) : world :=
  World (heap w) (scratch w) d (trace w).
Definition emit (e : event) (w : world) : world :=
  World (heap w) (scratch w) (staging w) (trace w ++ [e]).

(** ** The monad: state passing, with exceptions that keep the state *)

Definition M (A : Type) : Type := world -> res A * world.

Definition ret {A} (a : A) : M A := fun w => (Ok a, w).
Definition raise {A} (e : exn) : M A := fun w => (Raise e, w).
Definition bind {A B} (m : M A) (k : A -> M B) : M B :=
  fun w => match m w with
           | (Ok a, w') => k a w'
           | (Raise e, w') => (Raise e, w')
           end.
(** [try: m except handles: h] *)
Definition try_except {A} (m : M A) (handles : exn -> bool) (h : exn -> M A) : M A :=
  fun w => match m w with
           | (Ok a, w') => (Ok a, w')
           | (Raise e, w') => if handles e then h e w' else (Raise e, w')
           end.
Definition get_world : M world := fun w => (Ok w, w).

Notation "'let*' x ':=' c 'in' k" := (bind c (fun x => k))
  (at level 10, x name, c at level 100, k at level 200).
Notation "c ';;;' k" := (bind c (fun _ => k))
  (at level 100, k at level 200, right associativity).

(** ** Python primitives on values *)

Definition deref (h : gmap loc (gmap string pyval)) (l : loc) : gmap string pyval :=
  default ∅ (h !! l).

(** [v[key]] for a string key. *)
Definition py_getitem (v : pyval) (key : string) : M pyval :=
  fun w => match v with
           | VRef l => match deref (heap w) l !! key with
                       | Some x => (Ok x, w)
                       | None => (Raise (KeyError key), w)
                       end
           | _ => (Raise TypeError, w)
           end.

(** [v.get(key, dflt)]; only a [dict] has the method. *)
Definition py_get (v : pyval) (key : string) (dflt : pyval) : M pyval :=
  fun w => match v with
           | VRef l => (Ok (default dflt (deref (heap w) l !! key)), w)
           | _ => (Raise AttributeError, w)
           end.

(** [v[key] = x]. *)
Definition py_setitem (v : pyval) (key : string) (x : pyval) : M unit :=
  fun w => match v with
           | VRef l => (Ok tt, set_heap (<[l := <[key := x]> (deref (heap w) l)]> (heap w)) w)
           | _ => (Raise TypeError, w)
           end.

(** [v.copy()]: a shallow copy; a dictionary gets a new identity, a list is
    an immutable value here and its copy is the same value. *)
Definition py_copy (v : pyval) : M pyval :=
  fun w => match v with
           | VRef l => let l' := fresh (dom (heap w)) in
                       (Ok (VRef l'), set_heap (<[l' := deref (heap w) l]> (heap w)) w)
           | VList items => (Ok (VList items), w)
           | _ => (Raise AttributeError, w)
           end.

(** [v[0]]. *)
Definition py_index0 (v : pyval) : M pyval :=
  fun w => match v with
           | VList [] => (Raise IndexError, w)
           | VList (x :: _) => (Ok x, w)
           | VStr EmptyString => (Raise IndexError, w)
           | VStr (String c _) => (Ok (VStr (String c EmptyString)), w)
           | VRef _ => (Raise (KeyError "0"), w)
           | _ => (Raise TypeError, w)
           end.

(** [len(v)]. *)
Definition py_len (v : pyval) : M Z :=
  fun w => match v with
           | VList items => (Ok (Z.of_nat (List.length items)), w)
           | VStr s => (Ok (Z.of_nat (String.length s)), w)
           | VRef l => (Ok (Z.of_nat (size (deref (heap w) l))), w)
           | _ => (Raise TypeError, w)
           end.

Fixpoint chars (s : string) : list pyval :=
  match s with
  | EmptyString => []
  | String c r => VStr (String c EmptyString) :: chars r
  end.

(** The items a [for] loop over [v] visits. *)
Definition py_iter (v : pyval) : M (list pyval) :=
  fun w => match v with
           | VList items => (Ok items, w)
           | VStr s => (Ok (chars s), w)
           | VRef l => (Ok (VStr <$> (map_to_list (deref (heap w) l)).*1), w)
           | _ => (Raise TypeError, w)
           end.

(** [v != s] and [v == s] against a string. *)
Definition py_ne_str (v : pyval) (s : string) : bool :=
  match v with
  | VStr t => negb (String.eqb t s)
  | _ => true
  end.
Definition py_eq_str (v : pyval) (s : string) : bool := negb (py_ne_str v s).

(** Truth value of [v], as [not v] and [if v:] test it. *)
Definition py_truthy (h : gmap loc (gmap string pyval)) (v : pyval) : bool :=
  match v with
  | VNone => false
  | VBool b => b
  | VInt z => negb (z =? 0)
  | VFloat (S754_zero _) => false
  | VFloat _ => true
  | VStr s => negb (String.eqb s "")
  | VList items => match items with [] => false | _ => true end
  | VRef l => negb (Nat.eqb (size (deref h l)) 0)
  end.

(** [s.rsplit(sep, 1)] for a one-character separator: split at the last
    occurrence of [sep], if there is one. *)
Fixpoint occurs (sep : ascii) (s : string) : bool :=
  match s with
  | EmptyString => false
  | String c r => Ascii.eqb c sep || occurs sep r
  end.

Fixpoint rsplit1 (sep : ascii) (s : string) : list string :=
  match s with
  | EmptyString => [EmptyString]
  | String c r =>
      if occurs sep r then
        match rsplit1 sep r with
        | [hd; tl] => [String c hd; tl]
        | other => other
        end
      else if Ascii.eqb c sep then [EmptyString; r]
      else [String c r]
  end.

(** [xs[-1]] on the result of a split, which is never empty. *)
Definition last_item (xs : list string) : string := List.last xs EmptyString.

(** [v.rsplit(sep, 1)[-1]]; only [str] has the method. *)
Definition py_rsplit_last (v : pyval) (sep : ascii) : M string :=
  match v with
  | VStr s => ret (last_item (rsplit1 sep s))
  | _ => raise AttributeError
  end.


(** ** The built-in [float(x)]

    [float] of an [int] rounds to the nearest binary64, ties to even, and
    raises [OverflowError] beyond the largest finite value.  [float] of a
    [str] accepts, between optional white space, an optional sign followed
    by [inf], [infinity] or [nan] in any letter case, or by a decimal
    numeral with an optional fraction and an optional exponent (digit
    grouping with underscores is not covered), and rounds the decimal value
    to the nearest binary64, ties to even; any other string raises
    [ValueError].  [None], lists and dictionaries raise [TypeError]. *)

Module PyFloat.

Definition prec : Z := 53.
Definition emax : Z := 1024.

Definition of_Z (z : Z) : pyfloat := binary_normalize prec emax z 0 false.

(** The binary64 nearest to [(-1)^neg * m * 10^e10], for [0 <= m]: for a
    negative exponent the quotient is computed with more than 64
    significant bits and a sticky bit, then rounded once. *)
Definition of_decimal (neg : bool) (m e10 : Z) : pyfloat :=
  if Z.eqb m 0 then S754_zero neg
  else
    let sgn := if neg then (-1) else 1 in
    if 0 <=? e10 then binary_normalize prec emax (sgn * (m * 10 ^ e10)) 0 neg
    else
      let den := 10 ^ (- e10) in
      let sh := 64 + Z.log2_up den in
      let num := m * 2 ^ sh in
      let sticky := if Z.eqb (num mod den) 0 then 0 else 1 in
      binary_normalize prec emax (sgn * (2 * (num / den) + sticky)) (- (sh + 1)) neg.

Definition code (c : ascii) : Z := Z.of_N (N_of_ascii c).

Definition is_space (c : ascii) : bool :=
  let n := code c in
  ((9 <=? n) && (n <=? 13)) || ((28 <=? n) && (n <=? 32)).

Definition digit_of (c : ascii) : option Z :=
  let n := code c in
  if (48 <=? n) && (n <=? 57) then Some (n - 48) else None.

Definition lower (c : ascii) : ascii :=
  let n := code c in
  if (65 <=? n) && (n <=? 90) then ascii_of_N (Z.to_N (n + 32)) else c.

Fixpoint lstrip (s : string) : string :=
  match s with
  | String c r => if is_space c then lstrip r else s
  | EmptyString => s
  end.

Fixpoint all_space (s : string) : bool :=
  match s with
  | String c r => is_space c && all_space r
  | EmptyString => true
  end.

(** A maximal run of digits: the value read onto [acc], the number of
    digits onto [cnt], and the rest of the string. *)
Fixpoint read_digits (s : string) (acc cnt : Z) : Z * Z * string :=
  match s with
  | String c r =>
      match digit_of c with
      | Some d => read_digits r (10 * acc + d) (cnt + 1)
      | None => (acc, cnt, s)
      end
  | EmptyString => (acc, cnt, s)
  end.

Definition read_sign (s : string) : bool * string :=
  match s with
  | String "-" r => (true, r)
  | String "+" r => (false, r)
  | _ => (false, s)
  end.

(** [word] matched at the start of [s] without regard to letter case. *)
Fixpoint read_word (word s : string) : option string :=
  match word, s with
  | EmptyString, _ => Some s
  | String a word', String c r => if Ascii.eqb a (lower c) then read_word word' r else None
  | String _ _, EmptyString => None
  end.

Definition read_special (neg : bool) (s : string) : option (pyfloat * string) :=
  match read_word "infinity" s with
  | Some r => Some (S754_infinity neg, r)
  | None =>
      match read_word "inf" s with
      | Some r => Some (S754_infinity neg, r)
      | None =>
          match read_word "nan" s with
          | Some r => Some (S754_nan, r)
          | None => None
          end
      end
  end.

Definition read_exponent (s : string) : option (Z * string) :=
  match s with
  | String c r =>
      if Ascii.eqb (lower c) "e" then
        let '(eneg, r1) := read_sign r in
        let '(e, cnt, r2) := read_digits r1 0 0 in
        if Z.eqb cnt 0 then None else Some (if eneg then - e else e, r2)
      else Some (0, s)
  | EmptyString => Some (0, s)
  end.

Definition read_number (neg : bool) (s : string) : option (pyfloat * string) :=
  let '(ip, icnt, r1) := read_digits s 0 0 in
  let '(m, fcnt, r2) :=
    match r1 with
    | String "." r => read_digits r ip 0
    | _ => (ip, 0, r1)
    end in
  if Z.eqb (icnt + fcnt) 0 then None
  else
    match read_exponent r2 with
    | Some (e, r3) => Some (of_decimal neg m (e - fcnt), r3)
    | None => None
    end.

Definition of_string (s : string) : option pyfloat :=
  let '(neg, r) := read_sign (lstrip s) in
  match (match read_special neg r with
         | Some x => Some x
         | None => read_number neg r
         end) with
  | Some (f, rest) => if all_space rest then Some f else None
  | None => None
  end.

End PyFloat.

Definition py_float (v : pyval) : M pyval :=
  match v with
  | VNone => raise TypeError
  | VBool b => ret (VFloat (PyFloat.of_Z (if b then 1 else 0)))
  | VInt z =>
      match PyFloat.of_Z z with
      | S754_infinity _ => raise OverflowError
      | f => ret (VFloat f)
      end
  | VFloat f => ret (VFloat f)
  | VStr s =>
      match PyFloat.of_string s with
      | Some f => ret (VFloat f)
      | None => raise (ValueError "could not convert string to float")
      end
  | VList _ | VRef _ => raise TypeError
  end.

(** ** File-system primitives

    [pathlib], [shutil], [glob] and the helpers of [yt_shared.utils.file],
    on a POSIX system with both directories on one file system.  A name is
    simple when joining it to a directory yields an entry of that very
    directory; paths reached through other names lie outside the two
    directories and operations on them end in [OutOfModel]. *)

Definition simple_name (s : string) : bool :=
  negb (String.eqb s "") && negb (String.eqb s ".") && negb (String.eqb s "..")
  && negb (occurs "/" s) && negb (occurs "000" s).

(** [dir / name] *)
Definition join (dir : path) (name : string) : path :=
  if String.eqb name "" || String.eqb name "." then dir
  else if simple_name name then
    match dir with
    | ScratchDir => InScratch name
    | StagingDir => InStaging name
    | _ => Elsewhere
    end
  else Elsewhere.

Fixpoint lookup_file (name : string) (d : listing) : option Z :=
  match d with
  | [] => None
  | (n, sz) :: rest => if String.eqb n name then Some sz else lookup_file name rest
  end.

Definition remove_file (name : string) (d : listing) : listing :=
  List.filter (fun e => negb (String.eqb (fst e) name)) d.

Definition put_file (name : string) (sz : Z) (d : listing) : listing :=
  remove_file name d ++ [(name, sz)].

Definition stat (p : path) (w : world) : option Z :=
  match p with
  | InScratch n => scratch w ≫= lookup_file n
  | InStaging n => staging w ≫= lookup_file n
  | _ => None
  end.

(** [shutil.move(src, dst)].  Into an existing directory the file keeps its
    name and must not be there already; onto a file path it is renamed and
    replaces what was there. *)
Definition shutil_move (src dst : path) : M unit :=
  fun w =>
    match src, dst with
    | InScratch n, StagingDir =>
        match staging w with
        | Some files =>
            match lookup_file n files with
            | Some _ => (Raise ShutilError, w)
            | None =>
                match stat src w, scratch w with
                | Some sz, Some sfiles =>
                    (Ok tt, emit (EvMove src dst)
                              (set_staging (Some (files ++ [(n, sz)]))
                                 (set_scratch (Some (remove_file n sfiles)) w)))
                | _, _ => (Raise FileNotFoundError, w)
                end
            end
        | None =>
            match stat src w with
            | Some _ => (Raise OutOfModel, w)
            | None => (Raise FileNotFoundError, w)
            end
        end
    | InScratch n, InStaging m =>
        match stat src w, scratch w, staging w with
        | Some sz, Some sfiles, Some files =>
            (Ok tt, emit (EvMove src dst)
                      (set_staging (Some (put_file m sz files))
                         (set_scratch (Some (remove_file n sfiles)) w)))
        | _, _, _ => (Raise FileNotFoundError, w)
        end
    | _, _ => (Raise OutOfModel, w)
    end.

Fixpoint is_suffix (suf s : string) : bool :=
  String.eqb suf s ||
  match s with
  | String _ r => is_suffix suf r
  | EmptyString => false
  end.

(** A name matched by the pattern [*.extension]: it ends in the dot and the
    extension, and is not a hidden file.  The configured extensions hold no
    pattern metacharacter. *)
Definition glob_match (extension name : string) : bool :=
  negb (String.prefix "." name) && is_suffix (String "." extension) name.

(** [glob.glob(f'*.{extension}', root_dir=root_path)]; a directory that
    cannot be read yields nothing. *)
Definition glob (extension : string) (root_path : path) (w : world) : list string :=
  let names := match root_path with
               | ScratchDir => (default [] (scratch w)).*1
               | StagingDir => (default [] (staging w)).*1
               | _ => []
               end in
  List.filter (glob_match extension) names.

(** Modelled from the spec: [yt_shared.utils.file.file_size] is not in the
    source; it is the file-size measurement of the filesystem collaborator,
    taken as the size of the file at the path and failing when none is
    there. *)
Definition file_size (p : path) : M Z :=
  fun w => match stat p w with
           | Some sz => (Ok sz, w)
           | None => (Raise FileNotFoundError, w)
           end.

(** Modelled from the spec: [yt_shared.utils.file.remove_dir] is not in the
    source; it is the recursive directory removal of the filesystem
    collaborator: the directory is deleted wholly, with all it holds. *)
Definition remove_dir (p : path) : M unit :=
  fun w => match p with
           | StagingDir => (Ok tt, emit (EvRemoveDir p) (set_staging None w))
           | ScratchDir => (Ok tt, emit (EvRemoveDir p) (set_scratch None w))
           | _ => (Raise OutOfModel, w)
           end.

(** [destination_dir.mkdir()] *)
Definition mkdir (p : path) : M unit :=
  fun w => match p with
           | StagingDir =>
               match staging w with
               | Some _ => (Raise FileExistsError, w)
               | None => (Ok tt, emit (EvMkdir p) (set_staging (Some []) w))
               end
           | ScratchDir =>
               match scratch w with
               | Some _ => (Raise FileExistsError, w)
               | None => (Ok tt, emit (EvMkdir p) (set_scratch (Some []) w))
               end
           | _ => (Raise OutOfModel, w)
           end.

(** ** The data the resolver returns *)

(** [yt_shared.enums.DownMediaType]; [OTHER] stands for any value outside
    the enumeration. *)
Inductive DownMediaType : Type := AUDIO | VIDEO | AUDIO_VIDEO | OTHER.

(** Modelled from the spec: the schemas [Audio], [Video] and [DownMedia] of
    [yt_shared.schemas.media] are not in the source; they are taken as plain
    records of the fields the resolver passes, as ResolvedAudio,
    ResolvedVideo and DownloadResult list them. *)
Record Audio : Type := mkAudio {
  audio_title : pyval;
  audio_original_filename : option string;
  audio_duration : pyval;
  audio_directory_path : path;
  audio_file_size : Z
}.

Record Video : Type := mkVideo {
  video_title : pyval;
  video_original_filename : string;
  video_custom_filename : option string;
  video_duration : pyval;
  video_width : pyval;
  video_height : pyval;
  video_directory_path : path;
  video_file_size : Z;
  video_thumb_path : option path;
  video_thumb_name : option string
}.

Record DownMedia : Type := mkDownMedia {
  dm_media_type : DownMediaType;
  dm_audio : option Audio;
  dm_video : option Video;
  dm_root_path : path
}.

(** ** [MediaDownloader] *)

Section MediaDownloader.

(** The configured output extensions, imported from [ytdl_opts]. *)
Variable FINAL_AUDIO_FORMAT : string.
Variable FINAL_THUMBNAIL_FORMAT : string.

Definition _PLAYLIST_TYPE : string := "playlist".

(** [self._EXT_TO_NAME[extension]] *)
Definition _EXT_TO_NAME (extension : string) : M string :=
  if String.eqb extension FINAL_THUMBNAIL_FORMAT then ret "thumbnail"
  else if String.eqb extension FINAL_AUDIO_FORMAT then ret "audio"
  else raise (KeyError extension).

Definition _find_downloaded_file (root_path : path) (extension : string) : M (option string) :=
  let* verbose_name := _EXT_TO_NAME extension in
  let* w := get_world in
  match glob extension root_path w with
  | file_name :: _ =>
      let* logged_size := file_size (join root_path file_name) in
      ret (Some file_name)
  | [] => ret None
  end.

(** The first loop of [_get_requested_video], over the items still to
    visit. *)
Fixpoint primary_pass (items : list pyval) : M (option pyval) :=
  match items with
  | [] => ret None
  | download_obj :: rest =>
      let* ext := py_get download_obj "ext" (VStr "") in
      if py_ne_str ext FINAL_AUDIO_FORMAT then
        let* internal := py_getitem download_obj "_filename" in
        let* by_filename := py_get download_obj "filename" internal in
        let* normalized := py_get download_obj "filepath" by_filename in
        py_setitem download_obj "filepath" normalized ;;;
        ret (Some download_obj)
      else primary_pass rest
  end.

(** The second loop of [_get_requested_video]. *)
Fixpoint fallback_pass (items : list pyval) : M (option pyval) :=
  match items with
  | [] => ret None
  | download_obj :: rest =>
      let* ext := py_getitem download_obj "ext" in
      let* internal := py_getitem download_obj "_filename" in
      let* actual := py_rsplit_last internal "." in
      if py_ne_str ext actual then
        let* download_obj_copy := py_copy download_obj in
        let* logged_path := py_getitem download_obj_copy "filepath" in
        let* logged_name := py_getitem download_obj_copy "_filename" in
        let* internal_copy := py_getitem download_obj_copy "_filename" in
        let* replacement := py_get download_obj_copy "filename" internal_copy in
        py_setitem download_obj_copy "filepath" replacement ;;;
        ret (Some download_obj_copy)
      else fallback_pass rest
  end.

(** Returns the descriptor, or [VNone]. *)
Definition _get_requested_video (requested_downloads : pyval) : M pyval :=
  let* items := py_iter requested_downloads in
  let* found := primary_pass items in
  match found with
  | Some download_obj => ret download_obj
  | None =>
      let* items2 := py_iter requested_downloads in
      let* found2 := fallback_pass items2 in
      ret (default VNone found2)
  end.

Definition is_TypeError (e : exn) : bool :=
  match e with TypeError => true | _ => false end.

Definition _to_float (duration : pyval) : M pyval :=
  try_except (py_float duration) is_TypeError (fun _ => ret duration).

Definition _get_video_context (meta : pyval) : M (pyval * pyval * pyval) :=
  let* type := py_getitem meta "_type" in
  if py_eq_str type _PLAYLIST_TYPE then
    let* entries := py_getitem meta "entries" in
    let* n := py_len entries in
    if Z.eqb n 0 then
      raise (ValueError "Item said to be downloaded but no entries to process.")
    else
      let* entries1 := py_getitem meta "entries" in
      let* entry := py_index0 entries1 in
      let* requested_downloads := py_getitem entry "requested_downloads" in
      let* requested_video := _get_requested_video requested_downloads in
      let* raw_duration := py_get entry "duration" VNone in
      let* duration := _to_float raw_duration in
      let* width := py_get requested_video "width" VNone in
      let* height := py_get requested_video "height" VNone in
      ret (duration, width, height)
  else
    let* requested_downloads := py_getitem meta "requested_downloads" in
    let* requested_video := _get_requested_video requested_downloads in
    let* raw_duration := py_get meta "duration" VNone in
    let* duration := _to_float raw_duration in
    let* width := py_get requested_video "width" VNone in
    let* height := py_get requested_video "height" VNone in
    ret (duration, width, height).

Definition is_AttributeError_or_KeyError (e : exn) : bool :=
  match e with AttributeError | KeyError _ => true | _ => false end.

Definition _get_video_filepath (meta : pyval) : M pyval :=
  let* type := py_getitem meta "_type" in
  let* requested_video :=
    (if py_eq_str type _PLAYLIST_TYPE then
       let* entries := py_getitem meta "entries" in
       let* entry := py_index0 entries in
       let* requested_downloads := py_getitem entry "requested_downloads" in
       _get_requested_video requested_downloads
     else
       let* requested_downloads := py_getitem meta "requested_downloads" in
       _get_requested_video requested_downloads) in
  try_except (py_getitem requested_video "filepath")
    is_AttributeError_or_KeyError
    (fun _ => raise (ValueError "Video filepath not found")).

Definition _get_video_filename (meta : pyval) : M string :=
  let* filepath := _get_video_filepath meta in
  py_rsplit_last filepath "/".

(** [if custom_video_filename:] *)
Definition given (custom_video_filename : option string) : option string :=
  match custom_video_filename with
  | Some s => if String.eqb s "" then None else Some s
  | None => None
  end.

Definition _create_video_dto (meta : pyval) (curr_tmp_dir destination_dir : path)
    (custom_video_filename : option string) : M Video :=
  let* video_filename := _get_video_filename meta in
  let video_filepath := join curr_tmp_dir video_filename in
  let dest_path :=
    match given custom_video_filename with
    | Some custom => join destination_dir custom
    | None => join destination_dir video_filename
    end in
  shutil_move video_filepath dest_path ;;;
  let* thumb_name := _find_downloaded_file curr_tmp_dir FINAL_THUMBNAIL_FORMAT in
  let* thumb_path :=
    match thumb_name with
    | Some name =>
        shutil_move (join curr_tmp_dir name) destination_dir ;;;
        ret (Some (join destination_dir name))
    | None => ret None
    end in
  let* context := _get_video_context meta in
  let '(duration, width, height) := context in
  let* title := py_getitem meta "title" in
  let* size := file_size dest_path in
  ret (mkVideo title video_filename custom_video_filename duration width height
         destination_dir size thumb_path thumb_name).

(** [curr_tmp_dir / audio_filename], where the name may be [None]. *)
Definition join_opt (dir : path) (name : option string) : M path :=
  match name with
  | Some n => ret (join dir n)
  | None => raise TypeError
  end.

Definition _create_audio_dto (meta : pyval) (curr_tmp_dir destination_dir : path)
    (custom_video_filename : option string) : M Audio :=
  let* audio_filename := _find_downloaded_file curr_tmp_dir FINAL_AUDIO_FORMAT in
  let* audio_filepath := join_opt curr_tmp_dir audio_filename in
  shutil_move audio_filepath destination_dir ;;;
  let* title := py_getitem meta "title" in
  let* dest_file := join_opt destination_dir audio_filename in
  let* size := file_size dest_file in
  ret (mkAudio title audio_filename VNone destination_dir size).

(** The local function [create_dto] of [_create_media_dtos]:
    [except Exception] handles every exception. *)
Definition create_dto {A} (func : pyval -> path -> path -> option string -> M A)
    (meta : pyval) (curr_tmp_dir destination_dir : path)
    (custom_video_filename : option string) : M A :=
  try_except (func meta curr_tmp_dir destination_dir custom_video_filename)
    (fun _ => true)
    (fun e => remove_dir destination_dir ;;; raise e).

Definition _create_media_dtos (media_type : DownMediaType) (meta : pyval)
    (curr_tmp_dir destination_dir : path) (custom_video_filename : option string)
    : M (option Audio * option Video) :=
  let get_audio := create_dto _create_audio_dto meta curr_tmp_dir destination_dir
                     custom_video_filename in
  let get_video := create_dto _create_video_dto meta curr_tmp_dir destination_dir
                     custom_video_filename in
  match media_type with
  | AUDIO => let* a := get_audio in ret (Some a, None)
  | VIDEO => let* v := get_video in ret (None, Some v)
  | AUDIO_VIDEO => let* a := get_audio in let* v := get_video in ret (Some a, Some v)
  | OTHER => raise (RuntimeError "Unknown media type")
  end.

(** [with TemporaryDirectory(...) as tmp_dir: body]: the directory is
    removed when the block is left, by return or by exception. *)
Definition with_tmp_dir {A} (body : M A) : M A :=
  fun w => let '(r, w') := body w in
           (r, emit (EvRemoveDir ScratchDir) (set_scratch None w')).

(** [_download], from the point where the extraction tool has returned
    [meta] and has written its files into the scratch directory.  The
    staging directory stands for [self._tmp_downloaded_dest_dir] joined
    with the random name. *)
Definition _download (media_type : DownMediaType) (meta : pyval)
    (custom_filename : option string) : M DownMedia :=
  with_tmp_dir
    (let curr_tmp_dir := ScratchDir in
     let* w := get_world in
     if negb (py_truthy (heap w) meta) then
       raise (MediaDownloaderError "Error during media download. Check logs.")
     else
       match scratch w with
       | None => raise FileNotFoundError
       | Some [] => raise (MediaDownloaderError "Nothing downloaded. Is URL valid?")
       | Some (_ :: _) =>
           let destination_dir := StagingDir in
           mkdir destination_dir ;;;
           let* dtos := _create_media_dtos media_type meta curr_tmp_dir destination_dir
                          custom_filename in
           ret (mkDownMedia media_type (fst dtos) (snd dtos) destination_dir)
       end).

Definition download (media_type : DownMediaType) (meta : pyval)
    (custom_filename : option string) : M DownMedia :=
  try_except (_download media_type meta custom_filename) (fun _ => true)
    (fun e => raise e).

(** ** Specification-side notions *)

(** The final ['/']-separated segment of a path, by splitting the whole
    path at every separator and taking the last piece. *)
Fixpoint split_on (sep : ascii) (s : string) : list string :=
  match s with
  | EmptyString => [EmptyString]
  | String c r =>
      if Ascii.eqb c sep then EmptyString :: split_on sep r
      else match split_on sep r with
           | piece :: pieces => String c piece :: pieces
           | [] => [String c EmptyString]
           end
  end.

Definition final_segment (p : string) : string := List.last (split_on "/" p) EmptyString.

(** The extension of a descriptor as the primary pass reads it: a missing
    [ext] key reads as the empty string. *)
Definition ext_of (d : gmap string pyval) : pyval := default (VStr "") (d !! "ext").

(** The normalized filepath of a descriptor: its [filepath], else its
    [filename], else its internal filename, by presence of the key. *)
Definition normalized_filepath (d : gmap string pyval) (internal : pyval) : pyval :=
  default (default internal (d !! "filename")) (d !! "filepath").

(** A document whose root [_type] is not the playlist type. *)
Definition single_item (h : gmap loc (gmap string pyval)) (l : loc) : Prop :=
  exists d t, h !! l = Some d /\ d !! "_type" = Some t /\ py_eq_str t _PLAYLIST_TYPE = false.

(** The document at [ls] is a single-item document built from the entry
    at [le]: it is not of the playlist type and has the requested
    downloads and the duration of the entry. *)
Definition built_from (h : gmap loc (gmap string pyval)) (ls le : loc) : Prop :=
  exists ds de,
    h !! ls = Some ds /\ h !! le = Some de
    /\ single_item h ls
    /\ ds !! "requested_downloads" = de !! "requested_downloads"
    /\ ds !! "duration" = de !! "duration".

Definition files_in (dir : option listing) : listing := default [] dir.

(** The list of requested downloads that video resolution consults: that
    of the document, or of the first entry of a playlist. *)
Inductive canonical_downloads (h : gmap loc (gmap string pyval)) (lm : loc) (rd : pyval) : Prop :=
  | canonical_single dm t :
      h !! lm = Some dm ->
      dm !! "_type" = Some t ->
      py_eq_str t _PLAYLIST_TYPE = false ->
      dm !! "requested_downloads" = Some rd ->
      canonical_downloads h lm rd
  | canonical_playlist dm le de rest :
      h !! lm = Some dm ->
      dm !! "_type" = Some (VStr _PLAYLIST_TYPE) ->
      dm !! "entries" = Some (VList (VRef le :: rest)) ->
      h !! le = Some de ->
      de !! "requested_downloads" = Some rd ->
      canonical_downloads h lm rd.

(** The actual extension of a file name: what follows its last dot. *)
Definition actual_extension (name : string) : string :=
  List.last (split_on "." name) EmptyString.

(** The declared extension of the descriptor [d] differs from the actual
    extension of its internal filename. *)
Definition extension_lags (d : gmap string pyval) : Prop :=
  exists ext name, d !! "ext" = Some ext /\ d !! "_filename" = Some (VStr name)
                   /\ py_ne_str ext (actual_extension name) = true.

(** [v] is a descriptor whose declared extension is the actual extension
    of its internal filename: the fallback pass skips it. *)
Definition settled_descriptor (h : gmap loc (gmap string pyval)) (v : pyval) : Prop :=
  exists l d ext name,
    v = VRef l /\ h !! l = Some d /\ d !! "ext" = Some ext
    /\ d !! "_filename" = Some (VStr name)
    /\ py_ne_str ext (actual_extension name) = false.

(** The filepath the fallback pass gives the copy: the [filename], else
    the internal filename. *)
Definition replaced_filepath (d : gmap string pyval) (internal : pyval) : pyval :=
  default internal (d !! "filename").

(** [v] is a descriptor whose extension is the configured audio
    extension: the primary pass skips it. *)
Definition audio_descriptor (h : gmap loc (gmap string pyval)) (v : pyval) : Prop :=
  exists l d, v = VRef l /\ h !! l = Some d /\ py_ne_str (ext_of d) FINAL_AUDIO_FORMAT = false.

(** The finite float [f] has exactly the value [n * 2^e]. *)
Definition is_dyadic (f : pyfloat) (n e : Z) : bool :=
  match f with
  | S754_finite s m em =>
      let v := if s then Z.neg m else Z.pos m in
      if em <=? e then Z.eqb v (n * 2 ^ (e - em)) else Z.eqb (v * 2 ^ (em - e)) n
  | S754_zero _ => Z.eqb n 0
  | _ => false
  end.

(** *** Example documents and directories *)

Definition dict_of (fields : list (string * pyval)) : gmap string pyval := list_to_map fields.

Definition heap_of (objects : list (loc * gmap string pyval)) : gmap loc (gmap string pyval) :=
  list_to_map objects.

Definition empty_world : world := World ∅ None None [].

(** A playlist document with no entries, stored at location 1, and a
    scratch directory holding a converted audio file. *)
Definition empty_playlist : gmap string pyval :=
  dict_of [("_type", VStr "playlist"); ("title", VStr "T"); ("entries", VList [])].

Definition empty_playlist_world : world :=
  World (heap_of [(1%positive, empty_playlist)]) (Some [("clip.m4a", 10)]) None [].

(** A single-item document at location 1 with an audio descriptor (at 3)
    listed before a video descriptor (at 2) that has no [filepath] yet;
    the scratch directory holds the video, the audio and a thumbnail, and
    the staging directory exists and is empty. *)
Definition video_descriptor : gmap string pyval :=
  dict_of [("ext", VStr "mp4"); ("_filename", VStr "/tmp/x/clip.mp4");
           ("width", VInt 640); ("height", VInt 360)].

Definition audio_descriptor_m4a : gmap string pyval :=
  dict_of [("ext", VStr "m4a"); ("_filename", VStr "/tmp/x/clip.m4a");
           ("filepath", VStr "/tmp/x/clip.m4a")].

Definition video_document : gmap string pyval :=
  dict_of [("_type", VStr "video"); ("title", VStr "T"); ("duration", VStr "12.5");
           ("requested_downloads", VList [VRef 3%positive; VRef 2%positive])].

Definition video_files : listing := [("clip.mp4", 100); ("clip.m4a", 10); ("clip.jpg", 1)].

Definition video_world : world :=
  World (heap_of [(1%positive, video_document); (2%positive, video_descriptor);
                  (3%positive, audio_descriptor_m4a)])
        (Some video_files) (Some []) [].

(** The same document as the only entry of a playlist at location 4. *)
Definition playlist_document : gmap string pyval :=
  dict_of [("_type", VStr "playlist"); ("title", VStr "P");
           ("entries", VList [VRef 1%positive])].

Definition playlist_world : world :=
  World (<[4%positive := playlist_document]> (heap video_world))
        (Some video_files) (Some []) [].

(** A document whose only descriptor is the converted audio: neither pass
    finds a video.  The staging directory does not exist yet. *)
Definition audio_only_document : gmap string pyval :=
  dict_of [("_type", VStr "video"); ("title", VStr "T");
           ("requested_downloads", VList [VRef 2%positive])].

Definition audio_only_world : world :=
  World (heap_of [(1%positive, audio_only_document); (2%positive, audio_descriptor_m4a)])
        (Some [("clip.m4a", 10)]) None [].

Definition audio_only_staged_world : world := set_staging (Some []) audio_only_world.

(** A video converted to audio and kept: the descriptor declares the audio
    extension while its internal filename is still the video. *)
Definition kept_video_descriptor : gmap string pyval :=
  dict_of [("ext", VStr "m4a"); ("_filename", VStr "/tmp/x/clip.mp4");
           ("filepath", VStr "/tmp/x/clip.m4a")].

Definition kept_video_world : world :=
  World (heap_of [(1%positive, audio_only_document); (2%positive, kept_video_descriptor)])
        (Some [("clip.mp4", 100); ("clip.m4a", 10)]) (Some []) [].

(** The same, the descriptor lacking its [filepath]. *)
Definition kept_video_no_filepath : gmap string pyval :=
  dict_of [("ext", VStr "m4a"); ("_filename", VStr "/tmp/x/clip.mp4")].

Definition kept_video_no_filepath_world : world :=
  World (heap_of [(1%positive, audio_only_document); (2%positive, kept_video_no_filepath)])
        (Some [("clip.mp4", 100); ("clip.m4a", 10)]) (Some []) [].

(** A video descriptor that already has its [filepath], and one that has
    a [filepath] but no internal filename. *)
Definition normalized_video_descriptor : gmap string pyval :=
  dict_of [("ext", VStr "mp4"); ("_filename", VStr "/tmp/x/clip.mp4");
           ("filepath", VStr "/tmp/x/clip.mp4")].

Definition normalized_video_world : world :=
  World (heap_of [(1%positive, audio_only_document); (2%positive, normalized_video_descriptor)])
        (Some [("clip.mp4", 100)]) (Some []) [].

Definition video_descriptor_no_internal : gmap string pyval :=
  dict_of [("ext", VStr "mp4"); ("filepath", VStr "/tmp/x/clip.mp4")].

Definition no_internal_world : world :=
  World (heap_of [(1%positive, audio_only_document); (2%positive, video_descriptor_no_internal)])
        (Some [("clip.mp4", 100)]) (Some []) [].

(** A scratch directory without any audio file. *)
Definition no_audio_world : world :=
  World (heap_of [(1%positive, audio_only_document); (2%positive, audio_descriptor_m4a)])
        (Some [("clip.mp4", 100)]) (Some []) [].

(** The single-item document before any staging directory exists, as a
    download finds it. *)
Definition video_fresh_world : world := set_staging None video_world.

(** A playlist at location 4 whose first entry is the single-item
    document and whose second entry is no document at all. *)
Definition long_playlist_document : gmap string pyval :=
  dict_of [("_type", VStr "playlist"); ("title", VStr "P");
           ("entries", VList [VRef 1%positive; VNone])].

Definition long_playlist_world : world :=
  World (<[4%positive := long_playlist_document]> (heap video_world))
        (Some video_files) (Some []) [].

(** A video descriptor without an [ext] key. *)
Definition video_descriptor_no_ext : gmap string pyval :=
  dict_of [("_filename", VStr "/tmp/x/clip.mp4")].

Definition no_ext_world : world :=
  World (heap_of [(1%positive, audio_only_document); (2%positive, video_descriptor_no_ext)])
        (Some [("clip.mp4", 100)]) (Some []) [].

(** A document without title, its audio file downloaded. *)
Definition untitled_document : gmap string pyval :=
  dict_of [("_type", VStr "video");
           ("requested_downloads", VList [VRef 2%positive])].

Definition untitled_world : world :=
  World (heap_of [(1%positive, untitled_document); (2%positive, audio_descriptor_m4a)])
        (Some [("clip.m4a", 10)]) (Some []) [].

(** *** Notions of the proofs *)

(** [m] leaves the heap as it is. *)
Definition heap_stable {A} (m : M A) : Prop :=
  forall w r w', m w = (r, w') -> heap w' = heap w.

(** [m] leaves the whole state as it is. *)
Definition pure_op {A} (m : M A) : Prop := forall w r w', m w = (r, w') -> w' = w.

(** [keeps h0 m]: running [m] in a heap that holds the objects of [h0]
    as they are leaves them as they are. *)
Definition keeps (h0 : gmap loc (gmap string pyval)) {A} (m : M A) : Prop :=
  forall w r w', h0 ⊆ heap w -> m w = (r, w') -> h0 ⊆ heap w'.

(** A listing whose names are all simple, as those of a directory are. *)
Definition simple_listing (d : listing) : Prop := Forall (fun e => simple_name (fst e) = true) d.

(** The body that both branches of [_get_video_context] share, reading
    the requested downloads and the duration from the object [entry]. *)
Definition context_of_entry (entry : pyval) : M (pyval * pyval * pyval) :=
  let* requested_downloads := py_getitem entry "requested_downloads" in
  let* requested_video := _get_requested_video requested_downloads in
  let* raw_duration := py_get entry "duration" VNone in
  let* duration := _to_float raw_duration in
  let* width := py_get requested_video "width" VNone in
  let* height := py_get requested_video "height" VNone in
  ret (duration, width, height).

(** [m] leaves the two directories and the trace as they are. *)
Definition fs_stable {A} (m : M A) : Prop :=
  forall w r w', m w = (r, w') ->
                 scratch w' = scratch w /\ staging w' = staging w /\ trace w' = trace w.

(** [m] leaves an existing staging directory in existence. *)
Definition staging_kept {A} (m : M A) : Prop :=
  forall w r w', m w = (r, w') -> is_Some (staging w) -> is_Some (staging w').

(** [m] raises nothing but exceptions that satisfy [P]. *)
Definition raises_only {A} (P : exn -> bool) (m : M A) : Prop :=
  forall w e w', m w = (Raise e, w') -> P e = true.

Definition not_ValueError (e : exn) : bool := negb (is_ValueError e).

(** [f] applied to the result of a computation that returns. *)
Definition res_map {A B} (f : A -> B) (r : res A) : res B :=
  match r with
  | Ok a => Ok (f a)
  | Raise e => Raise e
  end.

Definition with_custom_filename (custom : option string) (v : Video) : Video :=
  mkVideo (video_title v) (video_original_filename v) custom (video_duration v)
    (video_width v) (video_height v) (video_directory_path v) (video_file_size v)
    (video_thumb_path v) (video_thumb_name v).

(** The state after the file [name] of the scratch directory has been
    moved into the staging directory under the name [dest]. *)
Definition relocated_as (name dest : string) (w : world) : world :=
  match stat (InScratch name) w, scratch w, staging w with
  | Some sz, Some sfiles, Some files =>
      emit (EvMove (InScratch name) (InStaging dest))
        (set_staging (Some (put_file dest sz files))
           (set_scratch (Some (remove_file name sfiles)) w))
  | _, _, _ => w
  end.

(** The state after the file [name] of the scratch directory has been
    moved into the staging directory, keeping its name. *)
Definition relocated (name : string) (w : world) : world :=
  match stat (InScratch name) w, scratch w, staging w with
  | Some sz, Some sfiles, Some files =>
      emit (EvMove (InScratch name) StagingDir)
        (set_staging (Some (files ++ [(name, sz)]))
           (set_scratch (Some (remove_file name sfiles)) w))
  | _, _, _ => w
  end.

(** The heap [h'] has every object of [h], each with the fields it had,
    but for [filepath]. *)
Definition same_but_filepath (h h' : gmap loc (gmap string pyval)) : Prop :=
  forall x, is_Some (h !! x) ->
            is_Some (h' !! x)
            /\ forall key, key <> "filepath" -> deref h' x !! key = deref h x !! key.

Definition fields_kept {A} (m : M A) : Prop :=
  forall w r w', m w = (r, w') -> same_but_filepath (heap w) (heap w').

(** ** Properties *)

(** *** Running the monad *)

Lemma bind_Ok {A B} (m : M A) (k : A -> M B) w a w' :
  m w = (Ok a, w') -> bind m k w = k a w'.
Proof. intros H. unfold bind. now rewrite H. Qed.

Lemma bind_Raise {A B} (m : M A) (k : A -> M B) w e w' :
  m w = (Raise e, w') -> bind m k w = (Raise e, w').
Proof. intros H. unfold bind. now rewrite H. Qed.

Lemma bind_inv_Ok {A B} (m : M A) (k : A -> M B) w b w' :
  bind m k w = (Ok b, w') -> exists a w1, m w = (Ok a, w1) /\ k a w1 = (Ok b, w').
Proof.
  unfold bind. destruct (m w) as [[a|e] w1]; intros H; [eauto | discriminate].
Qed.

Lemma deref_Some (h : gmap loc (gmap string pyval)) l d : h !! l = Some d -> deref h l = d.
Proof. intros H. unfold deref. now rewrite H. Qed.

Lemma py_getitem_ref w l d key x :
  heap w !! l = Some d -> d !! key = Some x -> py_getitem (VRef l) key w = (Ok x, w).
Proof. intros Hl Hk. unfold py_getitem. rewrite (deref_Some _ _ _ Hl), Hk. reflexivity. Qed.

Lemma py_getitem_missing w l d key :
  heap w !! l = Some d -> d !! key = None -> py_getitem (VRef l) key w = (Raise (KeyError key), w).
Proof. intros Hl Hk. unfold py_getitem. rewrite (deref_Some _ _ _ Hl), Hk. reflexivity. Qed.

Lemma py_get_ref w l d key dflt :
  heap w !! l = Some d -> py_get (VRef l) key dflt w = (Ok (default dflt (d !! key)), w).
Proof. intros Hl. unfold py_get. rewrite (deref_Some _ _ _ Hl). reflexivity. Qed.

Lemma py_setitem_ref w l d key x :
  heap w !! l = Some d ->
  py_setitem (VRef l) key x w = (Ok tt, set_heap (<[l := <[key := x]> d]> (heap w)) w).
Proof. intros Hl. unfold py_setitem. rewrite (deref_Some _ _ _ Hl). reflexivity. Qed.

Lemma set_heap_same w : set_heap (heap w) w = w.
Proof. now destruct w. Qed.

(** Storing under a key the value it already has changes nothing. *)
Lemma py_setitem_same w l d key x :
  heap w !! l = Some d -> d !! key = Some x -> py_setitem (VRef l) key x w = (Ok tt, w).
Proof.
  intros Hl Hk. rewrite (py_setitem_ref _ _ _ _ _ Hl).
  rewrite (insert_id d key x Hk), (insert_id (heap w) l d Hl), set_heap_same. reflexivity.
Qed.

(** *** Duration coercion *)

(** C3, as the code has it. [_to_float] maps ["12.5"] to 12.5, [None] to
    [None] and [7] to 7.0, leaving the state alone; on the string ["bad"]
    the conversion raises [ValueError], which the handler for [TypeError]
    does not catch, so the exception propagates. *)
Theorem to_float_cases w :
  (exists f, _to_float (VStr "12.5") w = (Ok (VFloat f), w) /\ is_dyadic f 25 (-1) = true)
  /\ _to_float VNone w = (Ok VNone, w)
  /\ (exists f, _to_float (VInt 7) w = (Ok (VFloat f), w) /\ is_dyadic f 7 0 = true)
  /\ _to_float (VStr "bad") w
     = (Raise (ValueError "could not convert string to float"), w).
Proof.
  split; [| split; [reflexivity | split]].
  - exists (S754_finite false 7036874417766400 (-49)). split; [| vm_compute; reflexivity].
    unfold _to_float, try_except, py_float.
    replace (PyFloat.of_string "12.5") with (Some (S754_finite false 7036874417766400 (-49)))
      by (vm_compute; reflexivity).
    reflexivity.
  - exists (S754_finite false 7881299347898368 (-50)). split; [| vm_compute; reflexivity].
    unfold _to_float, try_except, py_float.
    replace (PyFloat.of_Z 7) with (S754_finite false 7881299347898368 (-50))
      by (vm_compute; reflexivity).
    reflexivity.
  - unfold _to_float, try_except, py_float.
    replace (PyFloat.of_string "bad") with (@None pyfloat) by (vm_compute; reflexivity).
    reflexivity.
Qed.

(** *** Frame: what leaves the heap alone *)

Lemma heap_stable_ret {A} (a : A) : heap_stable (ret a).
Proof. intros w r w' H. injection H as _ <-. reflexivity. Qed.

Lemma heap_stable_raise {A} e : heap_stable (@raise A e).
Proof. intros w r w' H. injection H as _ <-. reflexivity. Qed.

Lemma heap_stable_bind {A B} (m : M A) (k : A -> M B) :
  heap_stable m -> (forall a, heap_stable (k a)) -> heap_stable (bind m k).
Proof.
  intros Hm Hk w r w' H. unfold bind in H.
  destruct (m w) as [[a|e] w1] eqn:E.
  - rewrite (Hk _ _ _ _ H). exact (Hm _ _ _ E).
  - injection H as _ <-. exact (Hm _ _ _ E).
Qed.

Lemma heap_stable_try {A} (m : M A) handles h :
  heap_stable m -> (forall e, heap_stable (h e)) -> heap_stable (try_except m handles h).
Proof.
  intros Hm Hh w r w' H. unfold try_except in H.
  destruct (m w) as [[a|e] w1] eqn:E.
  - injection H as _ <-. exact (Hm _ _ _ E).
  - destruct (handles e).
    + rewrite (Hh _ _ _ _ H). exact (Hm _ _ _ E).
    + injection H as _ <-. exact (Hm _ _ _ E).
Qed.

Lemma heap_stable_shutil_move src dst : heap_stable (shutil_move src dst).
Proof.
  intros w r w' H. unfold shutil_move in H.
  repeat match type of H with
         | context [match ?x with _ => _ end] => destruct x
         end; injection H as _ <-; reflexivity.
Qed.

Lemma heap_stable_file_size p : heap_stable (file_size p).
Proof.
  intros w r w' H. unfold file_size in H.
  destruct (stat p w); injection H as _ <-; reflexivity.
Qed.

Lemma heap_stable_remove_dir p : heap_stable (remove_dir p).
Proof.
  intros w r w' H. unfold remove_dir in H.
  destruct p; injection H as _ <-; reflexivity.
Qed.

Lemma heap_stable_py_getitem v key : heap_stable (py_getitem v key).
Proof.
  intros w r w' H. unfold py_getitem in H.
  destruct v; try (injection H as _ <-; reflexivity).
  destruct (deref (heap w) l !! key); injection H as _ <-; reflexivity.
Qed.

Lemma heap_stable_find root_path extension :
  heap_stable (_find_downloaded_file root_path extension).
Proof.
  unfold _find_downloaded_file, _EXT_TO_NAME.
  apply heap_stable_bind.
  - repeat match goal with |- context [if ?b then _ else _] => destruct b end;
      auto using @heap_stable_ret, @heap_stable_raise.
  - intros _. intros w r w' H. unfold bind, get_world in H.
    destruct (glob extension root_path w).
    + injection H as _ <-; reflexivity.
    + revert H. apply (heap_stable_bind (file_size _) (fun _ => ret _)).
      * apply heap_stable_file_size.
      * intros _. apply heap_stable_ret.
Qed.

Lemma heap_stable_join_opt dir name : heap_stable (join_opt dir name).
Proof. destruct name; [apply heap_stable_ret | apply heap_stable_raise]. Qed.

Ltac heap_frame :=
  repeat (first [ apply heap_stable_find | apply heap_stable_join_opt
                | apply heap_stable_shutil_move | apply heap_stable_py_getitem
                | apply heap_stable_file_size | apply heap_stable_remove_dir
                | apply heap_stable_ret | apply heap_stable_raise
                | apply heap_stable_bind
                | match goal with |- forall _, _ => intro end ]).

Lemma heap_stable_audio meta c dst custom :
  heap_stable (_create_audio_dto meta c dst custom).
Proof. unfold _create_audio_dto. heap_frame. Qed.

(** *** Rollback of the staging directory *)

Lemma create_dto_Ok {A} (func : pyval -> path -> path -> option string -> M A)
    meta c dst custom w a w' :
  func meta c dst custom w = (Ok a, w') -> create_dto func meta c dst custom w = (Ok a, w').
Proof. intros H. unfold create_dto, try_except. now rewrite H. Qed.

Lemma create_dto_Raise_staging {A} (func : pyval -> path -> path -> option string -> M A)
    meta c custom w e w' :
  func meta c StagingDir custom w = (Raise e, w') ->
  create_dto func meta c StagingDir custom w
  = (Raise e, emit (EvRemoveDir StagingDir) (set_staging None w')).
Proof. intros H. unfold create_dto, try_except. rewrite H. reflexivity. Qed.

Lemma create_dto_Raise {A} (func : pyval -> path -> path -> option string -> M A)
    meta c dst custom w e w' :
  func meta c dst custom w = (Raise e, w') ->
  exists e' w'', create_dto func meta c dst custom w = (Raise e', w'').
Proof.
  intros H. unfold create_dto, try_except. rewrite H. cbn.
  unfold bind, remove_dir, raise. destruct dst; eauto.
Qed.

Lemma create_dto_inv_Ok {A} (func : pyval -> path -> path -> option string -> M A)
    meta c dst custom w a w' :
  create_dto func meta c dst custom w = (Ok a, w') -> func meta c dst custom w = (Ok a, w').
Proof.
  unfold create_dto, try_except.
  destruct (func meta c dst custom w) as [[a0 | e] w1]; [intros H; exact H |].
  cbn. unfold bind, remove_dir, raise. destruct dst; discriminate.
Qed.

(** Whatever makes [create_dto] raise, the staging directory is gone
    afterwards. *)
Lemma create_dto_failure_removes {A} (func : pyval -> path -> path -> option string -> M A)
    meta c custom w e w' :
  create_dto func meta c StagingDir custom w = (Raise e, w') -> staging w' = None.
Proof.
  unfold create_dto, try_except.
  destruct (func meta c StagingDir custom w) as [[a|e0] w1]; [discriminate |].
  cbn. intros H. injection H as _ <-. reflexivity.
Qed.

Lemma stat_join_staging name w sz :
  stat (join StagingDir name) w = Some sz -> join StagingDir name = InStaging name.
Proof.
  unfold join. destruct (String.eqb name "" || String.eqb name "."); [discriminate |].
  destruct (simple_name name); [reflexivity | discriminate].
Qed.

(** A returned [Audio] names a file that now lies in the staging
    directory. *)
Lemma audio_dto_relocated meta c custom w a w' :
  _create_audio_dto meta c StagingDir custom w = (Ok a, w') ->
  exists name, audio_original_filename a = Some name
               /\ stat (InStaging name) w' = Some (audio_file_size a).
Proof.
  unfold _create_audio_dto. intros H.
  apply bind_inv_Ok in H as (fn & w1 & _ & H).
  apply bind_inv_Ok in H as (p & w2 & Hp & H).
  destruct fn as [name |]; [| discriminate Hp].
  apply bind_inv_Ok in H as (? & w3 & _ & H).
  apply bind_inv_Ok in H as (title & w4 & _ & H).
  apply bind_inv_Ok in H as (dest & w5 & Hd & H).
  injection Hd as <- <-.
  apply bind_inv_Ok in H as (size & w6 & Hs & H).
  injection H as <- <-.
  unfold file_size in Hs.
  destruct (stat (join StagingDir name) w4) as [sz |] eqn:E; [| discriminate].
  injection Hs as <- <-.
  exists name. split; [reflexivity |]. cbn [audio_file_size].
  rewrite <- (stat_join_staging _ _ _ E). exact E.
Qed.

(** C4. In an AUDIO_VIDEO resolution where the audio asset was built, its
    file relocated into the staging directory, and building the video
    asset then raises, the resolution raises that same error and the
    staging directory has been removed with all it held, the relocated
    audio file included. *)
Theorem audio_video_rollback meta custom w a w1 e w2 :
  _create_audio_dto meta ScratchDir StagingDir custom w = (Ok a, w1) ->
  _create_video_dto meta ScratchDir StagingDir custom w1 = (Raise e, w2) ->
  exists w3,
    _create_media_dtos AUDIO_VIDEO meta ScratchDir StagingDir custom w = (Raise e, w3)
    /\ staging w3 = None
    /\ files_in (staging w3) = []
    /\ trace w3 = trace w2 ++ [EvRemoveDir StagingDir]
    /\ exists name, audio_original_filename a = Some name
                    /\ stat (InStaging name) w1 = Some (audio_file_size a)
                    /\ stat (InStaging name) w3 = None.
Proof.
  intros Ha Hv. eexists. split.
  - unfold _create_media_dtos.
    rewrite (bind_Ok _ _ _ _ _ (create_dto_Ok _ _ _ _ _ _ _ _ Ha)).
    rewrite (bind_Raise _ _ _ _ _ (create_dto_Raise_staging _ _ _ _ _ _ _ Hv)).
    reflexivity.
  - split; [reflexivity | split; [reflexivity | split; [reflexivity |]]].
    destruct (audio_dto_relocated _ _ _ _ _ _ Ha) as (name & Hname & Hstat).
    exists name. split; [exact Hname | split; [exact Hstat | reflexivity]].
Qed.

(** Every failing AUDIO_VIDEO resolution ends without a staging
    directory, whichever asset failed. *)
Lemma audio_video_failure_removes meta c custom w e w' :
  _create_media_dtos AUDIO_VIDEO meta c StagingDir custom w = (Raise e, w') ->
  staging w' = None.
Proof.
  unfold _create_media_dtos, bind.
  destruct (create_dto _create_audio_dto meta c StagingDir custom w) as [[a|ea] w1] eqn:Ea.
  - destruct (create_dto _create_video_dto meta c StagingDir custom w1) as [[v|ev] w2] eqn:Ev.
    + discriminate.
    + intros H. injection H as _ <-. exact (create_dto_failure_removes _ _ _ _ _ _ _ Ev).
  - intros H. injection H as _ <-. exact (create_dto_failure_removes _ _ _ _ _ _ _ Ea).
Qed.

(** *** Playlists without entries *)

Lemma empty_playlist_context w l d :
  heap w !! l = Some d ->
  d !! "_type" = Some (VStr "playlist") ->
  d !! "entries" = Some (VList []) ->
  _get_video_context (VRef l) w
  = (Raise (ValueError "Item said to be downloaded but no entries to process."), w).
Proof.
  intros Hl Ht He. unfold _get_video_context.
  rewrite (bind_Ok _ _ _ _ _ (py_getitem_ref _ _ _ _ _ Hl Ht)).
  change (py_eq_str (VStr "playlist") _PLAYLIST_TYPE) with true. cbv iota.
  rewrite (bind_Ok _ _ _ _ _ (py_getitem_ref _ _ _ _ _ Hl He)).
  reflexivity.
Qed.

Lemma empty_playlist_video w l d c dst custom :
  heap w !! l = Some d ->
  d !! "_type" = Some (VStr "playlist") ->
  d !! "entries" = Some (VList []) ->
  exists e, _create_video_dto (VRef l) c dst custom w = (Raise e, w).
Proof.
  intros Hl Ht He. exists IndexError.
  unfold _create_video_dto, _get_video_filename, _get_video_filepath.
  apply bind_Raise. apply bind_Raise.
  rewrite (bind_Ok _ _ _ _ _ (py_getitem_ref _ _ _ _ _ Hl Ht)).
  change (py_eq_str (VStr "playlist") _PLAYLIST_TYPE) with true. cbv iota.
  apply bind_Raise.
  rewrite (bind_Ok _ _ _ _ _ (py_getitem_ref _ _ _ _ _ Hl He)).
  reflexivity.
Qed.

(** C2, as the code has it. For a playlist-shaped document whose entries
    are an empty list, whatever its other fields: extracting the video
    context fails with the [ValueError] that says there are no entries to
    process, and a VIDEO or AUDIO_VIDEO resolution never returns a result.
    (An AUDIO resolution does not look at the shape of the document.) *)
Theorem empty_playlist_rejected w l d :
  heap w !! l = Some d ->
  d !! "_type" = Some (VStr "playlist") ->
  d !! "entries" = Some (VList []) ->
  _get_video_context (VRef l) w
  = (Raise (ValueError "Item said to be downloaded but no entries to process."), w)
  /\ forall media_type c dst custom,
       media_type = VIDEO \/ media_type = AUDIO_VIDEO ->
       exists e w', _create_media_dtos media_type (VRef l) c dst custom w = (Raise e, w').
Proof.
  intros Hl Ht He. split; [exact (empty_playlist_context _ _ _ Hl Ht He) |].
  intros media_type c dst custom [-> | ->]; unfold _create_media_dtos.
  - destruct (empty_playlist_video w l d c dst custom Hl Ht He) as [e Hv].
    destruct (create_dto_Raise _ _ _ _ _ _ _ _ Hv) as (e' & w'' & Hc).
    exists e', w''. now apply bind_Raise.
  - destruct (_create_audio_dto (VRef l) c dst custom w) as [[a|ea] w1] eqn:Ea.
    + rewrite (bind_Ok _ _ _ _ _ (create_dto_Ok _ _ _ _ _ _ _ _ Ea)).
      assert (Hl1 : heap w1 !! l = Some d)
        by now rewrite (heap_stable_audio _ _ _ _ _ _ _ Ea).
      destruct (empty_playlist_video w1 l d c dst custom Hl1 Ht He) as [e Hv].
      destruct (create_dto_Raise _ _ _ _ _ _ _ _ Hv) as (e' & w'' & Hc).
      exists e', w''. now apply bind_Raise.
    + destruct (create_dto_Raise _ _ _ _ _ _ _ _ Ea) as (e' & w'' & Hc).
      exists e', w''. now apply bind_Raise.
Qed.

(** *** The primary pass *)

Lemma primary_pass_skip w pre rest :
  Forall (audio_descriptor (heap w)) pre ->
  primary_pass (pre ++ rest) w = primary_pass rest w.
Proof.
  induction 1 as [| v pre (l & d & -> & Hl & Hext) _ IH]; [reflexivity |].
  cbn [app primary_pass].
  rewrite (bind_Ok _ _ _ _ _ (py_get_ref _ _ _ "ext" (VStr "") Hl)).
  fold (ext_of d). rewrite Hext. exact IH.
Qed.

Lemma primary_pass_none w items :
  Forall (audio_descriptor (heap w)) items -> primary_pass items w = (Ok None, w).
Proof.
  intros H. rewrite <- (app_nil_r items). now rewrite primary_pass_skip.
Qed.

Lemma primary_pass_hit w l d rest internal :
  heap w !! l = Some d ->
  py_ne_str (ext_of d) FINAL_AUDIO_FORMAT = true ->
  d !! "_filename" = Some internal ->
  primary_pass (VRef l :: rest) w
  = (Ok (Some (VRef l)),
     set_heap (<[l := <["filepath" := normalized_filepath d internal]> d]> (heap w)) w).
Proof.
  intros Hl Hext Hint. cbn [primary_pass].
  rewrite (bind_Ok _ _ _ _ _ (py_get_ref _ _ _ "ext" (VStr "") Hl)).
  fold (ext_of d). rewrite Hext.
  rewrite (bind_Ok _ _ _ _ _ (py_getitem_ref _ _ _ _ _ Hl Hint)).
  rewrite (bind_Ok _ _ _ _ _ (py_get_ref _ _ _ "filename" internal Hl)).
  rewrite (bind_Ok _ _ _ _ _ (py_get_ref _ _ _ "filepath" _ Hl)).
  rewrite (bind_Ok _ _ _ _ _ (py_setitem_ref _ _ _ _ _ Hl)).
  reflexivity.
Qed.

Lemma primary_pass_hit_no_internal w l d rest :
  heap w !! l = Some d ->
  py_ne_str (ext_of d) FINAL_AUDIO_FORMAT = true ->
  d !! "_filename" = None ->
  primary_pass (VRef l :: rest) w = (Raise (KeyError "_filename"), w).
Proof.
  intros Hl Hext Hint. cbn [primary_pass].
  rewrite (bind_Ok _ _ _ _ _ (py_get_ref _ _ _ "ext" (VStr "") Hl)).
  fold (ext_of d). rewrite Hext.
  now rewrite (bind_Raise _ _ _ _ _ (py_getitem_missing _ _ _ _ Hl Hint)).
Qed.

Lemma requested_video_primary w pre l d post internal :
  Forall (audio_descriptor (heap w)) pre ->
  heap w !! l = Some d ->
  py_ne_str (ext_of d) FINAL_AUDIO_FORMAT = true ->
  d !! "_filename" = Some internal ->
  _get_requested_video (VList (pre ++ VRef l :: post)) w
  = (Ok (VRef l),
     set_heap (<[l := <["filepath" := normalized_filepath d internal]> d]> (heap w)) w).
Proof.
  intros Hpre Hl Hext Hint. unfold _get_requested_video.
  unfold bind at 1. cbn [py_iter].
  unfold bind at 1. rewrite (primary_pass_skip _ _ _ Hpre).
  rewrite (primary_pass_hit _ _ _ _ _ Hl Hext Hint). reflexivity.
Qed.

(** The write of the primary pass changes the heap exactly when the
    descriptor had no [filepath] key. *)
Lemma normalizing_write_changes (h : gmap loc (gmap string pyval)) l d internal :
  h !! l = Some d ->
  (<[l := <["filepath" := normalized_filepath d internal]> d]> h = h
   <-> is_Some (d !! "filepath")).
Proof.
  intros Hl. split.
  - intros Heq. apply (f_equal (fun m => m !! l)) in Heq.
    rewrite lookup_insert_eq, Hl in Heq. injection Heq as Heq.
    apply (f_equal (fun m => m !! "filepath")) in Heq.
    rewrite lookup_insert_eq in Heq. rewrite <- Heq. eauto.
  - intros [x Hx]. unfold normalized_filepath. rewrite Hx. cbn.
    rewrite (insert_id d "filepath" x Hx). exact (insert_id h l d Hl).
Qed.

(** C10, as the code has it. When the primary pass matches a descriptor
    that carries an internal filename, the pass returns that very object,
    not a copy, after storing the normalized value (filepath, else
    filename, else internal filename) under its [filepath] key in the
    caller's heap; nothing else changes, and the document differs from
    what it was exactly when the descriptor had no [filepath] key. *)
Theorem primary_pass_updates_in_place w pre l d post internal :
  Forall (audio_descriptor (heap w)) pre ->
  heap w !! l = Some d ->
  py_ne_str (ext_of d) FINAL_AUDIO_FORMAT = true ->
  d !! "_filename" = Some internal ->
  exists w',
    _get_requested_video (VList (pre ++ VRef l :: post)) w = (Ok (VRef l), w')
    /\ heap w' = <[l := <["filepath" := normalized_filepath d internal]> d]> (heap w)
    /\ (scratch w', staging w', trace w') = (scratch w, staging w, trace w)
    /\ (heap w' = heap w <-> is_Some (d !! "filepath")).
Proof.
  intros Hpre Hl Hext Hint. eexists. split.
  - exact (requested_video_primary _ _ _ _ _ _ Hpre Hl Hext Hint).
  - split; [reflexivity | split; [reflexivity |]].
    cbn [heap set_heap]. exact (normalizing_write_changes _ _ _ _ Hl).
Qed.

(** *** The filename of the video *)

Lemma split_on_no_occurs sep s : occurs sep s = false -> split_on sep s = [s].
Proof.
  induction s as [| c r IH]; [reflexivity |].
  cbn [occurs split_on]. intros H. apply orb_false_iff in H as [Hc Hr].
  rewrite Hc, (IH Hr). reflexivity.
Qed.

Lemma split_on_occurs sep s :
  occurs sep s = true -> exists a b rest, split_on sep s = a :: b :: rest.
Proof.
  induction s as [| c r IH]; [discriminate |].
  cbn [occurs split_on]. destruct (Ascii.eqb c sep) eqn:Hc.
  - intros _. destruct r as [| c' r']; [cbn; eauto |].
    destruct (split_on sep (String c' r')) as [| x xs] eqn:E; [| eauto].
    destruct (occurs sep (String c' r')) eqn:Ho.
    + destruct (IH eq_refl) as (a & b & rest & Hab). rewrite Hab in E. discriminate.
    + rewrite (split_on_no_occurs _ _ Ho) in E. discriminate.
  - cbn [orb]. intros Hr. destruct (IH Hr) as (a & b & rest & ->). eauto.
Qed.

(** The last element of [rsplit(sep, 1)] is the last piece of the full
    split at [sep]. *)
Lemma last_item_rsplit1 sep s :
  last_item (rsplit1 sep s) = List.last (split_on sep s) EmptyString.
Proof.
  unfold last_item. induction s as [| c r IH]; [reflexivity |].
  cbn [rsplit1 split_on]. destruct (occurs sep r) eqn:Ho.
  - destruct (split_on_occurs _ _ Ho) as (a & b & rest & Hab).
    assert (Hlast : List.last (match rsplit1 sep r with
                               | [hd; tl] => [String c hd; tl]
                               | other => other
                               end) EmptyString
                    = List.last (rsplit1 sep r) EmptyString).
    { destruct (rsplit1 sep r) as [| x [| y [| z zs]]]; reflexivity. }
    rewrite Hlast, IH, Hab. destruct (Ascii.eqb c sep); reflexivity.
  - rewrite (split_on_no_occurs _ _ Ho). destruct (Ascii.eqb c sep); reflexivity.
Qed.

Lemma py_rsplit_last_slash p w :
  py_rsplit_last (VStr p) "/" w = (Ok (final_segment p), w).
Proof. unfold py_rsplit_last, ret, final_segment. now rewrite last_item_rsplit1. Qed.

(** A returned [Video] carries the name [_get_video_filename] computed. *)
Lemma video_dto_filename meta c dst custom w v w' :
  _create_video_dto meta c dst custom w = (Ok v, w') ->
  exists w1, _get_video_filename meta w = (Ok (video_original_filename v), w1).
Proof.
  unfold _create_video_dto. intros H.
  apply bind_inv_Ok in H as (name & w1 & Hname & H).
  exists w1. rewrite Hname. repeat f_equal.
  apply bind_inv_Ok in H as (? & ? & _ & H).
  apply bind_inv_Ok in H as (? & ? & _ & H).
  apply bind_inv_Ok in H as (? & ? & _ & H).
  apply bind_inv_Ok in H as ([[? ?] ?] & ? & _ & H).
  apply bind_inv_Ok in H as (? & ? & _ & H).
  apply bind_inv_Ok in H as (? & ? & _ & H).
  injection H as <- _. reflexivity.
Qed.

Lemma single_item_filepath_primary w lm dm t pre l d post internal :
  heap w !! lm = Some dm ->
  dm !! "_type" = Some t ->
  py_eq_str t _PLAYLIST_TYPE = false ->
  dm !! "requested_downloads" = Some (VList (pre ++ VRef l :: post)) ->
  Forall (audio_descriptor (heap w)) pre ->
  heap w !! l = Some d ->
  py_ne_str (ext_of d) FINAL_AUDIO_FORMAT = true ->
  d !! "_filename" = Some internal ->
  _get_video_filepath (VRef lm) w
  = (Ok (normalized_filepath d internal),
     set_heap (<[l := <["filepath" := normalized_filepath d internal]> d]> (heap w)) w).
Proof.
  intros Hlm Ht Hsingle Hrd Hpre Hl Hext Hint. unfold _get_video_filepath.
  rewrite (bind_Ok _ _ _ _ _ (py_getitem_ref _ _ _ _ _ Hlm Ht)). rewrite Hsingle.
  erewrite bind_Ok.
  2:{ rewrite (bind_Ok _ _ _ _ _ (py_getitem_ref _ _ _ _ _ Hlm Hrd)).
      exact (requested_video_primary _ _ _ _ _ _ Hpre Hl Hext Hint). }
  unfold try_except.
  erewrite py_getitem_ref; [reflexivity | cbn [heap set_heap]; apply lookup_insert_eq
                           | apply lookup_insert_eq].
Qed.

(** The selection is stable: once the primary pass has normalized the
    descriptor, running it again selects the same object and leaves the
    state as it is. *)
Lemma audio_descriptor_after_write (h : gmap loc (gmap string pyval)) l d x v :
  h !! l = Some d ->
  py_ne_str (ext_of d) FINAL_AUDIO_FORMAT = true ->
  audio_descriptor h v ->
  audio_descriptor (<[l := <["filepath" := x]> d]> h) v.
Proof.
  intros Hl Hext (l' & d' & -> & Hl' & Hext').
  exists l', d'. split; [reflexivity | split; [| exact Hext']].
  rewrite lookup_insert_ne; [exact Hl' |].
  intros ->. rewrite Hl in Hl'. injection Hl' as ->. congruence.
Qed.

Lemma requested_video_primary_again w pre l d post internal w2 :
  Forall (audio_descriptor (heap w)) pre ->
  heap w !! l = Some d ->
  py_ne_str (ext_of d) FINAL_AUDIO_FORMAT = true ->
  d !! "_filename" = Some internal ->
  heap w2 = <[l := <["filepath" := normalized_filepath d internal]> d]> (heap w) ->
  _get_requested_video (VList (pre ++ VRef l :: post)) w2 = (Ok (VRef l), w2).
Proof.
  intros Hpre Hl Hext Hint Hh.
  set (nf := normalized_filepath d internal) in *.
  assert (Hl2 : heap w2 !! l = Some (<["filepath" := nf]> d))
    by (rewrite Hh; apply lookup_insert_eq).
  assert (Hpre2 : Forall (audio_descriptor (heap w2)) pre).
  { rewrite Hh. eapply Forall_impl; [exact Hpre |].
    intros v Hv. exact (audio_descriptor_after_write _ _ _ _ _ Hl Hext Hv). }
  assert (Hext2 : py_ne_str (ext_of (<["filepath" := nf]> d)) FINAL_AUDIO_FORMAT = true).
  { unfold ext_of. rewrite lookup_insert_ne by discriminate. exact Hext. }
  assert (Hint2 : <["filepath" := nf]> d !! "_filename" = Some internal).
  { rewrite lookup_insert_ne by discriminate. exact Hint. }
  rewrite (requested_video_primary _ _ _ _ _ _ Hpre2 Hl2 Hext2 Hint2).
  f_equal.
  assert (Hnf : normalized_filepath (<["filepath" := nf]> d) internal = nf).
  { unfold normalized_filepath at 1. now rewrite lookup_insert_eq. }
  rewrite Hnf, insert_insert_eq, (insert_id (heap w2) l _ Hl2).
  apply set_heap_same.
Qed.

(** The result of [_to_float] does not depend on the state, which it
    leaves alone. *)
Lemma to_float_world v w : _to_float v w = (fst (_to_float v empty_world), w).
Proof.
  unfold _to_float, try_except, py_float.
  destruct v as [| b | z | f | s | items | l]; try reflexivity.
  - destruct (PyFloat.of_Z z); reflexivity.
  - destruct (PyFloat.of_string s); reflexivity.
Qed.

(** *** Directory listings *)

Lemma lookup_file_app name d1 d2 :
  lookup_file name (d1 ++ d2)
  = match lookup_file name d1 with Some sz => Some sz | None => lookup_file name d2 end.
Proof.
  induction d1 as [| [n sz] d1 IH]; [reflexivity |].
  cbn [app lookup_file]. destruct (String.eqb n name); [reflexivity | exact IH].
Qed.

Lemma lookup_file_remove_same name d : lookup_file name (remove_file name d) = None.
Proof.
  unfold remove_file. induction d as [| [n sz] d IH]; [reflexivity |].
  cbn [List.filter fst]. destruct (String.eqb n name) eqn:E; cbn [negb]; [exact IH |].
  cbn [lookup_file]. now rewrite E.
Qed.

Lemma lookup_file_remove_other name other d :
  other <> name -> lookup_file name (remove_file other d) = lookup_file name d.
Proof.
  intros Hne. unfold remove_file. induction d as [| [n sz] d IH]; [reflexivity |].
  cbn [List.filter fst lookup_file]. destruct (String.eqb n other) eqn:E; cbn [negb].
  - apply String.eqb_eq in E as ->.
    destruct (String.eqb other name) eqn:E2; [apply String.eqb_eq in E2; contradiction | exact IH].
  - cbn [lookup_file]. destruct (String.eqb n name); [reflexivity | exact IH].
Qed.

Lemma lookup_file_put_same name sz d : lookup_file name (put_file name sz d) = Some sz.
Proof.
  unfold put_file. rewrite lookup_file_app, lookup_file_remove_same.
  cbn [lookup_file]. now rewrite String.eqb_refl.
Qed.

Lemma lookup_file_names name d :
  In name d.*1 -> is_Some (lookup_file name d).
Proof.
  induction d as [| [n sz] d IH]; [intros [] |].
  cbn [lookup_file]. intros [Heq | Hin].
  - cbn in Heq. subst n. rewrite String.eqb_refl. eauto.
  - destruct (String.eqb n name); [eauto | exact (IH Hin)].
Qed.

Lemma lookup_file_Some_names name d sz : lookup_file name d = Some sz -> In name d.*1.
Proof.
  induction d as [| [n z] d IH]; [discriminate |].
  cbn [lookup_file]. destruct (String.eqb n name) eqn:E.
  - intros _. left. cbn. now apply String.eqb_eq.
  - intros H. right. exact (IH H).
Qed.

Lemma remove_file_names name other d : In name (remove_file other d).*1 -> In name d.*1.
Proof.
  unfold remove_file. induction d as [| [n z] d IH]; [intros [] |].
  cbn [List.filter fst]. destruct (negb (String.eqb n other)).
  - intros [H | H]; [left; exact H | right; exact (IH H)].
  - intros H. right. exact (IH H).
Qed.

Lemma remove_file_names_ne name other d : In name (remove_file other d).*1 -> name <> other.
Proof.
  intros Hin ->. apply lookup_file_names in Hin as [sz Hsz].
  rewrite lookup_file_remove_same in Hsz. discriminate.
Qed.

Lemma join_scratch_simple name : simple_name name = true -> join ScratchDir name = InScratch name.
Proof.
  intros H. unfold join. rewrite H. unfold simple_name in H.
  destruct (String.eqb name ""); [discriminate |].
  destruct (String.eqb name "."); [discriminate | reflexivity].
Qed.

Lemma join_staging_simple name : simple_name name = true -> join StagingDir name = InStaging name.
Proof.
  intros H. unfold join. rewrite H. unfold simple_name in H.
  destruct (String.eqb name ""); [discriminate |].
  destruct (String.eqb name "."); [discriminate | reflexivity].
Qed.

(** *** Searching the scratch directory *)

Lemma simple_listing_names d name : simple_listing d -> In name d.*1 -> simple_name name = true.
Proof.
  intros Hs Hin. apply in_map_iff in Hin as ([n z] & <- & Hin).
  unfold simple_listing in Hs. rewrite List.Forall_forall in Hs. exact (Hs _ Hin).
Qed.

Lemma glob_head_in extension w files name rest :
  scratch w = Some files ->
  glob extension ScratchDir w = name :: rest ->
  In name files.*1 /\ glob_match extension name = true.
Proof.
  intros Hsc Hg. unfold glob in Hg. rewrite Hsc in Hg.
  change (default [] (Some files)) with files in Hg.
  assert (Hin : In name (List.filter (glob_match extension) files.*1))
    by (rewrite Hg; now left).
  now apply filter_In in Hin.
Qed.

(** The search returns the first name the pattern matches, or [None],
    and changes nothing. *)
Lemma find_downloaded_file_result extension w files :
  extension = FINAL_AUDIO_FORMAT \/ extension = FINAL_THUMBNAIL_FORMAT ->
  scratch w = Some files ->
  simple_listing files ->
  _find_downloaded_file ScratchDir extension w
  = (Ok (List.head (glob extension ScratchDir w)), w).
Proof.
  intros Hext Hsc Hsimple. unfold _find_downloaded_file.
  assert (Hname : exists verbose, _EXT_TO_NAME extension w = (Ok verbose, w)).
  { unfold _EXT_TO_NAME. destruct Hext as [-> | ->].
    - destruct (String.eqb FINAL_AUDIO_FORMAT FINAL_THUMBNAIL_FORMAT); [eexists; reflexivity |].
      rewrite String.eqb_refl. eexists; reflexivity.
    - rewrite String.eqb_refl. eexists; reflexivity. }
  destruct Hname as [verbose Hname]. rewrite (bind_Ok _ _ _ _ _ Hname).
  unfold bind at 1. cbn [get_world].
  destruct (glob extension ScratchDir w) as [| name rest] eqn:Hg; [reflexivity |].
  destruct (glob_head_in _ _ _ _ _ Hsc Hg) as [Hin _].
  pose proof (simple_listing_names _ _ Hsimple Hin) as Hs.
  destruct (lookup_file_names _ _ Hin) as [sz Hsz].
  unfold bind, file_size, stat. rewrite (join_scratch_simple _ Hs), Hsc. cbn.
  rewrite Hsz. reflexivity.
Qed.

(** *** Building the video from the primary descriptor *)

Lemma fields_after_write (h : gmap loc (gmap string pyval)) l d x lm dm :
  h !! l = Some d ->
  h !! lm = Some dm ->
  exists dm', <[l := <["filepath" := x]> d]> h !! lm = Some dm'
              /\ forall key, key <> "filepath" -> dm' !! key = dm !! key.
Proof.
  intros Hl Hlm. destruct (decide (l = lm)) as [<- | Hne].
  - rewrite Hl in Hlm. injection Hlm as <-. eexists. split; [apply lookup_insert_eq |].
    intros key Hkey. now rewrite lookup_insert_ne.
  - exists dm. split; [now rewrite lookup_insert_ne | reflexivity].
Qed.

Lemma video_context_primary w w2 lm dm t pre l d post internal :
  heap w !! lm = Some dm ->
  dm !! "_type" = Some t ->
  py_eq_str t _PLAYLIST_TYPE = false ->
  dm !! "requested_downloads" = Some (VList (pre ++ VRef l :: post)) ->
  Forall (audio_descriptor (heap w)) pre ->
  heap w !! l = Some d ->
  py_ne_str (ext_of d) FINAL_AUDIO_FORMAT = true ->
  d !! "_filename" = Some internal ->
  heap w2 = <[l := <["filepath" := normalized_filepath d internal]> d]> (heap w) ->
  _get_video_context (VRef lm) w2
  = (match fst (_to_float (default VNone (dm !! "duration")) empty_world) with
     | Ok duration =>
         Ok (duration, default VNone (d !! "width"), default VNone (d !! "height"))
     | Raise e => Raise e
     end, w2).
Proof.
  intros Hlm Ht Hsingle Hrd Hpre Hl Hext Hint Hh.
  destruct (fields_after_write (heap w) l d (normalized_filepath d internal) lm dm Hl Hlm)
    as (dm' & Hlm2 & Hsame).
  rewrite <- Hh in Hlm2.
  assert (Hl2 : heap w2 !! l = Some (<["filepath" := normalized_filepath d internal]> d))
    by (rewrite Hh; apply lookup_insert_eq).
  assert (Ht2 : dm' !! "_type" = Some t) by (rewrite Hsame; [exact Ht | discriminate]).
  assert (Hrd2 : dm' !! "requested_downloads" = Some (VList (pre ++ VRef l :: post)))
    by (rewrite Hsame; [exact Hrd | discriminate]).
  unfold _get_video_context.
  rewrite (bind_Ok _ _ _ _ _ (py_getitem_ref _ _ _ _ _ Hlm2 Ht2)). rewrite Hsingle.
  rewrite (bind_Ok _ _ _ _ _ (py_getitem_ref _ _ _ _ _ Hlm2 Hrd2)).
  rewrite (bind_Ok _ _ _ _ _
             (requested_video_primary_again _ _ _ _ _ _ _ Hpre Hl Hext Hint Hh)).
  rewrite (bind_Ok _ _ _ _ _ (py_get_ref _ _ _ "duration" VNone Hlm2)).
  rewrite (Hsame "duration") by discriminate.
  unfold bind at 1. rewrite to_float_world.
  destruct (fst (_to_float (default VNone (dm !! "duration")) empty_world)) as [dur | e];
    [| reflexivity].
  rewrite (bind_Ok _ _ _ _ _ (py_get_ref _ _ _ "width" VNone Hl2)).
  rewrite (bind_Ok _ _ _ _ _ (py_get_ref _ _ _ "height" VNone Hl2)).
  rewrite !lookup_insert_ne by discriminate. reflexivity.
Qed.

(** The thumbnail step of [_create_video_dto]: when the names of the
    scratch directory are simple and no thumbnail there is already in the
    staging directory, the step succeeds, leaves the heap alone and keeps
    every file the staging directory held. *)
Lemma thumbnail_step w sfiles files :
  scratch w = Some sfiles ->
  staging w = Some files ->
  simple_listing sfiles ->
  (forall name, In name sfiles.*1 -> glob_match FINAL_THUMBNAIL_FORMAT name = true ->
                lookup_file name files = None) ->
  exists thumb_name thumb_path w',
    _find_downloaded_file ScratchDir FINAL_THUMBNAIL_FORMAT w = (Ok thumb_name, w)
    /\ match thumb_name with
       | Some name =>
           shutil_move (join ScratchDir name) StagingDir ;;;
           ret (Some (join StagingDir name))
       | None => ret None
       end w = (Ok thumb_path, w')
    /\ heap w' = heap w
    /\ forall name sz, lookup_file name files = Some sz -> stat (InStaging name) w' = Some sz.
Proof.
  intros Hsc Hst Hsimple Hfree.
  rewrite (find_downloaded_file_result _ _ _ (or_intror eq_refl) Hsc Hsimple).
  destruct (glob FINAL_THUMBNAIL_FORMAT ScratchDir w) as [| name rest] eqn:Hg.
  - exists None, None, w. repeat split.
    intros name sz Hn. unfold stat. rewrite Hst. exact Hn.
  - destruct (glob_head_in _ _ _ _ _ Hsc Hg) as [Hin Hmatch].
    pose proof (simple_listing_names _ _ Hsimple Hin) as Hs.
    destruct (lookup_file_names _ _ Hin) as [tsz Htsz].
    exists (Some name), (Some (join StagingDir name)). eexists. split; [reflexivity |].
    split; [| split].
    + cbn [List.head]. unfold bind, shutil_move.
      rewrite (join_scratch_simple _ Hs), Hst, (Hfree _ Hin Hmatch).
      unfold stat. rewrite Hsc. cbn. rewrite Htsz. reflexivity.
    + reflexivity.
    + intros other sz Hother. unfold stat. cbn.
      rewrite lookup_file_app, Hother. reflexivity.
Qed.

Lemma simple_listing_remove name d : simple_listing d -> simple_listing (remove_file name d).
Proof.
  unfold simple_listing, remove_file. rewrite !List.Forall_forall.
  intros H e He. apply filter_In in He as [He _]. exact (H e He).
Qed.

Lemma video_dto_succeeds w lm dm t pre l d post internal p
    custom title duration sfiles files sz dest_name :
  heap w !! lm = Some dm ->
  dm !! "_type" = Some t ->
  py_eq_str t _PLAYLIST_TYPE = false ->
  dm !! "requested_downloads" = Some (VList (pre ++ VRef l :: post)) ->
  Forall (audio_descriptor (heap w)) pre ->
  heap w !! l = Some d ->
  py_ne_str (ext_of d) FINAL_AUDIO_FORMAT = true ->
  d !! "_filename" = Some internal ->
  normalized_filepath d internal = VStr p ->
  dm !! "title" = Some title ->
  fst (_to_float (default VNone (dm !! "duration")) empty_world) = Ok duration ->
  scratch w = Some sfiles ->
  staging w = Some files ->
  simple_listing sfiles ->
  lookup_file (final_segment p) sfiles = Some sz ->
  dest_name = default (final_segment p) (given custom) ->
  simple_name dest_name = true ->
  (forall name, In name sfiles.*1 -> glob_match FINAL_THUMBNAIL_FORMAT name = true ->
                name <> final_segment p ->
                name <> dest_name /\ lookup_file name files = None) ->
  exists v w',
    _create_video_dto (VRef lm) ScratchDir StagingDir custom w = (Ok v, w')
    /\ video_original_filename v = final_segment p
    /\ video_file_size v = sz
    /\ stat (InStaging dest_name) w' = Some sz.
Proof.
  intros Hlm Ht Hsingle Hrd Hpre Hl Hext Hint Hp Htitle Hdur Hsc Hst Hsimple Hfile
    Hdest Hdsimple Hthumb.
  set (fname := final_segment p) in *.
  assert (Hfsimple : simple_name fname = true)
    by exact (simple_listing_names _ _ Hsimple (lookup_file_Some_names _ _ _ Hfile)).
  pose proof (single_item_filepath_primary _ _ _ _ _ _ _ _ _
                Hlm Ht Hsingle Hrd Hpre Hl Hext Hint) as Hfp.
  rewrite Hp in Hfp.
  set (h1 := <[l := <["filepath" := VStr p]> d]> (heap w)) in *.
  assert (Hfn : _get_video_filename (VRef lm) w = (Ok fname, set_heap h1 w)).
  { unfold _get_video_filename. rewrite (bind_Ok _ _ _ _ _ Hfp).
    apply py_rsplit_last_slash. }
  unfold _create_video_dto. rewrite (bind_Ok _ _ _ _ _ Hfn). cbv zeta.
  rewrite (join_scratch_simple _ Hfsimple).
  assert (Hdp : match given custom with
                | Some c => join StagingDir c
                | None => join StagingDir fname
                end = InStaging dest_name).
  { subst dest_name. destruct (given custom); cbn [default from_option] in *;
      now apply join_staging_simple. }
  rewrite Hdp.
  set (w2 := emit (EvMove (InScratch fname) (InStaging dest_name))
               (set_staging (Some (put_file dest_name sz files))
                  (set_scratch (Some (remove_file fname sfiles)) (set_heap h1 w)))).
  assert (Hmove : shutil_move (InScratch fname) (InStaging dest_name) (set_heap h1 w)
                  = (Ok tt, w2)).
  { unfold shutil_move, stat. cbn [scratch staging set_heap]. rewrite Hsc, Hst. cbn.
    rewrite Hfile. reflexivity. }
  rewrite (bind_Ok _ _ _ _ _ Hmove).
  destruct (thumbnail_step w2 (remove_file fname sfiles) (put_file dest_name sz files)
              eq_refl eq_refl (simple_listing_remove _ _ Hsimple))
    as (thumb_name & thumb_path & w3 & Hfind & Hthumb_move & Hheap3 & Hkeep).
  { intros name Hin Hmatch.
    destruct (Hthumb name (remove_file_names _ _ _ Hin) Hmatch
                (remove_file_names_ne _ _ _ Hin)) as [Hne Hnone].
    unfold put_file. rewrite lookup_file_app, lookup_file_remove_other, Hnone by congruence.
    cbn [lookup_file]. destruct (String.eqb dest_name name) eqn:E; [| reflexivity].
    apply String.eqb_eq in E. congruence. }
  rewrite (bind_Ok _ _ _ _ _ Hfind).
  rewrite (bind_Ok _ _ _ _ _ Hthumb_move).
  assert (Hh3 : heap w3 = <[l := <["filepath" := normalized_filepath d internal]> d]> (heap w))
    by (rewrite Hheap3, Hp; reflexivity).
  pose proof (video_context_primary _ _ _ _ _ _ _ _ _ _
                Hlm Ht Hsingle Hrd Hpre Hl Hext Hint Hh3) as Hctx.
  rewrite Hdur in Hctx. rewrite (bind_Ok _ _ _ _ _ Hctx).
  destruct (fields_after_write (heap w) l d (normalized_filepath d internal) lm dm Hl Hlm)
    as (dm' & Hlm3 & Hsame).
  rewrite <- Hh3 in Hlm3.
  assert (Htitle3 : dm' !! "title" = Some title)
    by (rewrite Hsame; [exact Htitle | discriminate]).
  rewrite (bind_Ok _ _ _ _ _ (py_getitem_ref _ _ _ _ _ Hlm3 Htitle3)).
  pose proof (Hkeep dest_name sz (lookup_file_put_same _ _ _)) as Hstat.
  unfold bind, file_size. rewrite Hstat. cbn [ret].
  eexists. eexists. split; [reflexivity |]. repeat split. exact Hstat.
Qed.

(** C1. In a single-item document whose list of requested downloads has
    a descriptor with an extension other than the audio extension, the
    first such descriptor carrying an internal filename and a normalized
    filepath [p] (its filepath, else its filename, else its internal
    filename): the selection returns that descriptor with its filepath set
    to [p]; the video filename is the final segment of [p]; every [Video]
    that resolution returns, also through the VIDEO dispatch, has that
    segment as original filename; and resolution does return one when the
    file of that name lies in the scratch directory, the document has a
    title and a convertible duration, and no thumbnail collides in the
    staging directory. *)
Theorem video_filename_from_primary_descriptor w lm dm t pre l d post internal p :
  heap w !! lm = Some dm ->
  dm !! "_type" = Some t ->
  py_eq_str t _PLAYLIST_TYPE = false ->
  dm !! "requested_downloads" = Some (VList (pre ++ VRef l :: post)) ->
  Forall (audio_descriptor (heap w)) pre ->
  heap w !! l = Some d ->
  py_ne_str (ext_of d) FINAL_AUDIO_FORMAT = true ->
  d !! "_filename" = Some internal ->
  normalized_filepath d internal = VStr p ->
  let w1 := set_heap (<[l := <["filepath" := VStr p]> d]> (heap w)) w in
  _get_requested_video (VList (pre ++ VRef l :: post)) w = (Ok (VRef l), w1)
  /\ _get_video_filename (VRef lm) w = (Ok (final_segment p), w1)
  /\ (forall c dst custom v w',
        _create_video_dto (VRef lm) c dst custom w = (Ok v, w') ->
        video_original_filename v = final_segment p)
  /\ (forall c dst custom dtos w',
        _create_media_dtos VIDEO (VRef lm) c dst custom w = (Ok dtos, w') ->
        exists v, dtos = (None, Some v) /\ video_original_filename v = final_segment p)
  /\ (forall custom title duration sfiles files sz dest_name,
        dm !! "title" = Some title ->
        fst (_to_float (default VNone (dm !! "duration")) empty_world) = Ok duration ->
        scratch w = Some sfiles ->
        staging w = Some files ->
        simple_listing sfiles ->
        lookup_file (final_segment p) sfiles = Some sz ->
        dest_name = default (final_segment p) (given custom) ->
        simple_name dest_name = true ->
        (forall name, In name sfiles.*1 -> glob_match FINAL_THUMBNAIL_FORMAT name = true ->
                      name <> final_segment p ->
                      name <> dest_name /\ lookup_file name files = None) ->
        exists v w',
          _create_video_dto (VRef lm) ScratchDir StagingDir custom w = (Ok v, w')
          /\ video_original_filename v = final_segment p
          /\ video_file_size v = sz
          /\ stat (InStaging dest_name) w' = Some sz).
Proof.
  intros Hlm Ht Hsingle Hrd Hpre Hl Hext Hint Hp w1.
  pose proof (requested_video_primary _ _ _ _ post _ Hpre Hl Hext Hint) as Hsel.
  pose proof (single_item_filepath_primary _ _ _ _ _ _ _ _ _
                Hlm Ht Hsingle Hrd Hpre Hl Hext Hint) as Hfp.
  rewrite Hp in Hsel, Hfp. fold w1 in Hsel, Hfp.
  assert (Hfn : _get_video_filename (VRef lm) w = (Ok (final_segment p), w1)).
  { unfold _get_video_filename. rewrite (bind_Ok _ _ _ _ _ Hfp).
    apply py_rsplit_last_slash. }
  assert (Hany : forall c dst custom v w',
             _create_video_dto (VRef lm) c dst custom w = (Ok v, w') ->
             video_original_filename v = final_segment p).
  { intros c dst custom v w' Hv.
    destruct (video_dto_filename _ _ _ _ _ _ _ Hv) as [w1' Hname].
    rewrite Hfn in Hname. now injection Hname as -> _. }
  split; [exact Hsel | split; [exact Hfn | split; [exact Hany | split]]].
  - intros c dst custom dtos w' Hrun. unfold _create_media_dtos in Hrun.
    apply bind_inv_Ok in Hrun as (v & w1' & Hv & Hret).
    injection Hret as <- _. exists v. split; [reflexivity |].
    exact (Hany _ _ _ _ _ (create_dto_inv_Ok _ _ _ _ _ _ _ _ Hv)).
  - intros custom title duration sfiles files sz dest_name
      Htitle Hdur Hsc Hst Hsimple Hfile Hdest Hdsimple Hthumb.
    exact (video_dto_succeeds _ _ _ _ _ _ _ _ _ _ _ _ _ _ _ _ _
             Hlm Ht Hsingle Hrd Hpre Hl Hext Hint Hp Htitle Hdur Hsc Hst Hsimple
             Hfile Hdest Hdsimple Hthumb).
Qed.

(** *** The fallback pass *)

Lemma py_rsplit_last_dot name w :
  py_rsplit_last (VStr name) "." w = (Ok (actual_extension name), w).
Proof. unfold py_rsplit_last, ret, actual_extension. now rewrite last_item_rsplit1. Qed.

Lemma fallback_pass_skip w pre rest :
  Forall (settled_descriptor (heap w)) pre ->
  fallback_pass (pre ++ rest) w = fallback_pass rest w.
Proof.
  induction 1 as [| v pre (l & d & ext & name & -> & Hl & Hext & Hname & Hsame) _ IH];
    [reflexivity |].
  cbn [app fallback_pass].
  rewrite (bind_Ok _ _ _ _ _ (py_getitem_ref _ _ _ _ _ Hl Hext)).
  rewrite (bind_Ok _ _ _ _ _ (py_getitem_ref _ _ _ _ _ Hl Hname)).
  rewrite (bind_Ok _ _ _ _ _ (py_rsplit_last_dot _ _)).
  rewrite Hsame. exact IH.
Qed.

Lemma fresh_loc_unused (h : gmap loc (gmap string pyval)) : h !! fresh (dom h) = None.
Proof. apply not_elem_of_dom. apply is_fresh. Qed.

Lemma py_copy_ref w l d :
  heap w !! l = Some d ->
  py_copy (VRef l) w
  = (Ok (VRef (fresh (dom (heap w)))), set_heap (<[fresh (dom (heap w)) := d]> (heap w)) w).
Proof. intros Hl. unfold py_copy. now rewrite (deref_Some _ _ _ Hl). Qed.

(** A hit of the fallback pass on a descriptor that has a [filepath]. *)
Lemma fallback_pass_hit w l d rest ext name old :
  heap w !! l = Some d ->
  d !! "ext" = Some ext ->
  d !! "_filename" = Some (VStr name) ->
  py_ne_str ext (actual_extension name) = true ->
  d !! "filepath" = Some old ->
  fallback_pass (VRef l :: rest) w
  = (Ok (Some (VRef (fresh (dom (heap w))))),
     set_heap (<[fresh (dom (heap w)) := <["filepath" := replaced_filepath d (VStr name)]> d]>
                 (heap w)) w).
Proof.
  intros Hl Hext Hname Hlag Hold. cbn [fallback_pass].
  rewrite (bind_Ok _ _ _ _ _ (py_getitem_ref _ _ _ _ _ Hl Hext)).
  rewrite (bind_Ok _ _ _ _ _ (py_getitem_ref _ _ _ _ _ Hl Hname)).
  rewrite (bind_Ok _ _ _ _ _ (py_rsplit_last_dot _ _)).
  rewrite Hlag.
  rewrite (bind_Ok _ _ _ _ _ (py_copy_ref _ _ _ Hl)).
  set (l' := fresh (dom (heap w))).
  set (w1 := set_heap (<[l' := d]> (heap w)) w).
  assert (Hl' : heap w1 !! l' = Some d) by apply lookup_insert_eq.
  rewrite (bind_Ok _ _ _ _ _ (py_getitem_ref _ _ _ _ _ Hl' Hold)).
  rewrite (bind_Ok _ _ _ _ _ (py_getitem_ref _ _ _ _ _ Hl' Hname)).
  rewrite (bind_Ok _ _ _ _ _ (py_getitem_ref _ _ _ _ _ Hl' Hname)).
  rewrite (bind_Ok _ _ _ _ _ (py_get_ref _ _ _ "filename" _ Hl')).
  rewrite (bind_Ok _ _ _ _ _ (py_setitem_ref _ _ _ _ _ Hl')).
  unfold ret, w1, set_heap. cbn [heap scratch staging trace].
  now rewrite insert_insert_eq.
Qed.

(** A hit on a descriptor without [filepath]: the argument of the log
    message raises. *)
Lemma fallback_pass_hit_no_filepath w l d rest ext name :
  heap w !! l = Some d ->
  d !! "ext" = Some ext ->
  d !! "_filename" = Some (VStr name) ->
  py_ne_str ext (actual_extension name) = true ->
  d !! "filepath" = None ->
  fallback_pass (VRef l :: rest) w
  = (Raise (KeyError "filepath"), set_heap (<[fresh (dom (heap w)) := d]> (heap w)) w).
Proof.
  intros Hl Hext Hname Hlag Hold. cbn [fallback_pass].
  rewrite (bind_Ok _ _ _ _ _ (py_getitem_ref _ _ _ _ _ Hl Hext)).
  rewrite (bind_Ok _ _ _ _ _ (py_getitem_ref _ _ _ _ _ Hl Hname)).
  rewrite (bind_Ok _ _ _ _ _ (py_rsplit_last_dot _ _)).
  rewrite Hlag.
  rewrite (bind_Ok _ _ _ _ _ (py_copy_ref _ _ _ Hl)).
  apply bind_Raise. eapply py_getitem_missing; [apply lookup_insert_eq | exact Hold].
Qed.

Lemma fallback_pass_none w items :
  Forall (settled_descriptor (heap w)) items -> fallback_pass items w = (Ok None, w).
Proof.
  intros H. rewrite <- (app_nil_r items). now rewrite fallback_pass_skip.
Qed.

(** *** Inverting the primitives *)

Lemma py_getitem_inv v key w x w' :
  py_getitem v key w = (Ok x, w') ->
  w' = w /\ exists l d, v = VRef l /\ heap w !! l = Some d /\ d !! key = Some x.
Proof.
  unfold py_getitem. destruct v; try discriminate.
  destruct (heap w !! l) as [d |] eqn:Hl.
  - rewrite (deref_Some _ _ _ Hl).
    destruct (d !! key) as [y |] eqn:Hk; [| discriminate].
    intros H. injection H as <- <-. eauto 6.
  - unfold deref. rewrite Hl. change (default ∅ None) with (∅ : gmap string pyval).
    rewrite lookup_empty. discriminate.
Qed.

Lemma py_rsplit_last_inv v sep w s w' :
  py_rsplit_last v sep w = (Ok s, w') ->
  w' = w /\ exists name, v = VStr name /\ s = last_item (rsplit1 sep name).
Proof.
  unfold py_rsplit_last. destruct v; try discriminate.
  intros H. injection H as <- <-. eauto.
Qed.

(** C7, as the code has it. Whatever descriptor the fallback pass
    selects, it carries a [filepath] key, and the copy the pass returns
    has as filepath the descriptor's [filename] if it has one, else its
    internal filename: the filepath the descriptor had is replaced, not
    kept. *)
Theorem fallback_pass_replaces_filepath items w v w' :
  fallback_pass items w = (Ok (Some v), w') ->
  exists l l' d internal,
    v = VRef l' /\ In (VRef l) items
    /\ heap w !! l = Some d
    /\ heap w !! l' = None
    /\ is_Some (d !! "filepath")
    /\ d !! "_filename" = Some internal
    /\ heap w' !! l' = Some (<["filepath" := replaced_filepath d internal]> d).
Proof.
  induction items as [| item rest IH]; [discriminate |].
  cbn [fallback_pass]. intros H.
  apply bind_inv_Ok in H as (ext & w1 & Hext & H).
  apply py_getitem_inv in Hext as (-> & l & d & -> & Hl & Hext).
  apply bind_inv_Ok in H as (internal & w1 & Hint & H).
  apply py_getitem_inv in Hint as (-> & l0 & d0 & [= <-] & Hl0 & Hint).
  rewrite Hl in Hl0. injection Hl0 as <-.
  apply bind_inv_Ok in H as (actual & w1 & Hact & H).
  apply py_rsplit_last_inv in Hact as (-> & name & -> & ->).
  destruct (py_ne_str ext (last_item (rsplit1 "." name))).
  - rewrite (bind_Ok _ _ _ _ _ (py_copy_ref _ _ _ Hl)) in H.
    set (l' := fresh (dom (heap w))) in *.
    set (w1 := set_heap (<[l' := d]> (heap w)) w) in *.
    assert (Hl' : heap w1 !! l' = Some d) by apply lookup_insert_eq.
    apply bind_inv_Ok in H as (old & w2 & Hold & H).
    apply py_getitem_inv in Hold as (-> & l1 & d1 & [= <-] & Hl1 & Hold).
    rewrite Hl' in Hl1. injection Hl1 as <-.
    rewrite (bind_Ok _ _ _ _ _ (py_getitem_ref _ _ _ _ _ Hl' Hint)) in H.
    rewrite (bind_Ok _ _ _ _ _ (py_getitem_ref _ _ _ _ _ Hl' Hint)) in H.
    rewrite (bind_Ok _ _ _ _ _ (py_get_ref _ _ _ "filename" _ Hl')) in H.
    rewrite (bind_Ok _ _ _ _ _ (py_setitem_ref _ _ _ _ _ Hl')) in H.
    injection H as <- <-.
    exists l, l', d, (VStr name).
    split; [reflexivity | split; [now left | split; [exact Hl | split]]].
    + apply fresh_loc_unused.
    + split; [eauto | split; [exact Hint |]].
      cbn [heap set_heap]. apply lookup_insert_eq.
  - destruct (IH H) as (l1 & l' & d1 & internal & -> & Hin & Hrest).
    exists l1, l', d1, internal. split; [reflexivity | split; [now right | exact Hrest]].
Qed.

(** *** No descriptor at all *)

Lemma requested_video_none w items :
  Forall (audio_descriptor (heap w)) items ->
  Forall (settled_descriptor (heap w)) items ->
  _get_requested_video (VList items) w = (Ok VNone, w).
Proof.
  intros Haudio Hsettled. unfold _get_requested_video.
  unfold bind at 1. cbn [py_iter].
  rewrite (bind_Ok _ _ _ _ _ (primary_pass_none _ _ Haudio)).
  unfold bind at 1. cbn [py_iter].
  rewrite (bind_Ok _ _ _ _ _ (fallback_pass_none _ _ Hsettled)).
  reflexivity.
Qed.

Lemma filepath_canonical w lm rd :
  canonical_downloads (heap w) lm rd ->
  _get_video_filepath (VRef lm) w
  = (let* requested_video := _get_requested_video rd in
     try_except (py_getitem requested_video "filepath")
       is_AttributeError_or_KeyError
       (fun _ => raise (ValueError "Video filepath not found"))) w.
Proof.
  intros [dm t Hlm Ht Hsingle Hrd | dm le de rest Hlm Ht He Hle Hrd];
    unfold _get_video_filepath;
    rewrite (bind_Ok _ _ _ _ _ (py_getitem_ref _ _ _ _ _ Hlm Ht)).
  - rewrite Hsingle.
    assert (Hin : (let* requested_downloads := py_getitem (VRef lm) "requested_downloads" in
                   _get_requested_video requested_downloads) w
                  = _get_requested_video rd w)
      by now rewrite (bind_Ok _ _ _ _ _ (py_getitem_ref _ _ _ _ _ Hlm Hrd)).
    unfold bind at 1. rewrite Hin. reflexivity.
  - change (py_eq_str (VStr _PLAYLIST_TYPE) _PLAYLIST_TYPE) with true. cbv iota.
    assert (Hin : (let* entries := py_getitem (VRef lm) "entries" in
                   let* entry := py_index0 entries in
                   let* requested_downloads := py_getitem entry "requested_downloads" in
                   _get_requested_video requested_downloads) w
                  = _get_requested_video rd w).
    { rewrite (bind_Ok _ _ _ _ _ (py_getitem_ref _ _ _ _ _ Hlm He)).
      rewrite (bind_Ok _ _ _ _ _
                 (eq_refl : py_index0 (VList (VRef le :: rest)) w = (Ok (VRef le), w))).
      now rewrite (bind_Ok _ _ _ _ _ (py_getitem_ref _ _ _ _ _ Hle Hrd)). }
    unfold bind at 1. rewrite Hin. reflexivity.
Qed.

Lemma canonical_document_truthy h lm rd :
  canonical_downloads h lm rd -> py_truthy h (VRef lm) = true.
Proof.
  intros H. cbn [py_truthy].
  assert (Hne : size (deref h lm) <> 0%nat).
  { destruct H as [dm t Hlm Ht _ _ | dm le de rest Hlm Ht _ _ _];
      rewrite (deref_Some _ _ _ Hlm); eapply map_size_ne_0_lookup_2; rewrite Ht; eauto. }
  destruct (Nat.eqb_spec (size (deref h lm)) 0); [contradiction | reflexivity].
Qed.

(** Without a descriptor the video is not built, and nothing changes. *)
Lemma video_dto_no_descriptor w lm items c dst custom :
  canonical_downloads (heap w) lm (VList items) ->
  Forall (audio_descriptor (heap w)) items ->
  Forall (settled_descriptor (heap w)) items ->
  exists e, _create_video_dto (VRef lm) c dst custom w = (Raise e, w).
Proof.
  intros Hdoc Haudio Hsettled. exists TypeError.
  unfold _create_video_dto, _get_video_filename.
  apply bind_Raise. apply bind_Raise.
  rewrite (filepath_canonical _ _ _ Hdoc).
  rewrite (bind_Ok _ _ _ _ _ (requested_video_none _ _ Haudio Hsettled)).
  reflexivity.
Qed.

(** C5, as the code has it. When neither pass yields a descriptor, a
    VIDEO download fails: the driver creates the staging directory before
    resolution starts, resolution raises without relocating a file, the
    staging directory is removed again and then the scratch directory, and
    the error reaches the caller; no staging directory remains and the
    document is as it was. *)
Theorem no_descriptor_download_fails w lm items custom file files :
  canonical_downloads (heap w) lm (VList items) ->
  Forall (audio_descriptor (heap w)) items ->
  Forall (settled_descriptor (heap w)) items ->
  scratch w = Some (file :: files) ->
  staging w = None ->
  exists e w',
    download VIDEO (VRef lm) custom w = (Raise e, w')
    /\ trace w' = trace w ++ [EvMkdir StagingDir; EvRemoveDir StagingDir;
                              EvRemoveDir ScratchDir]
    /\ staging w' = None
    /\ heap w' = heap w.
Proof.
  intros Hdoc Haudio Hsettled Hsc Hst.
  set (w1 := emit (EvMkdir StagingDir) (set_staging (Some []) w)).
  destruct (video_dto_no_descriptor w1 lm items ScratchDir StagingDir custom
              Hdoc Haudio Hsettled) as [e Hv].
  exists e. eexists. split.
  - unfold download, try_except, _download, with_tmp_dir.
    unfold bind at 1. cbn [get_world].
    rewrite (canonical_document_truthy _ _ _ Hdoc). cbn [negb]. rewrite Hsc.
    unfold bind at 1. unfold mkdir. rewrite Hst. fold w1.
    unfold _create_media_dtos.
    rewrite (bind_Raise _ _ _ _ _
               (bind_Raise _ _ _ _ _ (create_dto_Raise_staging _ _ _ _ _ _ _ Hv))).
    reflexivity.
  - cbn [trace staging heap emit set_staging set_scratch].
    split; [| split; reflexivity].
    unfold w1. cbn [trace emit set_staging]. now rewrite <- !app_assoc.
Qed.

(** *** Frame: what keeps the objects of the caller *)

Lemma pure_op_heap_stable {A} (m : M A) : pure_op m -> heap_stable m.
Proof. intros Hm w r w' H. now rewrite (Hm _ _ _ H). Qed.

Lemma pure_py_getitem v key : pure_op (py_getitem v key).
Proof.
  intros w r w' H. unfold py_getitem in H.
  destruct v; try (now injection H as _ <-).
  destruct (deref (heap w) l !! key); now injection H as _ <-.
Qed.

Lemma pure_py_get v key dflt : pure_op (py_get v key dflt).
Proof. intros w r w' H. unfold py_get in H. destruct v; now injection H as _ <-. Qed.

Lemma pure_py_rsplit_last v sep : pure_op (py_rsplit_last v sep).
Proof. intros w r w' H. unfold py_rsplit_last in H. destruct v; now injection H as _ <-. Qed.

Lemma pure_py_len v : pure_op (py_len v).
Proof. intros w r w' H. unfold py_len in H. destruct v; now injection H as _ <-. Qed.

Lemma pure_py_index0 v : pure_op (py_index0 v).
Proof.
  intros w r w' H. unfold py_index0 in H.
  destruct v as [| | | | [|] | [|] |]; now injection H as _ <-.
Qed.

Lemma pure_to_float v : pure_op (_to_float v).
Proof. intros w r w' H. rewrite to_float_world in H. now injection H as _ <-. Qed.

Lemma keeps_stable h0 {A} (m : M A) : heap_stable m -> keeps h0 m.
Proof. intros Hm w r w' Hsub H. now rewrite (Hm _ _ _ H). Qed.

Lemma keeps_bind h0 {A B} (m : M A) (k : A -> M B) (P : A -> Prop) :
  keeps h0 m ->
  (forall w a w1, h0 ⊆ heap w -> m w = (Ok a, w1) -> P a) ->
  (forall a, P a -> keeps h0 (k a)) ->
  keeps h0 (bind m k).
Proof.
  intros Hm HP Hk w r w' Hsub H. unfold bind in H.
  destruct (m w) as [[a|e] w1] eqn:E.
  - exact (Hk a (HP _ _ _ Hsub E) _ _ _ (Hm _ _ _ Hsub E) H).
  - injection H as _ <-. exact (Hm _ _ _ Hsub E).
Qed.

Lemma keeps_bind_any h0 {A B} (m : M A) (k : A -> M B) :
  keeps h0 m -> (forall a, keeps h0 (k a)) -> keeps h0 (bind m k).
Proof. intros Hm Hk. apply (keeps_bind h0 m k (fun _ => True)); auto. Qed.

Lemma audio_descriptor_weaken (h h' : gmap loc (gmap string pyval)) v :
  h ⊆ h' -> audio_descriptor h v -> audio_descriptor h' v.
Proof.
  intros Hsub (l & d & -> & Hl & Hext). exists l, d.
  split; [reflexivity | split; [exact (lookup_weaken _ _ _ _ Hl Hsub) | exact Hext]].
Qed.

Lemma canonical_downloads_weaken (h h' : gmap loc (gmap string pyval)) lm rd :
  h ⊆ h' -> canonical_downloads h lm rd -> canonical_downloads h' lm rd.
Proof.
  intros Hsub [dm t Hlm Ht Hsingle Hrd | dm le de rest Hlm Ht He Hle Hrd].
  - exact (canonical_single _ _ _ dm t (lookup_weaken _ _ _ _ Hlm Hsub) Ht Hsingle Hrd).
  - exact (canonical_playlist _ _ _ dm le de rest (lookup_weaken _ _ _ _ Hlm Hsub) Ht He
             (lookup_weaken _ _ _ _ Hle Hsub) Hrd).
Qed.

(** The fallback pass writes to the copy it has just made, and to nothing
    else. *)
Lemma fallback_pass_grows items w r w' :
  fallback_pass items w = (r, w') -> heap w ⊆ heap w'.
Proof.
  induction items as [| item rest IH]; cbn [fallback_pass]; intros H.
  - injection H as _ <-. reflexivity.
  - unfold bind at 1 in H.
    destruct (py_getitem item "ext" w) as [[ext | e] w1] eqn:E1;
      pose proof (pure_py_getitem _ _ _ _ _ E1) as ->;
      [| injection H as _ <-; reflexivity].
    apply py_getitem_inv in E1 as (_ & l & d & -> & Hl & _).
    unfold bind at 1 in H.
    destruct (py_getitem (VRef l) "_filename" w) as [[internal | e] w1] eqn:E2;
      pose proof (pure_py_getitem _ _ _ _ _ E2) as ->;
      [| injection H as _ <-; reflexivity].
    unfold bind at 1 in H.
    destruct (py_rsplit_last internal "." w) as [[actual | e] w1] eqn:E3;
      pose proof (pure_py_rsplit_last _ _ _ _ _ E3) as ->;
      [| injection H as _ <-; reflexivity].
    destruct (py_ne_str ext actual); [| exact (IH H)].
    rewrite (bind_Ok _ _ _ _ _ (py_copy_ref _ _ _ Hl)) in H.
    set (l' := fresh (dom (heap w))) in *.
    set (w1 := set_heap (<[l' := d]> (heap w)) w) in *.
    assert (Hsub1 : heap w ⊆ heap w1) by (apply insert_subseteq, fresh_loc_unused).
    assert (Hl' : heap w1 !! l' = Some d) by apply lookup_insert_eq.
    unfold bind at 1 in H.
    destruct (py_getitem (VRef l') "filepath" w1) as [[old | e] w2] eqn:E4;
      pose proof (pure_py_getitem _ _ _ _ _ E4) as ->;
      [| injection H as _ <-; exact Hsub1].
    unfold bind at 1 in H.
    destruct (py_getitem (VRef l') "_filename" w1) as [[name | e] w2] eqn:E5;
      pose proof (pure_py_getitem _ _ _ _ _ E5) as ->;
      [| injection H as _ <-; exact Hsub1].
    unfold bind at 1 in H. rewrite E5 in H.
    rewrite (bind_Ok _ _ _ _ _ (py_get_ref _ _ _ "filename" _ Hl')) in H.
    rewrite (bind_Ok _ _ _ _ _ (py_setitem_ref _ _ _ _ _ Hl')) in H.
    injection H as _ <-. cbn [heap set_heap w1].
    rewrite insert_insert_eq. apply insert_subseteq, fresh_loc_unused.
Qed.

Lemma keeps_requested_video h0 items :
  Forall (audio_descriptor h0) items -> keeps h0 (_get_requested_video (VList items)).
Proof.
  intros Haudio w r w' Hsub H. unfold _get_requested_video in H.
  unfold bind at 1 in H. cbn [py_iter] in H.
  assert (Haudio' : Forall (audio_descriptor (heap w)) items).
  { eapply Forall_impl; [exact Haudio |]. intros v. now apply audio_descriptor_weaken. }
  rewrite (bind_Ok _ _ _ _ _ (primary_pass_none _ _ Haudio')) in H.
  unfold bind at 1 in H. cbn [py_iter] in H.
  unfold bind in H. destruct (fallback_pass items w) as [[found | e] w1] eqn:E.
  - injection H as _ <-. etransitivity; [exact Hsub | exact (fallback_pass_grows _ _ _ _ E)].
  - injection H as _ <-. etransitivity; [exact Hsub | exact (fallback_pass_grows _ _ _ _ E)].
Qed.

Lemma keeps_video_filepath h0 lm items :
  canonical_downloads h0 lm (VList items) ->
  Forall (audio_descriptor h0) items ->
  keeps h0 (_get_video_filepath (VRef lm)).
Proof.
  intros Hdoc Haudio w r w' Hsub H.
  rewrite (filepath_canonical _ _ _ (canonical_downloads_weaken _ _ _ _ Hsub Hdoc)) in H.
  revert H. apply keeps_bind_any; [exact (keeps_requested_video _ _ Haudio) | | exact Hsub].
  intros rv. apply keeps_stable, heap_stable_try;
    [apply heap_stable_py_getitem | intros; apply heap_stable_raise].
Qed.

(** The video context of a canonical document is computed from the
    selected descriptor by steps that leave the heap alone. *)
Lemma context_canonical w lm rd :
  canonical_downloads (heap w) lm rd ->
  exists k : pyval -> M (pyval * pyval * pyval),
    (forall rv, heap_stable (k rv))
    /\ _get_video_context (VRef lm) w = bind (_get_requested_video rd) k w.
Proof.
  intros [dm t Hlm Ht Hsingle Hrd | dm le de rest Hlm Ht He Hle Hrd].
  - eexists. split; [| unfold _get_video_context;
      rewrite (bind_Ok _ _ _ _ _ (py_getitem_ref _ _ _ _ _ Hlm Ht)), Hsingle;
      rewrite (bind_Ok _ _ _ _ _ (py_getitem_ref _ _ _ _ _ Hlm Hrd)); reflexivity].
    intros rv. cbv beta.
    repeat (first [ apply pure_op_heap_stable, pure_py_get
                  | apply pure_op_heap_stable, pure_to_float
                  | apply heap_stable_ret | apply heap_stable_bind
                  | match goal with |- forall _, _ => intro end ]).
  - eexists. split; [| unfold _get_video_context;
      rewrite (bind_Ok _ _ _ _ _ (py_getitem_ref _ _ _ _ _ Hlm Ht));
      change (py_eq_str (VStr _PLAYLIST_TYPE) _PLAYLIST_TYPE) with true; cbv iota;
      rewrite (bind_Ok _ _ _ _ _ (py_getitem_ref _ _ _ _ _ Hlm He));
      unfold bind at 1; cbn [py_len List.length];
      replace (Z.of_nat (S (List.length rest)) =? 0) with false
        by (symmetry; apply Z.eqb_neq; lia);
      rewrite (bind_Ok _ _ _ _ _ (py_getitem_ref _ _ _ _ _ Hlm He));
      unfold bind at 1; cbn [py_index0];
      rewrite (bind_Ok _ _ _ _ _ (py_getitem_ref _ _ _ _ _ Hle Hrd)); reflexivity].
    intros rv. cbv beta.
    repeat (first [ apply pure_op_heap_stable, pure_py_get
                  | apply pure_op_heap_stable, pure_to_float
                  | apply heap_stable_ret | apply heap_stable_bind
                  | match goal with |- forall _, _ => intro end ]).
Qed.

Lemma keeps_video_context h0 lm items :
  canonical_downloads h0 lm (VList items) ->
  Forall (audio_descriptor h0) items ->
  keeps h0 (_get_video_context (VRef lm)).
Proof.
  intros Hdoc Haudio w r w' Hsub H.
  destruct (context_canonical w lm _ (canonical_downloads_weaken _ _ _ _ Hsub Hdoc))
    as (k & Hk & Heq).
  rewrite Heq in H. revert H.
  apply keeps_bind_any; [exact (keeps_requested_video _ _ Haudio) | | exact Hsub].
  intros rv. apply keeps_stable, Hk.
Qed.

(** When every descriptor has the audio extension, building the video
    leaves every object of the caller as it was, whatever the outcome. *)
Lemma keeps_video_dto h0 lm items c dst custom :
  canonical_downloads h0 lm (VList items) ->
  Forall (audio_descriptor h0) items ->
  keeps h0 (_create_video_dto (VRef lm) c dst custom).
Proof.
  intros Hdoc Haudio. unfold _create_video_dto, _get_video_filename.
  apply keeps_bind_any.
  { apply keeps_bind_any; [exact (keeps_video_filepath _ _ _ Hdoc Haudio) |].
    intros p. apply keeps_stable, pure_op_heap_stable, pure_py_rsplit_last. }
  intros video_filename. cbv zeta.
  apply keeps_bind_any; [apply keeps_stable, heap_stable_shutil_move |]. intros _.
  apply keeps_bind_any; [apply keeps_stable, heap_stable_find |]. intros thumb_name.
  apply keeps_bind_any.
  { apply keeps_stable. destruct thumb_name; heap_frame. }
  intros thumb_path.
  apply keeps_bind_any; [exact (keeps_video_context _ _ _ Hdoc Haudio) |].
  intros [[duration width] height]. apply keeps_stable. heap_frame.
Qed.

(** C6, as the code has it. When every descriptor has the audio
    extension, so that the primary pass finds nothing, and the first
    descriptor whose declared extension differs from the actual extension
    of its internal filename carries a [filepath] key: the selection
    returns a new object, a copy of that descriptor in all but its
    filepath, and every object of the caller's heap, the descriptor
    included, is as it was; and so it is after the whole video resolution
    of a document with these requested downloads, whatever its outcome. *)
Theorem fallback_pass_returns_copy w pre l d post ext name old :
  Forall (audio_descriptor (heap w)) (pre ++ VRef l :: post) ->
  Forall (settled_descriptor (heap w)) pre ->
  heap w !! l = Some d ->
  d !! "ext" = Some ext ->
  d !! "_filename" = Some (VStr name) ->
  py_ne_str ext (actual_extension name) = true ->
  d !! "filepath" = Some old ->
  (exists l' d' w',
     _get_requested_video (VList (pre ++ VRef l :: post)) w = (Ok (VRef l'), w')
     /\ heap w !! l' = None
     /\ heap w' !! l' = Some d'
     /\ (forall key, key <> "filepath" -> d' !! key = d !! key)
     /\ (forall x dx, heap w !! x = Some dx -> heap w' !! x = Some dx)
     /\ (scratch w', staging w', trace w') = (scratch w, staging w, trace w))
  /\ (forall lm c dst custom r w',
        canonical_downloads (heap w) lm (VList (pre ++ VRef l :: post)) ->
        _create_video_dto (VRef lm) c dst custom w = (r, w') ->
        forall x dx, heap w !! x = Some dx -> heap w' !! x = Some dx).
Proof.
  intros Haudio Hpre Hl Hext Hname Hlag Hold. split.
  - set (l' := fresh (dom (heap w))).
    exists l', (<["filepath" := replaced_filepath d (VStr name)]> d). eexists.
    split.
    + unfold _get_requested_video.
      unfold bind at 1. cbn [py_iter].
      rewrite (bind_Ok _ _ _ _ _ (primary_pass_none _ _ Haudio)).
      unfold bind at 1. cbn [py_iter].
      unfold bind at 1. rewrite (fallback_pass_skip _ _ _ Hpre).
      rewrite (fallback_pass_hit _ _ _ _ _ _ _ Hl Hext Hname Hlag Hold).
      reflexivity.
    + cbn [heap set_heap scratch staging trace].
      split; [apply fresh_loc_unused | split; [apply lookup_insert_eq | split; [| split]]].
      * intros key Hkey. now rewrite lookup_insert_ne.
      * intros x dx Hx. rewrite lookup_insert_ne; [exact Hx |].
        intros <-. subst l'. rewrite fresh_loc_unused in Hx. discriminate.
      * reflexivity.
  - intros lm c dst custom r w' Hdoc Hrun x dx Hx.
    pose proof (keeps_video_dto (heap w) lm _ c dst custom Hdoc Haudio
                  w r w' (reflexivity _) Hrun) as Hsub.
    exact (lookup_weaken _ _ _ _ Hx Hsub).
Qed.

(** *** The playlist shape *)

Lemma bind_assoc {A B C} (m : M A) (k : A -> M B) (k' : B -> M C) w :
  bind (bind m k) k' w = bind m (fun a => bind (k a) k') w.
Proof. unfold bind. destruct (m w) as [[a | e] w1]; reflexivity. Qed.

Lemma bind_head {A B} (m1 m2 : M A) (k : A -> M B) w :
  m1 w = m2 w -> bind m1 k w = bind m2 k w.
Proof. intros H. unfold bind. now rewrite H. Qed.

Lemma py_get_inv v key dflt w x w' :
  py_get v key dflt w = (Ok x, w') -> exists l, v = VRef l.
Proof. unfold py_get. destruct v; try discriminate. eauto. Qed.

(** The primary pass either leaves the state alone or has written the
    [filepath] of the object it returns. *)
Lemma primary_pass_effect items w r w' :
  primary_pass items w = (r, w') ->
  w' = w
  \/ exists l v, r = Ok (Some (VRef l))
                 /\ w' = set_heap (<[l := <["filepath" := v]> (deref (heap w) l)]> (heap w)) w.
Proof.
  induction items as [| item rest IH]; cbn [primary_pass]; intros H.
  - injection H as _ <-. now left.
  - unfold bind at 1 in H.
    destruct (py_get item "ext" (VStr "") w) as [[ext | e] w1] eqn:E1;
      pose proof (pure_py_get _ _ _ _ _ _ E1) as ->;
      [| injection H as _ <-; now left].
    apply py_get_inv in E1 as [l ->].
    destruct (py_ne_str ext FINAL_AUDIO_FORMAT); [| exact (IH H)].
    unfold bind at 1 in H.
    destruct (py_getitem (VRef l) "_filename" w) as [[internal | e] w1] eqn:E2;
      pose proof (pure_py_getitem _ _ _ _ _ E2) as ->;
      [| injection H as _ <-; now left].
    unfold bind at 1 in H. cbn [py_get] in H.
    unfold bind at 1 in H. cbn [py_get] in H.
    unfold bind at 1 in H. cbn [py_setitem] in H.
    injection H as <- <-. right. eauto.
Qed.

(** The selection changes no field of an existing object but
    [filepath]. *)
Lemma requested_video_fields rd w r w' x dx key :
  _get_requested_video rd w = (r, w') ->
  heap w !! x = Some dx ->
  key <> "filepath" ->
  deref (heap w') x !! key = dx !! key.
Proof.
  unfold _get_requested_video. intros H Hx Hkey.
  assert (Hiter : forall w0 r0 w0', py_iter rd w0 = (r0, w0') -> w0' = w0).
  { intros w0 r0 w0' Hi. unfold py_iter in Hi. destruct rd; now injection Hi as _ <-. }
  unfold bind at 1 in H.
  destruct (py_iter rd w) as [[items | e] w0] eqn:E0; pose proof (Hiter _ _ _ E0) as ->;
    [| injection H as _ <-; now rewrite (deref_Some _ _ _ Hx)].
  unfold bind at 1 in H.
  destruct (primary_pass items w) as [[found | e] w1] eqn:E1.
  - destruct (primary_pass_effect _ _ _ _ E1) as [-> | (l & v & [= ->] & ->)].
    + destruct found as [download_obj |].
      * injection H as _ <-. now rewrite (deref_Some _ _ _ Hx).
      * unfold bind at 1 in H. rewrite E0 in H.
        unfold bind in H. destruct (fallback_pass items w) as [[found2 | e] w2] eqn:E2;
          injection H as _ <-;
          now rewrite (deref_Some _ _ _
                         (lookup_weaken _ _ _ _ Hx (fallback_pass_grows _ _ _ _ E2))).
    + injection H as _ <-. cbn [heap set_heap].
      destruct (decide (l = x)) as [-> | Hne].
      * rewrite (deref_Some _ x _ (lookup_insert_eq _ _ _)).
        rewrite lookup_insert_ne by congruence. now rewrite (deref_Some _ _ _ Hx).
      * rewrite (deref_Some _ x dx); [reflexivity |].
        now rewrite lookup_insert_ne.
  - injection H as _ <-.
    destruct (primary_pass_effect _ _ _ _ E1) as [-> | (l & v & [=] & _)].
    now rewrite (deref_Some _ _ _ Hx).
Qed.

Lemma py_getitem_same_field w l1 d1 l2 d2 key :
  heap w !! l1 = Some d1 -> heap w !! l2 = Some d2 -> d1 !! key = d2 !! key ->
  py_getitem (VRef l1) key w = py_getitem (VRef l2) key w.
Proof.
  intros H1 H2 Heq. unfold py_getitem.
  now rewrite (deref_Some _ _ _ H1), (deref_Some _ _ _ H2), Heq.
Qed.

Lemma filepath_playlist_built_from w l d le rest ls :
  heap w !! l = Some d ->
  d !! "_type" = Some (VStr "playlist") ->
  d !! "entries" = Some (VList (VRef le :: rest)) ->
  built_from (heap w) ls le ->
  _get_video_filepath (VRef l) w = _get_video_filepath (VRef ls) w.
Proof.
  intros Hl Ht He (ds & de & Hls & Hle & (ds' & t & Hls' & Hts & Hsingle) & Hrd & _).
  rewrite Hls in Hls'. injection Hls' as <-.
  unfold _get_video_filepath.
  rewrite (bind_Ok _ _ _ _ _ (py_getitem_ref _ _ _ _ _ Hl Ht)).
  rewrite (bind_Ok _ _ _ _ _ (py_getitem_ref _ _ _ _ _ Hls Hts)).
  rewrite Hsingle. change (py_eq_str (VStr "playlist") _PLAYLIST_TYPE) with true. cbv iota.
  rewrite !bind_assoc.
  rewrite (bind_Ok _ _ _ _ _ (py_getitem_ref _ _ _ _ _ Hl He)).
  rewrite bind_assoc.
  rewrite (bind_Ok _ _ _ _ _
             (eq_refl : py_index0 (VList (VRef le :: rest)) w = (Ok (VRef le), w))).
  rewrite bind_assoc. apply bind_head.
  exact (py_getitem_same_field _ _ _ _ _ _ Hle Hls (eq_sym Hrd)).
Qed.

Lemma bind_cong {A B} (m1 m2 : M A) (k1 k2 : A -> M B) w :
  m1 w = m2 w ->
  (forall a w1, m1 w = (Ok a, w1) -> k1 a w1 = k2 a w1) ->
  bind m1 k1 w = bind m2 k2 w.
Proof.
  intros Hm Hk. unfold bind. rewrite <- Hm.
  destruct (m1 w) as [[a | e] w1]; [now apply Hk | reflexivity].
Qed.

Lemma context_of_entry_built_from w ls le :
  built_from (heap w) ls le ->
  context_of_entry (VRef le) w = context_of_entry (VRef ls) w.
Proof.
  intros (ds & de & Hls & Hle & _ & Hrd & Hdur). unfold context_of_entry.
  apply bind_cong; [exact (py_getitem_same_field _ _ _ _ _ _ Hle Hls (eq_sym Hrd)) |].
  intros rd w0 E0. pose proof (pure_py_getitem _ _ _ _ _ E0) as ->.
  apply bind_cong; [reflexivity |].
  intros rv w1 E1.
  apply bind_cong; [| reflexivity].
  cbn [py_get].
  rewrite (requested_video_fields _ _ _ _ le de "duration" E1 Hle) by discriminate.
  rewrite (requested_video_fields _ _ _ _ ls ds "duration" E1 Hls) by discriminate.
  now rewrite Hdur.
Qed.

Lemma context_playlist_built_from w l d le rest ls :
  heap w !! l = Some d ->
  d !! "_type" = Some (VStr "playlist") ->
  d !! "entries" = Some (VList (VRef le :: rest)) ->
  built_from (heap w) ls le ->
  _get_video_context (VRef l) w = _get_video_context (VRef ls) w.
Proof.
  intros Hl Ht He Hb.
  assert (Hplaylist : _get_video_context (VRef l) w = context_of_entry (VRef le) w).
  { unfold _get_video_context.
    rewrite (bind_Ok _ _ _ _ _ (py_getitem_ref _ _ _ _ _ Hl Ht)).
    change (py_eq_str (VStr "playlist") _PLAYLIST_TYPE) with true. cbv iota.
    rewrite (bind_Ok _ _ _ _ _ (py_getitem_ref _ _ _ _ _ Hl He)).
    unfold bind at 1. cbn [py_len List.length].
    replace (Z.of_nat (S (List.length rest)) =? 0) with false
      by (symmetry; apply Z.eqb_neq; lia).
    rewrite (bind_Ok _ _ _ _ _ (py_getitem_ref _ _ _ _ _ Hl He)).
    unfold bind at 1. cbn [py_index0]. reflexivity. }
  assert (Hsingle : _get_video_context (VRef ls) w = context_of_entry (VRef ls) w).
  { destruct Hb as (ds & de & Hls & _ & (ds' & t & Hls' & Hts & Hnp) & _).
    rewrite Hls in Hls'. injection Hls' as <-.
    unfold _get_video_context.
    rewrite (bind_Ok _ _ _ _ _ (py_getitem_ref _ _ _ _ _ Hls Hts)).
    rewrite Hnp. reflexivity. }
  rewrite Hplaylist, Hsingle. exact (context_of_entry_built_from _ _ _ Hb).
Qed.

(** An entry that is itself a single-item document is built from
    itself. *)
Lemma built_from_self h le : single_item h le -> built_from h le le.
Proof.
  intros (de & t & Hle & Ht & Hsingle). exists de, de.
  split; [exact Hle | split; [exact Hle | split; [| split; reflexivity]]].
  exists de, t. auto.
Qed.

(** C9. For a playlist-shaped document with exactly one entry and a
    single-item document built from that entry (the entry itself, when it
    is one), video resolution derives the same filepath, the same filename
    and the same context (duration, width, height) from both, with the
    same effect on the state. *)
Theorem playlist_single_entry_as_single_item w l d le ls :
  heap w !! l = Some d ->
  d !! "_type" = Some (VStr "playlist") ->
  d !! "entries" = Some (VList [VRef le]) ->
  built_from (heap w) ls le \/ (ls = le /\ single_item (heap w) le) ->
  _get_video_filepath (VRef l) w = _get_video_filepath (VRef ls) w
  /\ _get_video_filename (VRef l) w = _get_video_filename (VRef ls) w
  /\ _get_video_context (VRef l) w = _get_video_context (VRef ls) w.
Proof.
  intros Hl Ht He Hs.
  assert (Hb : built_from (heap w) ls le).
  { destruct Hs as [Hb | [-> Hsi]]; [exact Hb | exact (built_from_self _ _ Hsi)]. }
  pose proof (filepath_playlist_built_from _ _ _ _ _ _ Hl Ht He Hb) as Hfp.
  split; [exact Hfp | split].
  - unfold _get_video_filename, bind. now rewrite Hfp.
  - exact (context_playlist_built_from _ _ _ _ _ _ Hl Ht He Hb).
Qed.

(** *** Building the audio *)

Lemma glob_no_match extension w sfiles :
  scratch w = Some sfiles ->
  (forall name, In name sfiles.*1 -> glob_match extension name = false) ->
  glob extension ScratchDir w = [].
Proof.
  intros Hsc Hno. unfold glob. rewrite Hsc.
  change (default [] (Some sfiles)) with sfiles.
  induction (sfiles.*1) as [| n ns IH]; [reflexivity |].
  cbn [List.filter]. rewrite (Hno n (or_introl eq_refl)).
  apply IH. intros name Hin. apply Hno. now right.
Qed.

Lemma audio_dto_duration meta c dst custom w a w' :
  _create_audio_dto meta c dst custom w = (Ok a, w') -> audio_duration a = VNone.
Proof.
  unfold _create_audio_dto. intros H.
  do 6 (apply bind_inv_Ok in H as (? & ? & _ & H)).
  injection H as <- _. reflexivity.
Qed.

(** C8, as the code has it. Audio resolution searches the scratch
    directory for a name the pattern of the audio extension matches and
    takes the first; when there is none the filename is [None], and
    joining it to the scratch path raises [TypeError] before any
    relocation is attempted, so that nothing has changed when the error
    propagates; and every [Audio] returned has the duration [None]. *)
Theorem audio_resolution meta dst custom w sfiles :
  scratch w = Some sfiles ->
  simple_listing sfiles ->
  _find_downloaded_file ScratchDir FINAL_AUDIO_FORMAT w
  = (Ok (List.head (glob FINAL_AUDIO_FORMAT ScratchDir w)), w)
  /\ (forall name, List.head (glob FINAL_AUDIO_FORMAT ScratchDir w) = Some name ->
                   In name sfiles.*1 /\ glob_match FINAL_AUDIO_FORMAT name = true)
  /\ ((forall name, In name sfiles.*1 -> glob_match FINAL_AUDIO_FORMAT name = false) ->
      _create_audio_dto meta ScratchDir dst custom w = (Raise TypeError, w))
  /\ (forall a w', _create_audio_dto meta ScratchDir dst custom w = (Ok a, w') ->
                   audio_duration a = VNone).
Proof.
  intros Hsc Hsimple.
  pose proof (find_downloaded_file_result _ _ _ (or_introl eq_refl) Hsc Hsimple) as Hfind.
  split; [exact Hfind | split; [| split]].
  - intros name Hhead.
    destruct (glob FINAL_AUDIO_FORMAT ScratchDir w) as [| n rest] eqn:Hg; [discriminate |].
    injection Hhead as ->. exact (glob_head_in _ _ _ _ _ Hsc Hg).
  - intros Hno. unfold _create_audio_dto.
    rewrite (bind_Ok _ _ _ _ _ Hfind), (glob_no_match _ _ _ Hsc Hno). reflexivity.
  - intros a w'. apply audio_dto_duration.
Qed.

(** ** Further properties of the downloader *)

(** *** Frame: what leaves the directories alone *)

Lemma fs_stable_pure {A} (m : M A) : pure_op m -> fs_stable m.
Proof. intros Hm w r w' H. now rewrite (Hm _ _ _ H). Qed.

Lemma fs_stable_ret {A} (a : A) : fs_stable (ret a).
Proof. intros w r w' H. injection H as _ <-. auto. Qed.

Lemma fs_stable_raise {A} e : fs_stable (@raise A e).
Proof. intros w r w' H. injection H as _ <-. auto. Qed.

Lemma fs_stable_bind {A B} (m : M A) (k : A -> M B) :
  fs_stable m -> (forall a, fs_stable (k a)) -> fs_stable (bind m k).
Proof.
  intros Hm Hk w r w' H. unfold bind in H.
  destruct (m w) as [[a | e] w1] eqn:E.
  - destruct (Hm _ _ _ E) as (H1 & H2 & H3). destruct (Hk _ _ _ _ H) as (H4 & H5 & H6).
    repeat split; congruence.
  - injection H as _ <-. exact (Hm _ _ _ E).
Qed.

Lemma fs_stable_try {A} (m : M A) handles h :
  fs_stable m -> (forall e, fs_stable (h e)) -> fs_stable (try_except m handles h).
Proof.
  intros Hm Hh w r w' H. unfold try_except in H.
  destruct (m w) as [[a | e] w1] eqn:E.
  - injection H as _ <-. exact (Hm _ _ _ E).
  - destruct (handles e).
    + destruct (Hm _ _ _ E) as (H1 & H2 & H3). destruct (Hh _ _ _ _ H) as (H4 & H5 & H6).
      repeat split; congruence.
    + injection H as _ <-. exact (Hm _ _ _ E).
Qed.

Lemma fs_stable_py_setitem v key x : fs_stable (py_setitem v key x).
Proof. intros w r w' H. unfold py_setitem in H. destruct v; injection H as _ <-; auto. Qed.

Lemma fs_stable_py_copy v : fs_stable (py_copy v).
Proof. intros w r w' H. unfold py_copy in H. destruct v; injection H as _ <-; auto. Qed.

Lemma pure_py_iter v : pure_op (py_iter v).
Proof. intros w r w' H. unfold py_iter in H. destruct v; now injection H as _ <-. Qed.

Ltac fs_frame :=
  repeat (first [ apply fs_stable_ret | apply fs_stable_raise
                | apply fs_stable_py_setitem | apply fs_stable_py_copy
                | apply fs_stable_pure, pure_py_getitem
                | apply fs_stable_pure, pure_py_get
                | apply fs_stable_pure, pure_py_rsplit_last
                | apply fs_stable_pure, pure_py_len
                | apply fs_stable_pure, pure_py_index0
                | apply fs_stable_pure, pure_py_iter
                | apply fs_stable_pure, pure_to_float
                | apply fs_stable_bind
                | match goal with |- forall _, _ => intro end ]).

Lemma fs_stable_primary_pass items : fs_stable (primary_pass items).
Proof.
  induction items as [| item rest IH]; cbn [primary_pass]; [apply fs_stable_ret |].
  apply fs_stable_bind; [apply fs_stable_pure, pure_py_get |]. intros ext.
  destruct (py_ne_str ext FINAL_AUDIO_FORMAT); [fs_frame | exact IH].
Qed.

Lemma fs_stable_fallback_pass items : fs_stable (fallback_pass items).
Proof.
  induction items as [| item rest IH]; cbn [fallback_pass]; [apply fs_stable_ret |].
  apply fs_stable_bind; [apply fs_stable_pure, pure_py_getitem |]. intros ext.
  apply fs_stable_bind; [apply fs_stable_pure, pure_py_getitem |]. intros internal.
  apply fs_stable_bind; [apply fs_stable_pure, pure_py_rsplit_last |]. intros actual.
  destruct (py_ne_str ext actual); [fs_frame | exact IH].
Qed.

Lemma fs_stable_requested_video rd : fs_stable (_get_requested_video rd).
Proof.
  unfold _get_requested_video.
  apply fs_stable_bind; [apply fs_stable_pure, pure_py_iter |]. intros items.
  apply fs_stable_bind; [apply fs_stable_primary_pass |]. intros [found |]; [apply fs_stable_ret |].
  apply fs_stable_bind; [apply fs_stable_pure, pure_py_iter |]. intros items2.
  apply fs_stable_bind; [apply fs_stable_fallback_pass |]. intros found2. apply fs_stable_ret.
Qed.

Lemma fs_stable_file_size p : fs_stable (file_size p).
Proof.
  intros w r w' H. unfold file_size in H. destruct (stat p w); injection H as _ <-; auto.
Qed.

Ltac fs_frame_calls :=
  repeat (first [ apply fs_stable_requested_video | apply fs_stable_file_size
                | apply fs_stable_ret | apply fs_stable_raise
                | apply fs_stable_pure, pure_py_getitem
                | apply fs_stable_pure, pure_py_get
                | apply fs_stable_pure, pure_py_index0
                | apply fs_stable_pure, pure_to_float
                | apply fs_stable_bind
                | match goal with |- forall _, _ => intro end ]).

Lemma fs_stable_video_filepath meta : fs_stable (_get_video_filepath meta).
Proof.
  unfold _get_video_filepath.
  apply fs_stable_bind; [apply fs_stable_pure, pure_py_getitem |]. intros type.
  apply fs_stable_bind.
  - destruct (py_eq_str type _PLAYLIST_TYPE); fs_frame_calls.
  - intros rv. apply fs_stable_try; [apply fs_stable_pure, pure_py_getitem |].
    intros e. apply fs_stable_raise.
Qed.

Lemma fs_stable_video_filename meta : fs_stable (_get_video_filename meta).
Proof.
  unfold _get_video_filename.
  apply fs_stable_bind; [apply fs_stable_video_filepath |].
  intros p. apply fs_stable_pure, pure_py_rsplit_last.
Qed.

Lemma fs_stable_video_context meta : fs_stable (_get_video_context meta).
Proof.
  unfold _get_video_context.
  apply fs_stable_bind; [apply fs_stable_pure, pure_py_getitem |]. intros type.
  destruct (py_eq_str type _PLAYLIST_TYPE).
  - apply fs_stable_bind; [apply fs_stable_pure, pure_py_getitem |]. intros entries.
    apply fs_stable_bind; [apply fs_stable_pure, pure_py_len |]. intros n.
    destruct (n =? 0); [apply fs_stable_raise |]. fs_frame_calls.
  - fs_frame_calls.
Qed.

(** *** What keeps the staging directory *)

Lemma staging_kept_fs_stable {A} (m : M A) : fs_stable m -> staging_kept m.
Proof. intros Hm w r w' H Hs. destruct (Hm _ _ _ H) as (_ & H2 & _). now rewrite H2. Qed.

Lemma staging_kept_bind {A B} (m : M A) (k : A -> M B) :
  staging_kept m -> (forall a, staging_kept (k a)) -> staging_kept (bind m k).
Proof.
  intros Hm Hk w r w' H Hs. unfold bind in H.
  destruct (m w) as [[a | e] w1] eqn:E.
  - exact (Hk _ _ _ _ H (Hm _ _ _ E Hs)).
  - injection H as _ <-. exact (Hm _ _ _ E Hs).
Qed.

Lemma staging_kept_shutil_move src dst : staging_kept (shutil_move src dst).
Proof.
  intros w r w' H [files Hs]. unfold shutil_move in H.
  destruct src; try (injection H as _ <-; rewrite Hs; eauto).
  destruct dst; try (injection H as _ <-; rewrite Hs; eauto); rewrite Hs in H;
    repeat match type of H with
           | context [match ?x with _ => _ end] => destruct x
           end; injection H as _ <-; cbn; rewrite ?Hs; eauto.
Qed.

Lemma fs_stable_find root_path extension :
  fs_stable (_find_downloaded_file root_path extension).
Proof.
  unfold _find_downloaded_file, _EXT_TO_NAME.
  apply fs_stable_bind.
  - repeat match goal with |- context [if ?b then _ else _] => destruct b end;
      auto using @fs_stable_ret, @fs_stable_raise.
  - intros _. intros w r w' H. unfold bind, get_world in H.
    destruct (glob extension root_path w).
    + injection H as _ <-. auto.
    + revert H. apply (fs_stable_bind (file_size _) (fun _ => ret _)).
      * apply fs_stable_file_size.
      * intros _. apply fs_stable_ret.
Qed.

Lemma staging_kept_audio meta c dst custom :
  staging_kept (_create_audio_dto meta c dst custom).
Proof.
  unfold _create_audio_dto.
  apply staging_kept_bind; [apply staging_kept_fs_stable, fs_stable_find |]. intros name.
  apply staging_kept_bind.
  { apply staging_kept_fs_stable. destruct name; [apply fs_stable_ret | apply fs_stable_raise]. }
  intros p. apply staging_kept_bind; [apply staging_kept_shutil_move |]. intros _.
  apply staging_kept_fs_stable. unfold join_opt.
  destruct name; fs_frame_calls.
Qed.

Lemma staging_kept_video meta c dst custom :
  staging_kept (_create_video_dto meta c dst custom).
Proof.
  unfold _create_video_dto.
  apply staging_kept_bind; [apply staging_kept_fs_stable, fs_stable_video_filename |].
  intros name. cbv zeta.
  apply staging_kept_bind; [apply staging_kept_shutil_move |]. intros _.
  apply staging_kept_bind; [apply staging_kept_fs_stable, fs_stable_find |]. intros thumb.
  apply staging_kept_bind.
  { destruct thumb.
    - apply staging_kept_bind; [apply staging_kept_shutil_move |].
      intros _. apply staging_kept_fs_stable, fs_stable_ret.
    - apply staging_kept_fs_stable, fs_stable_ret. }
  intros thumb_path.
  apply staging_kept_bind; [apply staging_kept_fs_stable, fs_stable_video_context |].
  intros [[duration width] height]. apply staging_kept_fs_stable. fs_frame_calls.
Qed.

(** *** The driver *)

Lemma download_is_download media_type meta custom w :
  download media_type meta custom w = _download media_type meta custom w.
Proof.
  unfold download, try_except.
  destruct (_download media_type meta custom w) as [[m | e] w']; reflexivity.
Qed.

(** Once the extraction has produced metadata and files, and no staging
    directory of the chosen name exists, the driver creates it, hands over
    to the resolver and removes the scratch directory. *)
Lemma download_staged media_type meta custom w file files :
  py_truthy (heap w) meta = true ->
  scratch w = Some (file :: files) ->
  staging w = None ->
  download media_type meta custom w
  = let '(r, w2) := _create_media_dtos media_type meta ScratchDir StagingDir custom
                      (emit (EvMkdir StagingDir) (set_staging (Some []) w)) in
    (res_map (fun dtos => mkDownMedia media_type (fst dtos) (snd dtos) StagingDir) r,
     emit (EvRemoveDir ScratchDir) (set_scratch None w2)).
Proof.
  intros Hmeta Hsc Hst. rewrite download_is_download.
  unfold _download, with_tmp_dir.
  unfold bind at 1. cbn [get_world]. rewrite Hmeta. cbn [negb]. rewrite Hsc.
  unfold bind at 1. unfold mkdir. rewrite Hst.
  unfold bind.
  destruct (_create_media_dtos media_type meta ScratchDir StagingDir custom
              (emit (EvMkdir StagingDir) (set_staging (Some []) w))) as [[dtos | e] w2];
    reflexivity.
Qed.

Lemma download_rejects_without_output_aux media_type meta custom w :
  py_truthy (heap w) meta = false \/ scratch w = Some [] ->
  exists msg,
    download media_type meta custom w
    = (Raise (MediaDownloaderError msg), emit (EvRemoveDir ScratchDir) (set_scratch None w)).
Proof.
  intros H. rewrite download_is_download. unfold _download, with_tmp_dir.
  unfold bind at 1. cbn [get_world].
  destruct (py_truthy (heap w) meta) eqn:Hmeta; cbn [negb].
  - destruct H as [H | H]; [discriminate |]. rewrite H. eexists. reflexivity.
  - eexists. reflexivity.
Qed.

(** X1. Without metadata, or with metadata but an empty scratch directory,
    the download fails with [MediaDownloaderError]; nothing but the
    removal of the scratch directory has happened: no staging directory
    was created and the heap is as it was. *)
Theorem download_rejects_without_output media_type meta custom w :
  py_truthy (heap w) meta = false \/ scratch w = Some [] ->
  exists msg,
    download media_type meta custom w
    = (Raise (MediaDownloaderError msg), emit (EvRemoveDir ScratchDir) (set_scratch None w)).
Proof. exact (download_rejects_without_output_aux media_type meta custom w). Qed.

Lemma download_keeps_existing_staging_aux media_type meta custom w held :
  staging w = Some held ->
  exists e w',
    download media_type meta custom w = (Raise e, w')
    /\ staging w' = Some held
    /\ heap w' = heap w
    /\ trace w' = trace w ++ [EvRemoveDir ScratchDir].
Proof.
  intros Hst. rewrite download_is_download. unfold _download, with_tmp_dir.
  unfold bind at 1. cbn [get_world].
  destruct (negb (py_truthy (heap w) meta)).
  - eexists. eexists. split; [reflexivity |]. cbn. auto.
  - destruct (scratch w) as [[| file files] |].
    + eexists. eexists. split; [reflexivity |]. cbn. auto.
    + unfold bind at 1. unfold mkdir. rewrite Hst.
      eexists. eexists. split; [reflexivity |]. cbn. auto.
    + eexists. eexists. split; [reflexivity |]. cbn. auto.
Qed.

(** X2. A staging directory that exists before the call, as when the
    random name collides, is never touched: the download fails and the
    directory holds what it held. *)
Theorem download_keeps_existing_staging media_type meta custom w held :
  staging w = Some held ->
  exists e w',
    download media_type meta custom w = (Raise e, w')
    /\ staging w' = Some held
    /\ heap w' = heap w
    /\ trace w' = trace w ++ [EvRemoveDir ScratchDir].
Proof. exact (download_keeps_existing_staging_aux media_type meta custom w held). Qed.

Lemma media_dtos_failure_removes media_type meta c custom w e w' :
  media_type <> OTHER ->
  _create_media_dtos media_type meta c StagingDir custom w = (Raise e, w') ->
  staging w' = None.
Proof.
  intros Hmt H. destruct media_type; [| | | contradiction].
  - unfold _create_media_dtos, bind in H.
    destruct (create_dto _create_audio_dto meta c StagingDir custom w) as [[a | ea] w1] eqn:Ea;
      [discriminate |].
    injection H as _ <-. exact (create_dto_failure_removes _ _ _ _ _ _ _ Ea).
  - unfold _create_media_dtos, bind in H.
    destruct (create_dto _create_video_dto meta c StagingDir custom w) as [[v | ev] w1] eqn:Ev;
      [discriminate |].
    injection H as _ <-. exact (create_dto_failure_removes _ _ _ _ _ _ _ Ev).
  - exact (audio_video_failure_removes _ _ _ _ _ _ H).
Qed.

Lemma media_dtos_success_keeps media_type meta c dst custom w dtos w' :
  _create_media_dtos media_type meta c dst custom w = (Ok dtos, w') ->
  is_Some (staging w) -> is_Some (staging w').
Proof.
  intros H Hs. destruct media_type; unfold _create_media_dtos in H.
  - apply bind_inv_Ok in H as (a & w1 & Ha & H). injection H as _ <-.
    exact (staging_kept_audio _ _ _ _ _ _ _ (create_dto_inv_Ok _ _ _ _ _ _ _ _ Ha) Hs).
  - apply bind_inv_Ok in H as (v & w1 & Hv & H). injection H as _ <-.
    exact (staging_kept_video _ _ _ _ _ _ _ (create_dto_inv_Ok _ _ _ _ _ _ _ _ Hv) Hs).
  - apply bind_inv_Ok in H as (a & w1 & Ha & H).
    apply bind_inv_Ok in H as (v & w2 & Hv & H). injection H as _ <-.
    exact (staging_kept_video _ _ _ _ _ _ _ (create_dto_inv_Ok _ _ _ _ _ _ _ _ Hv)
             (staging_kept_audio _ _ _ _ _ _ _ (create_dto_inv_Ok _ _ _ _ _ _ _ _ Ha) Hs)).
  - discriminate.
Qed.

(** X3. For the three media types, a download that starts without a
    staging directory ends with one exactly when it returns a result: on
    every failure none is left behind.  The scratch directory is gone in
    either case. *)
Theorem download_staging_iff_success media_type meta custom w r w' :
  media_type <> OTHER ->
  staging w = None ->
  download media_type meta custom w = (r, w') ->
  scratch w' = None
  /\ match r with
     | Ok media => is_Some (staging w') /\ dm_root_path media = StagingDir
     | Raise _ => staging w' = None
     end.
Proof.
  intros Hmt Hst H.
  destruct (py_truthy (heap w) meta) eqn:Hmeta.
  2:{ destruct (download_rejects_without_output_aux media_type meta custom w (or_introl Hmeta))
        as [msg Hd].
      rewrite Hd in H. injection H as <- <-. split; [reflexivity | exact Hst]. }
  destruct (scratch w) as [[| file files] |] eqn:Hsc.
  - destruct (download_rejects_without_output_aux media_type meta custom w (or_intror Hsc))
      as [msg Hd].
    rewrite Hd in H. injection H as <- <-. split; [reflexivity | exact Hst].
  - rewrite (download_staged _ _ _ _ _ _ Hmeta Hsc Hst) in H.
    destruct (_create_media_dtos media_type meta ScratchDir StagingDir custom
                (emit (EvMkdir StagingDir) (set_staging (Some []) w)))
      as [[dtos | e] w2] eqn:E; injection H as <- <-; (split; [reflexivity |]).
    + split; [| reflexivity]. cbn [staging emit set_scratch].
      apply (media_dtos_success_keeps _ _ _ _ _ _ _ _ E). cbn. eauto.
    + cbn [staging emit set_scratch]. exact (media_dtos_failure_removes _ _ _ _ _ _ _ Hmt E).
  - rewrite download_is_download in H. unfold _download, with_tmp_dir in H.
    unfold bind at 1 in H. cbn [get_world] in H. rewrite Hmeta, Hsc in H. cbn in H.
    injection H as <- <-. split; [reflexivity | exact Hst].
Qed.

(** X4. For a media type outside the enumeration the resolver raises
    [RuntimeError] outside [create_dto]: the staging directory that the
    driver has just created is not removed and stays behind, empty. *)
Theorem download_unknown_media_type meta custom w file files :
  py_truthy (heap w) meta = true ->
  scratch w = Some (file :: files) ->
  staging w = None ->
  exists w',
    download OTHER meta custom w = (Raise (RuntimeError "Unknown media type"), w')
    /\ staging w' = Some []
    /\ trace w' = trace w ++ [EvMkdir StagingDir; EvRemoveDir ScratchDir]
    /\ heap w' = heap w.
Proof.
  intros Hmeta Hsc Hst. rewrite (download_staged _ _ _ _ _ _ Hmeta Hsc Hst).
  eexists. split; [reflexivity |]. cbn. rewrite <- app_assoc. auto.
Qed.

(** X5. A download that returns has built the audio exactly for the media
    types AUDIO and AUDIO_VIDEO and the video exactly for VIDEO and
    AUDIO_VIDEO, and the staging directory it reports did not exist
    before. *)
Theorem download_result_shape media_type meta custom w media w' :
  download media_type meta custom w = (Ok media, w') ->
  dm_media_type media = media_type
  /\ (is_Some (dm_audio media) <-> media_type = AUDIO \/ media_type = AUDIO_VIDEO)
  /\ (is_Some (dm_video media) <-> media_type = VIDEO \/ media_type = AUDIO_VIDEO)
  /\ dm_root_path media = StagingDir
  /\ staging w = None.
Proof.
  intros H.
  destruct (staging w) as [held |] eqn:Hst.
  { destruct (download_keeps_existing_staging_aux media_type meta custom w held Hst)
      as (e & w1 & Hd & _).
    rewrite Hd in H. discriminate. }
  destruct (py_truthy (heap w) meta) eqn:Hmeta.
  2:{ destruct (download_rejects_without_output_aux media_type meta custom w (or_introl Hmeta))
        as [msg Hd]. rewrite Hd in H. discriminate. }
  destruct (scratch w) as [[| file files] |] eqn:Hsc.
  - destruct (download_rejects_without_output_aux media_type meta custom w (or_intror Hsc))
      as [msg Hd]. rewrite Hd in H. discriminate.
  - rewrite (download_staged _ _ _ _ _ _ Hmeta Hsc Hst) in H.
    destruct (_create_media_dtos media_type meta ScratchDir StagingDir custom
                (emit (EvMkdir StagingDir) (set_staging (Some []) w)))
      as [[dtos | e] w2] eqn:E; [| discriminate].
    injection H as <- _. cbn.
    split; [reflexivity |].
    destruct media_type; unfold _create_media_dtos in E.
    + apply bind_inv_Ok in E as (a & w1 & _ & E). injection E as <- _. cbn.
      repeat split; intros; eauto; try discriminate;
        match goal with H : is_Some None |- _ => destruct H; discriminate
                      | H : _ \/ _ |- _ => destruct H; discriminate end.
    + apply bind_inv_Ok in E as (v & w1 & _ & E). injection E as <- _. cbn.
      repeat split; intros; eauto; try discriminate;
        match goal with H : is_Some None |- _ => destruct H; discriminate
                      | H : _ \/ _ |- _ => destruct H; discriminate end.
    + apply bind_inv_Ok in E as (a & w1 & _ & E).
      apply bind_inv_Ok in E as (v & w3 & _ & E). injection E as <- _. cbn.
      repeat split; intros; eauto.
    + discriminate.
  - rewrite download_is_download in H. unfold _download, with_tmp_dir in H.
    unfold bind at 1 in H. cbn [get_world] in H. rewrite Hmeta, Hsc in H. discriminate.
Qed.

(** *** The errors of the path lookup *)

Lemma bind_inv_Raise {A B} (m : M A) (k : A -> M B) w e w' :
  bind m k w = (Raise e, w') ->
  m w = (Raise e, w') \/ exists a w1, m w = (Ok a, w1) /\ k a w1 = (Raise e, w').
Proof.
  unfold bind. destruct (m w) as [[a | e0] w1]; intros H; [right; eauto |].
  injection H as <- <-. now left.
Qed.

Lemma raises_only_ret {A} P (a : A) : raises_only P (ret a).
Proof. intros w e w' H. discriminate. Qed.

Lemma raises_only_bind {A B} P (m : M A) (k : A -> M B) :
  raises_only P m -> (forall a, raises_only P (k a)) -> raises_only P (bind m k).
Proof.
  intros Hm Hk w e w' H.
  apply bind_inv_Raise in H as [H | (a & w1 & _ & H)]; [exact (Hm _ _ _ H) | exact (Hk _ _ _ _ H)].
Qed.

Lemma raises_py_getitem v key : raises_only not_ValueError (py_getitem v key).
Proof.
  intros w e w' H. unfold py_getitem in H.
  destruct v; try (injection H as <- _; reflexivity).
  destruct (deref (heap w) l !! key); [discriminate | injection H as <- _; reflexivity].
Qed.

Lemma raises_py_get v key dflt : raises_only not_ValueError (py_get v key dflt).
Proof.
  intros w e w' H. unfold py_get in H.
  destruct v; try (injection H as <- _; reflexivity). discriminate.
Qed.

Lemma raises_py_setitem v key x : raises_only not_ValueError (py_setitem v key x).
Proof.
  intros w e w' H. unfold py_setitem in H.
  destruct v; try (injection H as <- _; reflexivity). discriminate.
Qed.

Lemma raises_py_copy v : raises_only not_ValueError (py_copy v).
Proof.
  intros w e w' H. unfold py_copy in H.
  destruct v; try (injection H as <- _; reflexivity); discriminate.
Qed.

Lemma raises_py_index0 v : raises_only not_ValueError (py_index0 v).
Proof.
  intros w e w' H. unfold py_index0 in H.
  destruct v as [| | | | [|] | [|] |]; try (injection H as <- _; reflexivity); discriminate.
Qed.

Lemma raises_py_iter v : raises_only not_ValueError (py_iter v).
Proof.
  intros w e w' H. unfold py_iter in H.
  destruct v; try (injection H as <- _; reflexivity); discriminate.
Qed.

Lemma raises_py_rsplit_last v sep : raises_only not_ValueError (py_rsplit_last v sep).
Proof.
  intros w e w' H. unfold py_rsplit_last in H.
  destruct v; try (injection H as <- _; reflexivity); discriminate.
Qed.

Ltac raises_frame :=
  repeat (first [ apply raises_only_ret | apply raises_py_getitem | apply raises_py_get
                | apply raises_py_setitem | apply raises_py_copy | apply raises_py_index0
                | apply raises_py_iter | apply raises_py_rsplit_last
                | apply raises_only_bind
                | match goal with |- forall _, _ => intro end ]).

Lemma raises_primary_pass items : raises_only not_ValueError (primary_pass items).
Proof.
  induction items as [| item rest IH]; cbn [primary_pass]; [apply raises_only_ret |].
  apply raises_only_bind; [apply raises_py_get |]. intros ext.
  destruct (py_ne_str ext FINAL_AUDIO_FORMAT); [raises_frame | exact IH].
Qed.

Lemma raises_fallback_pass items : raises_only not_ValueError (fallback_pass items).
Proof.
  induction items as [| item rest IH]; cbn [fallback_pass]; [apply raises_only_ret |].
  apply raises_only_bind; [apply raises_py_getitem |]. intros ext.
  apply raises_only_bind; [apply raises_py_getitem |]. intros internal.
  apply raises_only_bind; [apply raises_py_rsplit_last |]. intros actual.
  destruct (py_ne_str ext actual); [raises_frame | exact IH].
Qed.

Lemma raises_requested_video rd : raises_only not_ValueError (_get_requested_video rd).
Proof.
  unfold _get_requested_video.
  apply raises_only_bind; [apply raises_py_iter |]. intros items.
  apply raises_only_bind; [apply raises_primary_pass |].
  intros [found |]; [apply raises_only_ret |].
  apply raises_only_bind; [apply raises_py_iter |]. intros items2.
  apply raises_only_bind; [apply raises_fallback_pass |]. intros found2.
  apply raises_only_ret.
Qed.

(** A descriptor that a pass returns has a [filepath]. *)
Lemma primary_pass_returns_filepath items w v w' :
  primary_pass items w = (Ok (Some v), w') ->
  exists l x, v = VRef l /\ deref (heap w') l !! "filepath" = Some x.
Proof.
  induction items as [| item rest IH]; cbn [primary_pass]; [discriminate |]. intros H.
  apply bind_inv_Ok in H as (ext & w1 & Hext & H).
  pose proof (pure_py_get _ _ _ _ _ _ Hext) as ->.
  apply py_get_inv in Hext as [l ->].
  destruct (py_ne_str ext FINAL_AUDIO_FORMAT); [| exact (IH H)].
  apply bind_inv_Ok in H as (internal & w1 & Hint & H).
  pose proof (pure_py_getitem _ _ _ _ _ Hint) as ->.
  unfold bind at 1 in H. cbn [py_get] in H.
  unfold bind at 1 in H. cbn [py_get] in H.
  unfold bind at 1 in H. cbn [py_setitem] in H.
  injection H as <- <-. exists l. eexists. split; [reflexivity |].
  cbn [heap set_heap]. rewrite (deref_Some _ l _ (lookup_insert_eq _ _ _)).
  apply lookup_insert_eq.
Qed.

Lemma fallback_pass_returns_filepath items w v w' :
  fallback_pass items w = (Ok (Some v), w') ->
  exists l x, v = VRef l /\ deref (heap w') l !! "filepath" = Some x.
Proof.
  revert w. induction items as [| item rest IH]; intros w; cbn [fallback_pass];
    [discriminate |]. intros H.
  apply bind_inv_Ok in H as (ext & w1 & Hext & H).
  apply py_getitem_inv in Hext as (-> & l & d & -> & Hl & Hext).
  apply bind_inv_Ok in H as (internal & w1 & Hint & H).
  pose proof (pure_py_getitem _ _ _ _ _ Hint) as ->.
  apply bind_inv_Ok in H as (actual & w1 & Hact & H).
  pose proof (pure_py_rsplit_last _ _ _ _ _ Hact) as ->.
  destruct (py_ne_str ext actual); [| exact (IH _ H)].
  rewrite (bind_Ok _ _ _ _ _ (py_copy_ref _ _ _ Hl)) in H.
  apply bind_inv_Ok in H as (old & w2 & Hold & H).
  pose proof (pure_py_getitem _ _ _ _ _ Hold) as ->.
  apply bind_inv_Ok in H as (name & w2 & Hname & H).
  pose proof (pure_py_getitem _ _ _ _ _ Hname) as ->.
  apply bind_inv_Ok in H as (name2 & w2 & Hname2 & H).
  pose proof (pure_py_getitem _ _ _ _ _ Hname2) as ->.
  unfold bind at 1 in H. cbn [py_get] in H.
  unfold bind at 1 in H. cbn [py_setitem] in H.
  injection H as <- <-. eexists. eexists. split; [reflexivity |].
  cbn [heap set_heap]. rewrite (deref_Some _ _ _ (lookup_insert_eq _ _ _)).
  apply lookup_insert_eq.
Qed.

Lemma requested_video_returns rd w v w' :
  _get_requested_video rd w = (Ok v, w') ->
  v = VNone \/ exists l x, v = VRef l /\ deref (heap w') l !! "filepath" = Some x.
Proof.
  unfold _get_requested_video. intros H.
  apply bind_inv_Ok in H as (items & w1 & _ & H).
  apply bind_inv_Ok in H as ([found |] & w2 & Hp & H).
  - injection H as <- <-. right. exact (primary_pass_returns_filepath _ _ _ _ Hp).
  - apply bind_inv_Ok in H as (items2 & w3 & _ & H).
    apply bind_inv_Ok in H as ([found2 |] & w4 & Hf & H); injection H as <- <-.
    + right. exact (fallback_pass_returns_filepath _ _ _ _ Hf).
    + now left.
Qed.

(** X6. The path lookup never raises the [ValueError] its handler
    announces: a descriptor that the selection returns always has a
    [filepath], and when the selection returns [None] the subscript raises
    [TypeError], which the handler does not catch.  The same holds for the
    filename derived from the path. *)
Theorem video_filepath_never_ValueError meta w e w' :
  _get_video_filepath meta w = (Raise e, w') \/ _get_video_filename meta w = (Raise e, w') ->
  is_ValueError e = false.
Proof.
  assert (Hfp : forall e0 w0', _get_video_filepath meta w = (Raise e0, w0') ->
                               not_ValueError e0 = true).
  { intros e0 w0' H. unfold _get_video_filepath in H.
    apply bind_inv_Raise in H as [H | (type & w1 & _ & H)];
      [exact (raises_py_getitem _ _ _ _ _ H) |].
    apply bind_inv_Raise in H as [H | (rv & w2 & Hrv & H)].
    - revert H. destruct (py_eq_str type _PLAYLIST_TYPE).
      + apply (raises_only_bind not_ValueError); [apply raises_py_getitem |]. intros entries.
        apply raises_only_bind; [apply raises_py_index0 |]. intros entry.
        apply raises_only_bind; [apply raises_py_getitem |]. intros rd.
        apply raises_requested_video.
      + apply (raises_only_bind not_ValueError); [apply raises_py_getitem |]. intros rd.
        apply raises_requested_video.
    - assert (Hret : rv = VNone
                     \/ exists l x, rv = VRef l /\ deref (heap w2) l !! "filepath" = Some x).
      { destruct (py_eq_str type _PLAYLIST_TYPE).
        - apply bind_inv_Ok in Hrv as (entries & w3 & _ & Hrv).
          apply bind_inv_Ok in Hrv as (entry & w4 & _ & Hrv).
          apply bind_inv_Ok in Hrv as (rd & w5 & _ & Hrv).
          exact (requested_video_returns _ _ _ _ Hrv).
        - apply bind_inv_Ok in Hrv as (rd & w3 & _ & Hrv).
          exact (requested_video_returns _ _ _ _ Hrv). }
      destruct Hret as [-> | (l & x & -> & Hx)].
      + cbn in H. injection H as <- _. reflexivity.
      + unfold try_except, py_getitem in H. rewrite Hx in H. discriminate. }
  intros [H | H]; apply negb_true_iff.
  - exact (Hfp _ _ H).
  - unfold _get_video_filename in H.
    apply bind_inv_Raise in H as [H | (p & w1 & _ & H)]; [exact (Hfp _ _ H) |].
    exact (raises_py_rsplit_last _ _ _ _ _ H).
Qed.

(** *** The coercion of the duration *)

(** X7. [_to_float] leaves the state alone; what it returns is a float,
    or the value it was given when that is [None], a list or a dict; it
    raises only [ValueError], on a string, and [OverflowError], on an
    integer, and never the [TypeError] it handles. *)
Theorem to_float_result v w r w' :
  _to_float v w = (r, w') ->
  w' = w
  /\ match r with
     | Ok x =>
         (exists f, x = VFloat f)
         \/ (x = v /\ (v = VNone \/ (exists items, v = VList items) \/ exists l, v = VRef l))
     | Raise e =>
         (exists msg s, e = ValueError msg /\ v = VStr s)
         \/ (e = OverflowError /\ exists z, v = VInt z)
     end.
Proof.
  unfold _to_float, try_except, py_float. intros H.
  destruct v as [| b | z | f | s | items | l]; cbn in H.
  - injection H as <- <-. split; [reflexivity |]. right. auto.
  - injection H as <- <-. split; [reflexivity |]. left. eauto.
  - destruct (PyFloat.of_Z z) eqn:E; injection H as <- <-;
      (split; [reflexivity |]); try (left; eauto; fail). right. eauto.
  - injection H as <- <-. split; [reflexivity |]. left. eauto.
  - destruct (PyFloat.of_string s); injection H as <- <-; (split; [reflexivity |]);
      [left; eauto | left; eauto].
  - injection H as <- <-. split; [reflexivity |]. right. eauto 6.
  - injection H as <- <-. split; [reflexivity |]. right. eauto 6.
Qed.

(** *** The filename has no directory part *)

Lemma rsplit1_last_no_sep sep s : occurs sep (last_item (rsplit1 sep s)) = false.
Proof.
  unfold last_item. induction s as [| c r IH]; [reflexivity |].
  cbn [rsplit1]. destruct (occurs sep r) eqn:Ho.
  - assert (Hlast : List.last (match rsplit1 sep r with
                               | [hd; tl] => [String c hd; tl]
                               | other => other
                               end) EmptyString
                    = List.last (rsplit1 sep r) EmptyString).
    { destruct (rsplit1 sep r) as [| x [| y [| z zs]]]; reflexivity. }
    now rewrite Hlast.
  - destruct (Ascii.eqb c sep) eqn:Hc; cbn; [exact Ho |]. now rewrite Hc, Ho.
Qed.

Lemma rsplit1_last_suffix sep s :
  s = last_item (rsplit1 sep s)
  \/ exists dir, s = String.append dir (String sep (last_item (rsplit1 sep s))).
Proof.
  unfold last_item. induction s as [| c r IH]; [now left |].
  cbn [rsplit1]. destruct (occurs sep r) eqn:Ho.
  - assert (Hlast : List.last (match rsplit1 sep r with
                               | [hd; tl] => [String c hd; tl]
                               | other => other
                               end) EmptyString
                    = List.last (rsplit1 sep r) EmptyString).
    { destruct (rsplit1 sep r) as [| x [| y [| z zs]]]; reflexivity. }
    rewrite Hlast. right. destruct IH as [IH | [dir IH]].
    + pose proof (rsplit1_last_no_sep sep r) as Hno. unfold last_item in Hno.
      rewrite <- IH in Hno. congruence.
    + exists (String c dir).
      change (String c r
              = String c (String.append dir
                            (String sep (List.last (rsplit1 sep r) EmptyString)))).
      now f_equal.
  - destruct (Ascii.eqb c sep) eqn:Hc; cbn.
    + right. exists EmptyString. cbn. apply Ascii.eqb_eq in Hc. now subst.
    + now left.
Qed.

(** X8. The video filename never contains a ['/']: it is the whole path
    when the path has none, and else what follows the last one, so that
    the file to relocate is always sought in the scratch directory
    itself. *)
Theorem video_filename_no_separator meta w name w' :
  _get_video_filename meta w = (Ok name, w') ->
  occurs "/" name = false
  /\ exists p, _get_video_filepath meta w = (Ok (VStr p), w')
               /\ (p = name \/ exists dir, p = String.append dir (String "/" name)).
Proof.
  unfold _get_video_filename. intros H.
  apply bind_inv_Ok in H as (v & w1 & Hfp & H).
  apply py_rsplit_last_inv in H as (-> & p & -> & ->).
  split; [apply rsplit1_last_no_sep |].
  exists p. split; [exact Hfp | apply rsplit1_last_suffix].
Qed.

(** *** The context of the video *)

(** X9. For a single-item document whose first descriptor with an
    extension other than the audio extension is [d]: the duration of the
    context is the coerced duration of the document, not of the
    descriptor; width and height are those of [d], [None] where [d] has
    none; an error of the coercion is the error of the context; and the
    descriptor has its filepath normalized in either case. *)
Theorem video_context_from_primary_descriptor w lm dm t pre l d post internal :
  heap w !! lm = Some dm ->
  dm !! "_type" = Some t ->
  py_eq_str t _PLAYLIST_TYPE = false ->
  dm !! "requested_downloads" = Some (VList (pre ++ VRef l :: post)) ->
  Forall (audio_descriptor (heap w)) pre ->
  heap w !! l = Some d ->
  py_ne_str (ext_of d) FINAL_AUDIO_FORMAT = true ->
  d !! "_filename" = Some internal ->
  _get_video_context (VRef lm) w
  = (res_map (fun duration => (duration, default VNone (d !! "width"),
                               default VNone (d !! "height")))
       (fst (_to_float (default VNone (dm !! "duration")) empty_world)),
     set_heap (<[l := <["filepath" := normalized_filepath d internal]> d]> (heap w)) w).
Proof.
  intros Hlm Ht Hsingle Hrd Hpre Hl Hext Hint.
  set (w1 := set_heap (<[l := <["filepath" := normalized_filepath d internal]> d]> (heap w)) w).
  destruct (fields_after_write (heap w) l d (normalized_filepath d internal) lm dm Hl Hlm)
    as (dm' & Hlm1 & Hsame).
  assert (Hl1 : heap w1 !! l = Some (<["filepath" := normalized_filepath d internal]> d))
    by apply lookup_insert_eq.
  unfold _get_video_context.
  rewrite (bind_Ok _ _ _ _ _ (py_getitem_ref _ _ _ _ _ Hlm Ht)). rewrite Hsingle.
  rewrite (bind_Ok _ _ _ _ _ (py_getitem_ref _ _ _ _ _ Hlm Hrd)).
  rewrite (bind_Ok _ _ _ _ _ (requested_video_primary _ _ _ _ _ _ Hpre Hl Hext Hint)).
  fold w1.
  rewrite (bind_Ok _ _ _ _ _ (py_get_ref w1 _ _ "duration" VNone Hlm1)).
  rewrite (Hsame "duration") by discriminate.
  unfold bind at 1. rewrite to_float_world.
  destruct (fst (_to_float (default VNone (dm !! "duration")) empty_world)) as [dur | e];
    [| reflexivity].
  rewrite (bind_Ok _ _ _ _ _ (py_get_ref _ _ _ "width" VNone Hl1)).
  rewrite (bind_Ok _ _ _ _ _ (py_get_ref _ _ _ "height" VNone Hl1)).
  rewrite !lookup_insert_ne by discriminate. reflexivity.
Qed.

(** *** Descriptors without extension *)

(** X10. With a non-empty audio extension, a descriptor that has no [ext]
    key at all counts as video: the primary pass selects it and
    normalizes its filepath in place. *)
Theorem primary_pass_selects_without_ext w pre l d post internal :
  FINAL_AUDIO_FORMAT <> "" ->
  Forall (audio_descriptor (heap w)) pre ->
  heap w !! l = Some d ->
  d !! "ext" = None ->
  d !! "_filename" = Some internal ->
  _get_requested_video (VList (pre ++ VRef l :: post)) w
  = (Ok (VRef l),
     set_heap (<[l := <["filepath" := normalized_filepath d internal]> d]> (heap w)) w).
Proof.
  intros Hfmt Hpre Hl Hext Hint.
  apply (requested_video_primary _ _ _ _ _ _ Hpre Hl); [| exact Hint].
  unfold ext_of. rewrite Hext. cbn [default from_option py_ne_str].
  destruct (String.eqb_spec "" FINAL_AUDIO_FORMAT) as [Heq | Hne]; [| reflexivity].
  now contradiction Hfmt.
Qed.

(** *** The order of the two builders *)

(** X11. In an AUDIO_VIDEO resolution the audio is built first, and when
    that fails the video is not attempted: the error is that of the audio
    builder, the staging directory is removed, and the metadata document
    is as it was, no descriptor normalized. *)
Theorem audio_failure_skips_video meta c custom w e w1 :
  _create_audio_dto meta c StagingDir custom w = (Raise e, w1) ->
  _create_media_dtos AUDIO_VIDEO meta c StagingDir custom w
  = (Raise e, emit (EvRemoveDir StagingDir) (set_staging None w1))
  /\ heap w1 = heap w.
Proof.
  intros Ha. split; [| exact (heap_stable_audio _ _ _ _ _ _ _ Ha)].
  unfold _create_media_dtos.
  now rewrite (bind_Raise _ _ _ _ _ (create_dto_Raise_staging _ _ _ _ _ _ _ Ha)).
Qed.

(** *** Playlists with several entries *)

(** X12. Of a playlist only the first entry is consulted: whatever
    entries follow it, the filepath, the filename and the context are
    those of a single-item document built from the first entry. *)
Theorem playlist_first_entry_only w l d le rest ls :
  heap w !! l = Some d ->
  d !! "_type" = Some (VStr "playlist") ->
  d !! "entries" = Some (VList (VRef le :: rest)) ->
  built_from (heap w) ls le ->
  _get_video_filepath (VRef l) w = _get_video_filepath (VRef ls) w
  /\ _get_video_filename (VRef l) w = _get_video_filename (VRef ls) w
  /\ _get_video_context (VRef l) w = _get_video_context (VRef ls) w.
Proof.
  intros Hl Ht He Hb.
  pose proof (filepath_playlist_built_from _ _ _ _ _ _ Hl Ht He Hb) as Hfp.
  split; [exact Hfp | split].
  - unfold _get_video_filename, bind. now rewrite Hfp.
  - exact (context_playlist_built_from _ _ _ _ _ _ Hl Ht He Hb).
Qed.

(** *** Building the audio, when the file is there *)

Lemma glob_head_scratch extension w sfiles name others :
  scratch w = Some sfiles ->
  glob extension ScratchDir w = name :: others ->
  exists sz, lookup_file name sfiles = Some sz.
Proof.
  intros Hsc Hg. destruct (glob_head_in _ _ _ _ _ Hsc Hg) as [Hin _].
  exact (lookup_file_names _ _ Hin).
Qed.

Lemma audio_dto_succeeds_aux w lm dm title custom sfiles held name others :
  heap w !! lm = Some dm ->
  dm !! "title" = Some title ->
  scratch w = Some sfiles ->
  simple_listing sfiles ->
  staging w = Some held ->
  glob FINAL_AUDIO_FORMAT ScratchDir w = name :: others ->
  lookup_file name held = None ->
  exists sz,
    lookup_file name sfiles = Some sz
    /\ _create_audio_dto (VRef lm) ScratchDir StagingDir custom w
       = (Ok (mkAudio title (Some name) VNone StagingDir sz), relocated name w)
    /\ stat (InStaging name) (relocated name w) = Some sz
    /\ stat (InScratch name) (relocated name w) = None.
Proof.
  intros Hlm Htitle Hsc Hsimple Hst Hg Hfree.
  destruct (glob_head_scratch _ _ _ _ _ Hsc Hg) as [sz Hsz].
  destruct (glob_head_in _ _ _ _ _ Hsc Hg) as [Hin _].
  pose proof (simple_listing_names _ _ Hsimple Hin) as Hs.
  assert (Hrel : relocated name w
                 = emit (EvMove (InScratch name) StagingDir)
                     (set_staging (Some (held ++ [(name, sz)]))
                        (set_scratch (Some (remove_file name sfiles)) w))).
  { unfold relocated, stat. rewrite Hsc, Hst. cbn. now rewrite Hsz. }
  assert (Hstat : stat (InStaging name) (relocated name w) = Some sz).
  { rewrite Hrel. unfold stat. cbn. rewrite lookup_file_app, Hfree. cbn.
    now rewrite String.eqb_refl. }
  exists sz. split; [exact Hsz | split; [| split; [exact Hstat |]]].
  - unfold _create_audio_dto.
    rewrite (bind_Ok _ _ _ _ _
               (find_downloaded_file_result _ _ _ (or_introl eq_refl) Hsc Hsimple)).
    rewrite Hg. cbn [List.head join_opt].
    unfold bind at 1. cbn [ret]. rewrite (join_scratch_simple _ Hs).
    assert (Hmove : shutil_move (InScratch name) StagingDir w = (Ok tt, relocated name w)).
    { rewrite Hrel. unfold shutil_move, stat. rewrite Hst, Hfree, Hsc. cbn.
      now rewrite Hsz. }
    rewrite (bind_Ok _ _ _ _ _ Hmove).
    assert (Hlm' : heap (relocated name w) !! lm = Some dm) by (rewrite Hrel; exact Hlm).
    rewrite (bind_Ok _ _ _ _ _ (py_getitem_ref _ _ _ _ _ Hlm' Htitle)).
    unfold bind at 1. cbn [ret]. rewrite (join_staging_simple _ Hs).
    unfold bind, file_size. rewrite Hstat. reflexivity.
  - rewrite Hrel. unfold stat. cbn. apply lookup_file_remove_same.
Qed.

(** X13. When the scratch directory holds a file that the audio pattern
    matches, the staging directory exists and holds no file of that name,
    and the document has a title, the audio is built: the first matching
    file is moved into the staging directory under its own name, whatever
    custom filename was given, and the [Audio] carries the title, that
    name, no duration and the size of the file. *)
Theorem audio_dto_succeeds w lm dm title custom sfiles held name others :
  heap w !! lm = Some dm ->
  dm !! "title" = Some title ->
  scratch w = Some sfiles ->
  simple_listing sfiles ->
  staging w = Some held ->
  glob FINAL_AUDIO_FORMAT ScratchDir w = name :: others ->
  lookup_file name held = None ->
  exists sz,
    lookup_file name sfiles = Some sz
    /\ _create_audio_dto (VRef lm) ScratchDir StagingDir custom w
       = (Ok (mkAudio title (Some name) VNone StagingDir sz), relocated name w)
    /\ stat (InStaging name) (relocated name w) = Some sz
    /\ stat (InScratch name) (relocated name w) = None.
Proof. exact (audio_dto_succeeds_aux w lm dm title custom sfiles held name others). Qed.

(** *** What a download does to the metadata document *)

Lemma same_but_filepath_refl h : same_but_filepath h h.
Proof. intros x Hx. auto. Qed.

Lemma same_but_filepath_trans h1 h2 h3 :
  same_but_filepath h1 h2 -> same_but_filepath h2 h3 -> same_but_filepath h1 h3.
Proof.
  intros H12 H23 x Hx. destruct (H12 x Hx) as [Hx2 Hk2]. destruct (H23 x Hx2) as [Hx3 Hk3].
  split; [exact Hx3 |]. intros key Hkey. now rewrite (Hk3 key Hkey), (Hk2 key Hkey).
Qed.

Lemma same_but_filepath_subseteq (h h' : gmap loc (gmap string pyval)) :
  h ⊆ h' -> same_but_filepath h h'.
Proof.
  intros Hsub x [dx Hx]. pose proof (lookup_weaken _ _ _ _ Hx Hsub) as Hx'.
  split; [eauto |]. intros key _. now rewrite (deref_Some _ _ _ Hx), (deref_Some _ _ _ Hx').
Qed.

Lemma same_but_filepath_write (h : gmap loc (gmap string pyval)) l v :
  same_but_filepath h (<[l := <["filepath" := v]> (deref h l)]> h).
Proof.
  intros x [dx Hx]. destruct (decide (l = x)) as [-> | Hne].
  - split; [rewrite lookup_insert_eq; eauto |]. intros key Hkey.
    rewrite (deref_Some _ x _ (lookup_insert_eq _ _ _)).
    now rewrite lookup_insert_ne by congruence.
  - split; [rewrite lookup_insert_ne by exact Hne; eauto |]. intros key _.
    unfold deref. now rewrite lookup_insert_ne by exact Hne.
Qed.

Lemma fields_kept_heap_stable {A} (m : M A) : heap_stable m -> fields_kept m.
Proof. intros Hm w r w' H. rewrite (Hm _ _ _ H). apply same_but_filepath_refl. Qed.

Lemma fields_kept_bind {A B} (m : M A) (k : A -> M B) :
  fields_kept m -> (forall a, fields_kept (k a)) -> fields_kept (bind m k).
Proof.
  intros Hm Hk w r w' H. unfold bind in H.
  destruct (m w) as [[a | e] w1] eqn:E.
  - exact (same_but_filepath_trans _ _ _ (Hm _ _ _ E) (Hk _ _ _ _ H)).
  - injection H as _ <-. exact (Hm _ _ _ E).
Qed.

Lemma fields_kept_try {A} (m : M A) handles h :
  fields_kept m -> (forall e, fields_kept (h e)) -> fields_kept (try_except m handles h).
Proof.
  intros Hm Hh w r w' H. unfold try_except in H.
  destruct (m w) as [[a | e] w1] eqn:E.
  - injection H as _ <-. exact (Hm _ _ _ E).
  - destruct (handles e).
    + exact (same_but_filepath_trans _ _ _ (Hm _ _ _ E) (Hh _ _ _ _ H)).
    + injection H as _ <-. exact (Hm _ _ _ E).
Qed.

Lemma fields_kept_primary_pass items : fields_kept (primary_pass items).
Proof.
  intros w r w' H.
  destruct (primary_pass_effect _ _ _ _ H) as [-> | (l & v & _ & ->)];
    [apply same_but_filepath_refl | apply same_but_filepath_write].
Qed.

Lemma fields_kept_fallback_pass items : fields_kept (fallback_pass items).
Proof.
  intros w r w' H. exact (same_but_filepath_subseteq _ _ (fallback_pass_grows _ _ _ _ H)).
Qed.

Lemma fields_kept_requested_video rd : fields_kept (_get_requested_video rd).
Proof.
  unfold _get_requested_video.
  apply fields_kept_bind;
    [apply fields_kept_heap_stable, pure_op_heap_stable, pure_py_iter |]. intros items.
  apply fields_kept_bind; [apply fields_kept_primary_pass |].
  intros [found |]; [apply fields_kept_heap_stable, heap_stable_ret |].
  apply fields_kept_bind;
    [apply fields_kept_heap_stable, pure_op_heap_stable, pure_py_iter |]. intros items2.
  apply fields_kept_bind; [apply fields_kept_fallback_pass |]. intros found2.
  apply fields_kept_heap_stable, heap_stable_ret.
Qed.

Ltac fields_frame :=
  repeat (first [ apply fields_kept_requested_video
                | apply fields_kept_heap_stable, heap_stable_ret
                | apply fields_kept_heap_stable, heap_stable_raise
                | apply fields_kept_heap_stable, heap_stable_py_getitem
                | apply fields_kept_heap_stable, heap_stable_file_size
                | apply fields_kept_heap_stable, heap_stable_shutil_move
                | apply fields_kept_heap_stable, heap_stable_find
                | apply fields_kept_heap_stable, heap_stable_remove_dir
                | apply fields_kept_heap_stable, pure_op_heap_stable, pure_py_get
                | apply fields_kept_heap_stable, pure_op_heap_stable, pure_py_index0
                | apply fields_kept_heap_stable, pure_op_heap_stable, pure_py_len
                | apply fields_kept_heap_stable, pure_op_heap_stable, pure_py_rsplit_last
                | apply fields_kept_heap_stable, pure_op_heap_stable, pure_to_float
                | apply fields_kept_bind
                | match goal with |- forall _, _ => intro end ]).

Lemma fields_kept_video_filepath meta : fields_kept (_get_video_filepath meta).
Proof.
  unfold _get_video_filepath.
  apply fields_kept_bind; [apply fields_kept_heap_stable, heap_stable_py_getitem |].
  intros type. apply fields_kept_bind.
  - destruct (py_eq_str type _PLAYLIST_TYPE); fields_frame.
  - intros rv. apply fields_kept_try; fields_frame.
Qed.

Lemma fields_kept_video_context meta : fields_kept (_get_video_context meta).
Proof.
  unfold _get_video_context.
  apply fields_kept_bind; [apply fields_kept_heap_stable, heap_stable_py_getitem |].
  intros type. destruct (py_eq_str type _PLAYLIST_TYPE).
  - apply fields_kept_bind; [apply fields_kept_heap_stable, heap_stable_py_getitem |].
    intros entries.
    apply fields_kept_bind;
      [apply fields_kept_heap_stable, pure_op_heap_stable, pure_py_len |]. intros n.
    destruct (n =? 0); fields_frame.
  - fields_frame.
Qed.

Lemma fields_kept_video_dto meta c dst custom :
  fields_kept (_create_video_dto meta c dst custom).
Proof.
  unfold _create_video_dto, _get_video_filename.
  apply fields_kept_bind.
  { apply fields_kept_bind; [apply fields_kept_video_filepath |]. fields_frame. }
  intros name. cbv zeta.
  apply fields_kept_bind; [apply fields_kept_heap_stable, heap_stable_shutil_move |].
  intros _.
  apply fields_kept_bind; [apply fields_kept_heap_stable, heap_stable_find |].
  intros thumb. apply fields_kept_bind; [destruct thumb; fields_frame |].
  intros thumb_path. apply fields_kept_bind; [apply fields_kept_video_context |].
  intros [[duration width] height]. fields_frame.
Qed.

Lemma fields_kept_create_dto {A} (func : pyval -> path -> path -> option string -> M A)
    meta c dst custom :
  fields_kept (func meta c dst custom) -> fields_kept (create_dto func meta c dst custom).
Proof. intros H. unfold create_dto. apply fields_kept_try; [exact H |]. fields_frame. Qed.

Lemma fields_kept_media_dtos media_type meta c dst custom :
  fields_kept (_create_media_dtos media_type meta c dst custom).
Proof.
  pose proof (fields_kept_create_dto _create_audio_dto meta c dst custom
                (fields_kept_heap_stable _ (heap_stable_audio _ _ _ _))) as Ha.
  pose proof (fields_kept_create_dto _create_video_dto meta c dst custom
                (fields_kept_video_dto _ _ _ _)) as Hv.
  unfold _create_media_dtos. destruct media_type.
  - apply fields_kept_bind; [exact Ha |]. fields_frame.
  - apply fields_kept_bind; [exact Hv |]. fields_frame.
  - apply fields_kept_bind; [exact Ha |]. intros a.
    apply fields_kept_bind; [exact Hv |]. fields_frame.
  - fields_frame.
Qed.

Lemma download_heap media_type meta custom w r w' :
  download media_type meta custom w = (r, w') ->
  heap w' = heap w
  \/ exists r2 w1 w2,
       heap w1 = heap w
       /\ _create_media_dtos media_type meta ScratchDir StagingDir custom w1 = (r2, w2)
       /\ heap w' = heap w2.
Proof.
  intros H.
  destruct (staging w) as [held |] eqn:Hst.
  { destruct (download_keeps_existing_staging_aux media_type meta custom w held Hst)
      as (e & w1 & Hd & _ & Hh & _).
    rewrite Hd in H. injection H as _ <-. now left. }
  destruct (py_truthy (heap w) meta) eqn:Hmeta.
  2:{ destruct (download_rejects_without_output_aux media_type meta custom w (or_introl Hmeta))
        as [msg Hd]. rewrite Hd in H. injection H as _ <-. now left. }
  destruct (scratch w) as [[| file files] |] eqn:Hsc.
  - destruct (download_rejects_without_output_aux media_type meta custom w (or_intror Hsc))
      as [msg Hd]. rewrite Hd in H. injection H as _ <-. now left.
  - rewrite (download_staged _ _ _ _ _ _ Hmeta Hsc Hst) in H.
    destruct (_create_media_dtos media_type meta ScratchDir StagingDir custom
                (emit (EvMkdir StagingDir) (set_staging (Some []) w)))
      as [r2 w2] eqn:E.
    injection H as _ <-. right. exists r2. eexists. exists w2.
    split; [| split; [exact E | reflexivity]]. reflexivity.
  - rewrite download_is_download in H. unfold _download, with_tmp_dir in H.
    unfold bind at 1 in H. cbn [get_world] in H. rewrite Hmeta, Hsc in H. cbn in H.
    injection H as _ <-. now left.
Qed.

(** X14. Whatever a download does and however it ends, every object of
    the metadata document is still there afterwards with all the fields
    it had, but for [filepath] fields. *)
Theorem download_changes_only_filepaths media_type meta custom w r w' :
  download media_type meta custom w = (r, w') ->
  same_but_filepath (heap w) (heap w').
Proof.
  intros H. destruct (download_heap _ _ _ _ _ _ H) as [-> | (r2 & w1 & w2 & H1 & Hrun & ->)];
    [apply same_but_filepath_refl |].
  rewrite <- H1. exact (fields_kept_media_dtos _ _ _ _ _ _ _ _ Hrun).
Qed.

(** X15. An AUDIO download never changes the metadata document at all. *)
Theorem audio_download_keeps_document meta custom w r w' :
  download AUDIO meta custom w = (r, w') -> heap w' = heap w.
Proof.
  intros H. destruct (download_heap _ _ _ _ _ _ H) as [-> | (r2 & w1 & w2 & H1 & Hrun & ->)];
    [reflexivity |].
  rewrite <- H1. revert Hrun. unfold _create_media_dtos.
  apply (heap_stable_bind (create_dto _create_audio_dto meta ScratchDir StagingDir custom)).
  - unfold create_dto. apply heap_stable_try; [apply heap_stable_audio |].
    intros e. heap_frame.
  - intros a. apply heap_stable_ret.
Qed.

(** *** The custom filename *)

Lemma bind_res_map {A B C} (f : B -> C) (m : M A) (k1 : A -> M C) (k2 : A -> M B) w :
  (forall a w1, k1 a w1 = let '(r, w') := k2 a w1 in (res_map f r, w')) ->
  bind m k1 w = let '(r, w') := bind m k2 w in (res_map f r, w').
Proof.
  intros Hk. unfold bind. destruct (m w) as [[a | e] w1]; [apply Hk | reflexivity].
Qed.

(** X16. An empty custom filename counts as none: the file is relocated
    under its original name, exactly as without a custom filename, and
    the only difference is that the [Video] records the empty string. *)
Theorem empty_custom_filename_is_no_custom meta c dst w :
  _create_video_dto meta c dst (Some "") w
  = let '(r, w') := _create_video_dto meta c dst None w in
    (res_map (with_custom_filename (Some "")) r, w').
Proof.
  unfold _create_video_dto. cbn [given String.eqb].
  apply bind_res_map. intros name w1. cbv zeta.
  apply bind_res_map. intros _ w2.
  apply bind_res_map. intros thumb w3.
  apply bind_res_map. intros thumb_path w4.
  apply bind_res_map. intros [[duration width] height] w5.
  apply bind_res_map. intros title w6.
  apply bind_res_map. intros size w7. reflexivity.
Qed.

(** *** The fallback pass, called twice *)

Lemma settled_descriptor_weaken (h h' : gmap loc (gmap string pyval)) v :
  h ⊆ h' -> settled_descriptor h v -> settled_descriptor h' v.
Proof.
  intros Hsub (l & d & ext & name & -> & Hl & Hrest). exists l, d, ext, name.
  split; [reflexivity | split; [exact (lookup_weaken _ _ _ _ Hl Hsub) | exact Hrest]].
Qed.

Lemma requested_video_fallback w pre l d post ext name old :
  Forall (audio_descriptor (heap w)) (pre ++ VRef l :: post) ->
  Forall (settled_descriptor (heap w)) pre ->
  heap w !! l = Some d ->
  d !! "ext" = Some ext ->
  d !! "_filename" = Some (VStr name) ->
  py_ne_str ext (actual_extension name) = true ->
  d !! "filepath" = Some old ->
  _get_requested_video (VList (pre ++ VRef l :: post)) w
  = (Ok (VRef (fresh (dom (heap w)))),
     set_heap (<[fresh (dom (heap w)) := <["filepath" := replaced_filepath d (VStr name)]> d]>
                 (heap w)) w).
Proof.
  intros Haudio Hpre Hl Hext Hname Hlag Hold. unfold _get_requested_video.
  unfold bind at 1. cbn [py_iter].
  rewrite (bind_Ok _ _ _ _ _ (primary_pass_none _ _ Haudio)).
  unfold bind at 1. cbn [py_iter].
  unfold bind at 1. rewrite (fallback_pass_skip _ _ _ Hpre).
  rewrite (fallback_pass_hit _ _ _ _ _ _ _ Hl Hext Hname Hlag Hold).
  reflexivity.
Qed.

(** X17. In the fallback case every call of the selection makes a copy of
    its own: called twice, as video resolution does for the path and for
    the context, it returns two different new objects with the same
    content, and the descriptor itself is as it was. *)
Theorem fallback_selection_copies_each_time w pre l d post ext name old :
  Forall (audio_descriptor (heap w)) (pre ++ VRef l :: post) ->
  Forall (settled_descriptor (heap w)) pre ->
  heap w !! l = Some d ->
  d !! "ext" = Some ext ->
  d !! "_filename" = Some (VStr name) ->
  py_ne_str ext (actual_extension name) = true ->
  d !! "filepath" = Some old ->
  exists l1 l2 copy w1 w2,
    _get_requested_video (VList (pre ++ VRef l :: post)) w = (Ok (VRef l1), w1)
    /\ _get_requested_video (VList (pre ++ VRef l :: post)) w1 = (Ok (VRef l2), w2)
    /\ l1 <> l2 /\ l1 <> l /\ l2 <> l
    /\ heap w2 !! l1 = Some copy
    /\ heap w2 !! l2 = Some copy
    /\ heap w2 !! l = Some d.
Proof.
  intros Haudio Hpre Hl Hext Hname Hlag Hold.
  set (copy := <["filepath" := replaced_filepath d (VStr name)]> d).
  set (l1 := fresh (dom (heap w))).
  set (w1 := set_heap (<[l1 := copy]> (heap w)) w).
  assert (Hsub : heap w ⊆ heap w1) by (apply insert_subseteq, fresh_loc_unused).
  assert (Haudio1 : Forall (audio_descriptor (heap w1)) (pre ++ VRef l :: post)).
  { eapply Forall_impl; [exact Haudio |]. intros v. now apply audio_descriptor_weaken. }
  assert (Hpre1 : Forall (settled_descriptor (heap w1)) pre).
  { eapply Forall_impl; [exact Hpre |]. intros v. now apply settled_descriptor_weaken. }
  pose proof (lookup_weaken _ _ _ _ Hl Hsub) as Hl1.
  set (l2 := fresh (dom (heap w1))).
  assert (Hl1_in : heap w1 !! l1 = Some copy) by apply lookup_insert_eq.
  assert (Hne12 : l1 <> l2).
  { intros Heq. pose proof (fresh_loc_unused (heap w1)) as Hf. fold l2 in Hf.
    rewrite <- Heq, Hl1_in in Hf. discriminate. }
  assert (Hne1 : l1 <> l).
  { intros Heq. pose proof (fresh_loc_unused (heap w)) as Hf. fold l1 in Hf.
    rewrite Heq, Hl in Hf. discriminate. }
  assert (Hne2 : l2 <> l).
  { intros Heq. pose proof (fresh_loc_unused (heap w1)) as Hf. fold l2 in Hf.
    rewrite Heq, Hl1 in Hf. discriminate. }
  exists l1, l2, copy, w1. eexists.
  split; [exact (requested_video_fallback _ _ _ _ _ _ _ _ Haudio Hpre Hl Hext Hname Hlag Hold) |].
  split; [exact (requested_video_fallback _ _ _ _ _ _ _ _
                   Haudio1 Hpre1 Hl1 Hext Hname Hlag Hold) |].
  cbn [heap set_heap]. fold l2.
  split; [exact Hne12 | split; [exact Hne1 | split; [exact Hne2 | split; [| split]]]].
  - rewrite lookup_insert_ne by congruence. exact Hl1_in.
  - apply lookup_insert_eq.
  - rewrite lookup_insert_ne by congruence. exact Hl1.
Qed.

(** *** The video that is built *)

Lemma relocated_as_eq name dest w sz sfiles files :
  scratch w = Some sfiles ->
  staging w = Some files ->
  lookup_file name sfiles = Some sz ->
  relocated_as name dest w
  = emit (EvMove (InScratch name) (InStaging dest))
      (set_staging (Some (put_file dest sz files))
         (set_scratch (Some (remove_file name sfiles)) w)).
Proof.
  intros Hsc Hst Hsz. unfold relocated_as, stat. rewrite Hsc, Hst. cbn. now rewrite Hsz.
Qed.

Lemma relocated_eq name w sz sfiles files :
  scratch w = Some sfiles ->
  staging w = Some files ->
  lookup_file name sfiles = Some sz ->
  relocated name w
  = emit (EvMove (InScratch name) StagingDir)
      (set_staging (Some (files ++ [(name, sz)]))
         (set_scratch (Some (remove_file name sfiles)) w)).
Proof.
  intros Hsc Hst Hsz. unfold relocated, stat. rewrite Hsc, Hst. cbn. now rewrite Hsz.
Qed.

Lemma video_dto_result_aux w lm dm t pre l d post internal p
    custom title duration sfiles files sz dest_name :
  heap w !! lm = Some dm ->
  dm !! "_type" = Some t ->
  py_eq_str t _PLAYLIST_TYPE = false ->
  dm !! "requested_downloads" = Some (VList (pre ++ VRef l :: post)) ->
  Forall (audio_descriptor (heap w)) pre ->
  heap w !! l = Some d ->
  py_ne_str (ext_of d) FINAL_AUDIO_FORMAT = true ->
  d !! "_filename" = Some internal ->
  normalized_filepath d internal = VStr p ->
  dm !! "title" = Some title ->
  fst (_to_float (default VNone (dm !! "duration")) empty_world) = Ok duration ->
  scratch w = Some sfiles ->
  staging w = Some files ->
  simple_listing sfiles ->
  lookup_file (final_segment p) sfiles = Some sz ->
  dest_name = default (final_segment p) (given custom) ->
  simple_name dest_name = true ->
  (forall name, In name sfiles.*1 -> glob_match FINAL_THUMBNAIL_FORMAT name = true ->
                name <> final_segment p ->
                name <> dest_name /\ lookup_file name files = None) ->
  let w2 := relocated_as (final_segment p) dest_name
              (set_heap (<[l := <["filepath" := VStr p]> d]> (heap w)) w) in
  let thumb := List.head (glob FINAL_THUMBNAIL_FORMAT ScratchDir w2) in
  let w3 := match thumb with Some name => relocated name w2 | None => w2 end in
  _create_video_dto (VRef lm) ScratchDir StagingDir custom w
  = (Ok (mkVideo title (final_segment p) custom duration
           (default VNone (d !! "width")) (default VNone (d !! "height"))
           StagingDir sz (InStaging <$> thumb) thumb), w3).
Proof.
  intros Hlm Ht Hsingle Hrd Hpre Hl Hext Hint Hp Htitle Hdur Hsc Hst Hsimple Hfile
    Hdest Hdsimple Hthumb.
  set (fname := final_segment p) in *.
  assert (Hfsimple : simple_name fname = true)
    by exact (simple_listing_names _ _ Hsimple (lookup_file_Some_names _ _ _ Hfile)).
  pose proof (single_item_filepath_primary _ _ _ _ _ _ _ _ _
                Hlm Ht Hsingle Hrd Hpre Hl Hext Hint) as Hfp.
  rewrite Hp in Hfp.
  set (h1 := <[l := <["filepath" := VStr p]> d]> (heap w)) in *.
  assert (Hfn : _get_video_filename (VRef lm) w = (Ok fname, set_heap h1 w)).
  { unfold _get_video_filename. rewrite (bind_Ok _ _ _ _ _ Hfp).
    apply py_rsplit_last_slash. }
  intros w2 thumb w3.
  assert (Hw2 : w2 = emit (EvMove (InScratch fname) (InStaging dest_name))
                       (set_staging (Some (put_file dest_name sz files))
                          (set_scratch (Some (remove_file fname sfiles)) (set_heap h1 w))))
    by exact (relocated_as_eq fname dest_name (set_heap h1 w) sz sfiles files Hsc Hst Hfile).
  assert (Hsc2 : scratch w2 = Some (remove_file fname sfiles)) by now rewrite Hw2.
  assert (Hst2 : staging w2 = Some (put_file dest_name sz files)) by now rewrite Hw2.
  assert (Hh2 : heap w2 = h1) by now rewrite Hw2.
  unfold _create_video_dto. rewrite (bind_Ok _ _ _ _ _ Hfn). cbv zeta.
  rewrite (join_scratch_simple _ Hfsimple).
  assert (Hdp : match given custom with
                | Some c => join StagingDir c
                | None => join StagingDir fname
                end = InStaging dest_name).
  { subst dest_name. destruct (given custom); cbn [default from_option] in *;
      now apply join_staging_simple. }
  rewrite Hdp.
  assert (Hmove : shutil_move (InScratch fname) (InStaging dest_name) (set_heap h1 w)
                  = (Ok tt, w2)).
  { rewrite Hw2. unfold shutil_move, stat. cbn [scratch staging set_heap].
    rewrite Hsc, Hst. cbn. rewrite Hfile. reflexivity. }
  rewrite (bind_Ok _ _ _ _ _ Hmove).
  pose proof (simple_listing_remove fname _ Hsimple) as Hsimple2.
  rewrite (bind_Ok _ _ _ _ _
             (find_downloaded_file_result _ _ _ (or_intror eq_refl) Hsc2 Hsimple2)).
  fold thumb.
  assert (Hdest_stat : forall w', staging w' = Some (put_file dest_name sz files)
                                  \/ (exists extra, staging w'
                                        = Some (put_file dest_name sz files ++ extra)) ->
                                  stat (InStaging dest_name) w' = Some sz).
  { intros w' [Hs | [extra Hs]]; unfold stat; rewrite Hs; cbn.
    - apply lookup_file_put_same.
    - now rewrite lookup_file_app, lookup_file_put_same. }
  assert (Hrest : forall w', heap w' = h1 ->
                             stat (InStaging dest_name) w' = Some sz ->
                             forall thumb_path thumb_name,
                               (let* context := _get_video_context (VRef lm) in
                                let '(duration0, width, height) := context in
                                let* title0 := py_getitem (VRef lm) "title" in
                                let* size := file_size (InStaging dest_name) in
                                ret (mkVideo title0 fname custom duration0 width height
                                       StagingDir size thumb_path thumb_name)) w'
                               = (Ok (mkVideo title fname custom duration
                                        (default VNone (d !! "width"))
                                        (default VNone (d !! "height"))
                                        StagingDir sz thumb_path thumb_name), w')).
  { intros w' Hh' Hstat thumb_path thumb_name.
    assert (Hh3 : heap w' = <[l := <["filepath" := normalized_filepath d internal]> d]> (heap w))
      by (rewrite Hh', Hp; reflexivity).
    pose proof (video_context_primary _ _ _ _ _ _ _ _ _ _
                  Hlm Ht Hsingle Hrd Hpre Hl Hext Hint Hh3) as Hctx.
    rewrite Hdur in Hctx. rewrite (bind_Ok _ _ _ _ _ Hctx).
    destruct (fields_after_write (heap w) l d (normalized_filepath d internal) lm dm Hl Hlm)
      as (dm' & Hlm3 & Hsame).
    rewrite <- Hh3 in Hlm3.
    assert (Htitle3 : dm' !! "title" = Some title)
      by (rewrite Hsame; [exact Htitle | discriminate]).
    rewrite (bind_Ok _ _ _ _ _ (py_getitem_ref _ _ _ _ _ Hlm3 Htitle3)).
    unfold bind, file_size. rewrite Hstat. reflexivity. }
  subst w3. destruct (glob FINAL_THUMBNAIL_FORMAT ScratchDir w2) as [| name others] eqn:Hg;
    subst thumb; cbn [List.head].
  - unfold bind at 1. cbn [ret].
    exact (Hrest w2 Hh2 (Hdest_stat w2 (or_introl Hst2)) None None).
  - destruct (glob_head_in _ _ _ _ _ Hsc2 Hg) as [Hin Hmatch].
    pose proof (simple_listing_names _ _ Hsimple2 Hin) as Hs.
    destruct (lookup_file_names _ _ Hin) as [tsz Htsz].
    destruct (Hthumb name (remove_file_names _ _ _ Hin) Hmatch
                (remove_file_names_ne _ _ _ Hin)) as [Hne Hnone].
    assert (Hfree : lookup_file name (put_file dest_name sz files) = None).
    { unfold put_file. rewrite lookup_file_app, lookup_file_remove_other, Hnone by congruence.
      cbn [lookup_file]. destruct (String.eqb dest_name name) eqn:E; [| reflexivity].
      apply String.eqb_eq in E. congruence. }
    pose proof (relocated_eq _ _ _ _ _ Hsc2 Hst2 Htsz) as Hw3.
    assert (Hmove2 : shutil_move (join ScratchDir name) StagingDir w2
                     = (Ok tt, relocated name w2)).
    { rewrite Hw3, (join_scratch_simple _ Hs). unfold shutil_move, stat.
      rewrite Hst2, Hfree, Hsc2. cbn. now rewrite Htsz. }
    rewrite (bind_Ok _ _ _ _ _ (bind_Ok _ _ _ _ _ Hmove2)). cbn [ret].
    rewrite (join_staging_simple _ Hs).
    apply (Hrest (relocated name w2)).
    + rewrite Hw3. exact Hh2.
    + apply Hdest_stat. right. exists [(name, tsz)]. now rewrite Hw3.
Qed.

(** X18. The [Video] built from the primary descriptor, in full: title of
    the document, original filename the final segment of the normalized
    path, the custom filename as given, the coerced duration of the
    document, width and height of the descriptor, the size of the
    relocated file; the video file is moved under the custom name if one
    is given, else under its own; and the first file of the scratch
    directory that the thumbnail pattern matches, if there is one, is
    moved along and recorded, its absence being no error. *)
Theorem video_dto_result w lm dm t pre l d post internal p
    custom title duration sfiles files sz dest_name :
  heap w !! lm = Some dm ->
  dm !! "_type" = Some t ->
  py_eq_str t _PLAYLIST_TYPE = false ->
  dm !! "requested_downloads" = Some (VList (pre ++ VRef l :: post)) ->
  Forall (audio_descriptor (heap w)) pre ->
  heap w !! l = Some d ->
  py_ne_str (ext_of d) FINAL_AUDIO_FORMAT = true ->
  d !! "_filename" = Some internal ->
  normalized_filepath d internal = VStr p ->
  dm !! "title" = Some title ->
  fst (_to_float (default VNone (dm !! "duration")) empty_world) = Ok duration ->
  scratch w = Some sfiles ->
  staging w = Some files ->
  simple_listing sfiles ->
  lookup_file (final_segment p) sfiles = Some sz ->
  dest_name = default (final_segment p) (given custom) ->
  simple_name dest_name = true ->
  (forall name, In name sfiles.*1 -> glob_match FINAL_THUMBNAIL_FORMAT name = true ->
                name <> final_segment p ->
                name <> dest_name /\ lookup_file name files = None) ->
  let w2 := relocated_as (final_segment p) dest_name
              (set_heap (<[l := <["filepath" := VStr p]> d]> (heap w)) w) in
  let thumb := List.head (glob FINAL_THUMBNAIL_FORMAT ScratchDir w2) in
  let w3 := match thumb with Some name => relocated name w2 | None => w2 end in
  _create_video_dto (VRef lm) ScratchDir StagingDir custom w
  = (Ok (mkVideo title (final_segment p) custom duration
           (default VNone (d !! "width")) (default VNone (d !! "height"))
           StagingDir sz (InStaging <$> thumb) thumb), w3).
Proof. exact (video_dto_result_aux w lm dm t pre l d post internal p custom title duration sfiles files sz dest_name). Qed.

(** *** A document without title *)

(** X19. The title is read only after the audio file has been moved: for
    a document without title the audio builder raises [KeyError] with the
    file already in the staging directory, and the rollback of
    [create_dto] then removes that directory, so that the file is left in
    neither directory. *)
Theorem audio_missing_title_fails_after_relocation
    w lm dm custom sfiles held name others :
  heap w !! lm = Some dm ->
  dm !! "title" = None ->
  scratch w = Some sfiles ->
  simple_listing sfiles ->
  staging w = Some held ->
  glob FINAL_AUDIO_FORMAT ScratchDir w = name :: others ->
  lookup_file name held = None ->
  _create_audio_dto (VRef lm) ScratchDir StagingDir custom w
  = (Raise (KeyError "title"), relocated name w)
  /\ is_Some (stat (InStaging name) (relocated name w))
  /\ exists w',
       create_dto _create_audio_dto (VRef lm) ScratchDir StagingDir custom w
       = (Raise (KeyError "title"), w')
       /\ stat (InStaging name) w' = None
       /\ stat (InScratch name) w' = None.
Proof.
  intros Hlm Htitle Hsc Hsimple Hst Hg Hfree.
  destruct (glob_head_scratch _ _ _ _ _ Hsc Hg) as [sz Hsz].
  destruct (glob_head_in _ _ _ _ _ Hsc Hg) as [Hin _].
  pose proof (simple_listing_names _ _ Hsimple Hin) as Hs.
  pose proof (relocated_eq _ _ _ _ _ Hsc Hst Hsz) as Hrel.
  assert (Hrun : _create_audio_dto (VRef lm) ScratchDir StagingDir custom w
                 = (Raise (KeyError "title"), relocated name w)).
  { unfold _create_audio_dto.
    rewrite (bind_Ok _ _ _ _ _
               (find_downloaded_file_result _ _ _ (or_introl eq_refl) Hsc Hsimple)).
    rewrite Hg. cbn [List.head join_opt].
    unfold bind at 1. cbn [ret]. rewrite (join_scratch_simple _ Hs).
    assert (Hmove : shutil_move (InScratch name) StagingDir w = (Ok tt, relocated name w)).
    { rewrite Hrel. unfold shutil_move, stat. rewrite Hst, Hfree, Hsc. cbn.
      now rewrite Hsz. }
    rewrite (bind_Ok _ _ _ _ _ Hmove).
    assert (Hlm' : heap (relocated name w) !! lm = Some dm) by (rewrite Hrel; exact Hlm).
    now rewrite (bind_Raise _ _ _ _ _ (py_getitem_missing _ _ _ _ Hlm' Htitle)). }
  split; [exact Hrun | split].
  - rewrite Hrel. unfold stat. cbn. rewrite lookup_file_app, Hfree. cbn.
    rewrite String.eqb_refl. eauto.
  - eexists. split; [exact (create_dto_Raise_staging _ _ _ _ _ _ _ Hrun) |].
    split; [reflexivity |].
    rewrite Hrel. unfold stat. cbn. apply lookup_file_remove_same.
Qed.

(** *** A whole AUDIO_VIDEO download *)

Lemma remove_file_names_keep name other d :
  In name d.*1 -> name <> other -> In name (remove_file other d).*1.
Proof.
  intros Hin Hne. unfold remove_file. induction d as [| [n z] d IH]; [destruct Hin |].
  cbn [List.filter fst]. destruct Hin as [Heq | Hin].
  - cbn in Heq. subst n.
    destruct (String.eqb_spec name other) as [-> | _]; [contradiction |]. now left.
  - destruct (negb (String.eqb n other)); [right |]; exact (IH Hin).
Qed.

Lemma filter_head_Some {A} (f : A -> bool) (xs : list A) x :
  In x xs -> f x = true -> is_Some (List.head (List.filter f xs)).
Proof.
  intros Hin Hf.
  assert (Hx : In x (List.filter f xs)) by (apply filter_In; auto).
  destruct (List.filter f xs); [destruct Hx | cbn; eauto].
Qed.

Lemma glob_scratch_only extension w w' :
  scratch w' = scratch w -> glob extension ScratchDir w' = glob extension ScratchDir w.
Proof. intros H. unfold glob. now rewrite H. Qed.

Lemma document_truthy h lm dm key x :
  h !! lm = Some dm -> dm !! key = Some x -> py_truthy h (VRef lm) = true.
Proof.
  intros Hlm Hk. cbn [py_truthy]. rewrite (deref_Some _ _ _ Hlm).
  assert (Hne : size dm <> 0%nat)
    by (eapply map_size_ne_0_lookup_2; rewrite Hk; eauto).
  destruct (Nat.eqb_spec (size dm) 0); [contradiction | reflexivity].
Qed.

(** X20. A whole AUDIO_VIDEO download of a single-item document with a
    video descriptor, when the scratch directory holds the audio file and
    the video file under different names and no staging directory exists
    yet: the download returns both assets; the audio keeps its name, the
    video is stored under the custom name if one is given; a thumbnail in
    the scratch directory is recorded; the scratch directory is removed
    and the staging directory holds the video under its destination
    name. *)
Theorem download_audio_video_succeeds w lm dm t pre l d post internal p
    custom title duration sfiles sz dest_name audio_name others :
  heap w !! lm = Some dm ->
  dm !! "_type" = Some t ->
  py_eq_str t _PLAYLIST_TYPE = false ->
  dm !! "requested_downloads" = Some (VList (pre ++ VRef l :: post)) ->
  Forall (audio_descriptor (heap w)) pre ->
  heap w !! l = Some d ->
  py_ne_str (ext_of d) FINAL_AUDIO_FORMAT = true ->
  d !! "_filename" = Some internal ->
  normalized_filepath d internal = VStr p ->
  dm !! "title" = Some title ->
  fst (_to_float (default VNone (dm !! "duration")) empty_world) = Ok duration ->
  scratch w = Some sfiles ->
  staging w = None ->
  simple_listing sfiles ->
  glob FINAL_AUDIO_FORMAT ScratchDir w = audio_name :: others ->
  lookup_file (final_segment p) sfiles = Some sz ->
  final_segment p <> audio_name ->
  dest_name = default (final_segment p) (given custom) ->
  simple_name dest_name = true ->
  (forall name, In name sfiles.*1 -> glob_match FINAL_THUMBNAIL_FORMAT name = true ->
                name <> final_segment p -> name <> audio_name -> name <> dest_name) ->
  exists audio_size video w',
    download AUDIO_VIDEO (VRef lm) custom w
    = (Ok (mkDownMedia AUDIO_VIDEO
             (Some (mkAudio title (Some audio_name) VNone StagingDir audio_size))
             (Some video) StagingDir), w')
    /\ lookup_file audio_name sfiles = Some audio_size
    /\ video_title video = title
    /\ video_original_filename video = final_segment p
    /\ video_custom_filename video = custom
    /\ video_duration video = duration
    /\ video_file_size video = sz
    /\ video_thumb_path video = InStaging <$> video_thumb_name video
    /\ ((exists name, In name sfiles.*1 /\ glob_match FINAL_THUMBNAIL_FORMAT name = true
                      /\ name <> final_segment p /\ name <> audio_name) ->
        is_Some (video_thumb_name video))
    /\ scratch w' = None
    /\ stat (InStaging dest_name) w' = Some sz.
Proof.
  intros Hlm Ht Hsingle Hrd Hpre Hl Hext Hint Hp Htitle Hdur Hsc Hst Hsimple Hg Hfile
    Hdiff Hdest Hdsimple Hthumb.
  set (fname := final_segment p) in *.
  destruct (glob_head_scratch _ _ _ _ _ Hsc Hg) as [asz Hasz].
  assert (Hnonempty : exists file files, sfiles = file :: files).
  { destruct sfiles as [| file files]; [discriminate | eauto]. }
  destruct Hnonempty as (file & files & Hcons).
  set (w0 := emit (EvMkdir StagingDir) (set_staging (Some []) w)).
  rewrite (download_staged AUDIO_VIDEO (VRef lm) custom w file files
             (document_truthy _ _ _ _ _ Hlm Ht) (eq_trans Hsc (f_equal Some Hcons)) Hst).
  fold w0.
  (* the audio *)
  destruct (audio_dto_succeeds_aux w0 lm dm title custom sfiles [] audio_name others
              Hlm Htitle Hsc Hsimple eq_refl
              (eq_trans (glob_scratch_only _ w w0 eq_refl) Hg) eq_refl)
    as (asz' & Hasz' & Haudio & _ & _).
  rewrite Hasz in Hasz'. injection Hasz' as <-.
  pose proof (relocated_eq audio_name w0 asz sfiles [] Hsc eq_refl Hasz) as Hwa.
  set (wa := relocated audio_name w0) in *.
  assert (Hsca : scratch wa = Some (remove_file audio_name sfiles)) by now rewrite Hwa.
  assert (Hsta : staging wa = Some [(audio_name, asz)]) by now rewrite Hwa.
  assert (Hha : heap wa = heap w) by now rewrite Hwa.
  (* the video *)
  assert (Hfile_a : lookup_file fname (remove_file audio_name sfiles) = Some sz)
    by (rewrite lookup_file_remove_other by congruence; exact Hfile).
  assert (Hthumb_a : forall name, In name (remove_file audio_name sfiles).*1 ->
                                  glob_match FINAL_THUMBNAIL_FORMAT name = true ->
                                  name <> fname ->
                                  name <> dest_name
                                  /\ lookup_file name [(audio_name, asz)] = None).
  { intros name Hin Hmatch Hne.
    pose proof (remove_file_names_ne _ _ _ Hin) as Hna.
    split; [exact (Hthumb name (remove_file_names _ _ _ Hin) Hmatch Hne Hna) |].
    cbn [lookup_file]. destruct (String.eqb_spec audio_name name); [congruence | reflexivity]. }
  pose proof (video_dto_result_aux wa lm dm t pre l d post internal p custom title duration
                (remove_file audio_name sfiles) [(audio_name, asz)] sz dest_name) as Hvideo.
  rewrite Hha in Hvideo.
  specialize (Hvideo Hlm Ht Hsingle Hrd Hpre Hl Hext Hint Hp Htitle Hdur Hsca Hsta
                (simple_listing_remove _ _ Hsimple) Hfile_a Hdest Hdsimple Hthumb_a).
  cbv zeta in Hvideo. fold fname in Hvideo.
  set (h1 := <[l := <["filepath" := VStr p]> d]> (heap w)) in *.
  pose proof (relocated_as_eq fname dest_name (set_heap h1 wa) sz
                (remove_file audio_name sfiles) [(audio_name, asz)] Hsca Hsta Hfile_a) as Hw2.
  set (w2 := relocated_as fname dest_name (set_heap h1 wa)) in *.
  assert (Hsc2 : scratch w2 = Some (remove_file fname (remove_file audio_name sfiles)))
    by now rewrite Hw2.
  assert (Hst2 : staging w2 = Some (put_file dest_name sz [(audio_name, asz)]))
    by now rewrite Hw2.
  set (thumb := List.head (glob FINAL_THUMBNAIL_FORMAT ScratchDir w2)) in *.
  set (w3 := match thumb with Some name => relocated name w2 | None => w2 end) in *.
  unfold _create_media_dtos.
  rewrite (bind_Ok _ _ _ _ _ (create_dto_Ok _ _ _ _ _ _ _ _ Haudio)).
  rewrite (bind_Ok _ _ _ _ _ (create_dto_Ok _ _ _ _ _ _ _ _ Hvideo)).
  cbn [ret res_map fst snd].
  exists asz. eexists. eexists. split; [reflexivity |].
  cbn [video_title video_original_filename video_custom_filename video_duration
       video_file_size video_thumb_path video_thumb_name scratch emit set_scratch].
  repeat (split; [reflexivity |]).
  split; [exact Hasz |]. repeat (split; [reflexivity |]).
  split; [| split; [reflexivity |]].
  - intros (name & Hin & Hmatch & Hnf & Hna). unfold thumb, glob. rewrite Hsc2.
    change (default [] (Some (remove_file fname (remove_file audio_name sfiles))))
      with (remove_file fname (remove_file audio_name sfiles)).
    apply (filter_head_Some _ _ name); [| exact Hmatch].
    apply remove_file_names_keep; [| exact Hnf].
    now apply remove_file_names_keep.
  - assert (Hstat2 : stat (InStaging dest_name) w2 = Some sz).
    { unfold stat. rewrite Hst2. apply lookup_file_put_same. }
    unfold stat. cbn [staging emit set_scratch].
    subst w3. destruct thumb as [tn |] eqn:Hthumb_eq; [| exact Hstat2].
    assert (Hg2 : exists rest, glob FINAL_THUMBNAIL_FORMAT ScratchDir w2 = tn :: rest).
    { unfold thumb in Hthumb_eq.
      destruct (glob FINAL_THUMBNAIL_FORMAT ScratchDir w2) as [| x rest];
        [discriminate | injection Hthumb_eq as ->; eauto]. }
    destruct Hg2 as [rest Hg2].
    destruct (glob_head_scratch _ _ _ _ _ Hsc2 Hg2) as [tsz Htsz].
    rewrite (relocated_eq tn w2 tsz _ _ Hsc2 Hst2 Htsz).
    cbn [staging emit set_staging set_scratch set_heap].
    change (lookup_file dest_name (put_file dest_name sz [(audio_name, asz)] ++ [(tn, tsz)])
            = Some sz).
    now rewrite lookup_file_app, lookup_file_put_same.
Qed.

End MediaDownloader.

(** ** The theorems at concrete documents

    The configured extensions are taken as ["m4a"] for audio and ["jpg"]
    for thumbnails. *)

(** C3: the claim fails at ["bad"]: the coercion raises. *)
Lemma to_float_bad_raises :
  fst (_to_float (VStr "bad") empty_world)
  = Raise (ValueError "could not convert string to float")
  /\ fst (_to_float (VStr "bad") empty_world) <> Ok (VStr "bad").
Proof. split; [vm_compute; reflexivity | vm_compute; discriminate]. Qed.

Lemma playlist_single_entry_witness :
  _get_video_filepath "m4a" (VRef 4%positive) playlist_world
  = _get_video_filepath "m4a" (VRef 1%positive) playlist_world
  /\ _get_video_filename "m4a" (VRef 4%positive) playlist_world
     = _get_video_filename "m4a" (VRef 1%positive) playlist_world
  /\ _get_video_context "m4a" (VRef 4%positive) playlist_world
     = _get_video_context "m4a" (VRef 1%positive) playlist_world.
Proof.
  apply (playlist_single_entry_as_single_item "m4a" playlist_world 4%positive
           playlist_document 1%positive 1%positive).
  - vm_compute; reflexivity.
  - vm_compute; reflexivity.
  - vm_compute; reflexivity.
  - right. split; [reflexivity |].
    exists video_document, (VStr "video").
    split; [| split]; vm_compute; reflexivity.
Defined.

Lemma video_world_audio_first :
  Forall (audio_descriptor "m4a" (heap video_world)) [VRef 3%positive].
Proof.
  repeat constructor. exists 3%positive, audio_descriptor_m4a.
  repeat split; vm_compute; reflexivity.
Qed.

Lemma video_filename_witness :
  _get_video_filename "m4a" (VRef 1%positive) video_world
  = (Ok "clip.mp4",
     set_heap (<[2%positive := <["filepath" := VStr "/tmp/x/clip.mp4"]> video_descriptor]>
                 (heap video_world)) video_world)
  /\ exists v w',
       _create_video_dto "m4a" "jpg" (VRef 1%positive) ScratchDir StagingDir
         (Some "myclip.mp4") video_world = (Ok v, w')
       /\ video_original_filename v = "clip.mp4"
       /\ video_file_size v = 100
       /\ stat (InStaging "myclip.mp4") w' = Some 100.
Proof.
  destruct (video_filename_from_primary_descriptor "m4a" "jpg" video_world 1%positive
              video_document (VStr "video") [VRef 3%positive] 2%positive video_descriptor []
              (VStr "/tmp/x/clip.mp4") "/tmp/x/clip.mp4")
    as (_ & Hname & _ & _ & Hbuilt);
    try (vm_compute; reflexivity).
  - exact video_world_audio_first.
  - split; [exact Hname |].
    apply (Hbuilt (Some "myclip.mp4") (VStr "T")
             (VFloat (S754_finite false 7036874417766400 (-49))) video_files [] 100
             "myclip.mp4");
      try (vm_compute; reflexivity).
    + repeat constructor.
    + intros name [<- | [<- | [<- | []]]] Hmatch Hne;
        solve [ discriminate Hmatch | contradiction Hne; reflexivity
              | split; [discriminate | reflexivity] ].
Defined.

(** C2: the claim fails for the empty playlist: an AUDIO download succeeds,
    and a VIDEO download fails with [IndexError], not with the
    [ValueError] of the entries check. *)
Lemma empty_playlist_counterexample :
  (exists media, fst (download "m4a" "jpg" AUDIO (VRef 1%positive) None empty_playlist_world)
                 = Ok media)
  /\ fst (download "m4a" "jpg" VIDEO (VRef 1%positive) None empty_playlist_world)
     = Raise IndexError.
Proof. split; [eexists |]; vm_compute; reflexivity. Qed.

Lemma empty_playlist_witness :
  _get_video_context "m4a" (VRef 1%positive) empty_playlist_world
  = (Raise (ValueError "Item said to be downloaded but no entries to process."),
     empty_playlist_world)
  /\ forall media_type c dst custom,
       media_type = VIDEO \/ media_type = AUDIO_VIDEO ->
       exists e w', _create_media_dtos "m4a" "jpg" media_type (VRef 1%positive) c dst custom
                      empty_playlist_world = (Raise e, w').
Proof.
  apply (empty_playlist_rejected "m4a" "jpg" empty_playlist_world 1%positive empty_playlist);
    vm_compute; reflexivity.
Defined.

Lemma audio_video_rollback_witness :
  exists w3,
    _create_media_dtos "m4a" "jpg" AUDIO_VIDEO (VRef 1%positive) ScratchDir StagingDir None
      audio_only_staged_world = (Raise TypeError, w3)
    /\ staging w3 = None
    /\ files_in (staging w3) = []
    /\ trace w3 = [EvMove (InScratch "clip.m4a") StagingDir; EvRemoveDir StagingDir]
    /\ exists name,
         Some "clip.m4a" = Some name
         /\ stat (InStaging name)
              (emit (EvMove (InScratch "clip.m4a") StagingDir)
                 (set_staging (Some [("clip.m4a", 10)])
                    (set_scratch (Some []) audio_only_staged_world))) = Some 10
         /\ stat (InStaging name) w3 = None.
Proof.
  pose (w1 := emit (EvMove (InScratch "clip.m4a") StagingDir)
                (set_staging (Some [("clip.m4a", 10)])
                   (set_scratch (Some []) audio_only_staged_world))).
  apply (audio_video_rollback "m4a" "jpg" (VRef 1%positive) None audio_only_staged_world
           (mkAudio (VStr "T") (Some "clip.m4a") VNone StagingDir 10) w1 TypeError w1);
    vm_compute; reflexivity.
Defined.

(** C5: the claim fails where no pass finds a descriptor: the error is a
    [TypeError], and the staging directory was created. *)
Lemma no_descriptor_counterexample :
  fst (download "m4a" "jpg" VIDEO (VRef 1%positive) None audio_only_world) = Raise TypeError
  /\ is_ValueError TypeError = false
  /\ In (EvMkdir StagingDir)
        (trace (snd (download "m4a" "jpg" VIDEO (VRef 1%positive) None audio_only_world))).
Proof. vm_compute. split; [reflexivity | split; [reflexivity | auto]]. Qed.

Lemma audio_only_descriptors :
  Forall (audio_descriptor "m4a" (heap audio_only_world)) [VRef 2%positive]
  /\ Forall (settled_descriptor (heap audio_only_world)) [VRef 2%positive].
Proof.
  split; repeat constructor.
  - exists 2%positive, audio_descriptor_m4a.
    split; [reflexivity | split; vm_compute; reflexivity].
  - exists 2%positive, audio_descriptor_m4a, (VStr "m4a"), "/tmp/x/clip.m4a".
    split; [reflexivity | split; [| split; [| split]]]; vm_compute; reflexivity.
Qed.

Lemma no_descriptor_download_witness :
  exists e w',
    download "m4a" "jpg" VIDEO (VRef 1%positive) None audio_only_world = (Raise e, w')
    /\ trace w' = [EvMkdir StagingDir; EvRemoveDir StagingDir; EvRemoveDir ScratchDir]
    /\ staging w' = None
    /\ heap w' = heap audio_only_world.
Proof.
  apply (no_descriptor_download_fails "m4a" "jpg" audio_only_world 1%positive
           [VRef 2%positive] None ("clip.m4a", 10) []).
  - apply (canonical_single _ _ _ audio_only_document (VStr "video")); vm_compute; reflexivity.
  - exact (proj1 audio_only_descriptors).
  - exact (proj2 audio_only_descriptors).
  - reflexivity.
  - reflexivity.
Defined.

(** C6: the claim fails where the lagging descriptor has no [filepath]:
    the pass raises instead of returning the copy. *)
Lemma fallback_no_filepath_counterexample :
  Forall (audio_descriptor "m4a" (heap kept_video_no_filepath_world)) [VRef 2%positive]
  /\ extension_lags kept_video_no_filepath
  /\ fst (_get_requested_video "m4a" (VList [VRef 2%positive]) kept_video_no_filepath_world)
     = Raise (KeyError "filepath").
Proof.
  split; [| split].
  - repeat constructor. exists 2%positive, kept_video_no_filepath.
    split; [reflexivity | split; vm_compute; reflexivity].
  - exists (VStr "m4a"), "/tmp/x/clip.mp4".
    split; [| split]; vm_compute; reflexivity.
  - vm_compute. reflexivity.
Qed.

Lemma fallback_pass_returns_copy_witness :
  (exists l' d' w',
     _get_requested_video "m4a" (VList [VRef 2%positive]) kept_video_world = (Ok (VRef l'), w')
     /\ heap kept_video_world !! l' = None
     /\ heap w' !! l' = Some d'
     /\ (forall key, key <> "filepath" -> d' !! key = kept_video_descriptor !! key)
     /\ (forall x dx, heap kept_video_world !! x = Some dx -> heap w' !! x = Some dx)
     /\ (scratch w', staging w', trace w')
        = (scratch kept_video_world, staging kept_video_world, trace kept_video_world))
  /\ (forall lm c dst custom r w',
        canonical_downloads (heap kept_video_world) lm (VList [VRef 2%positive]) ->
        _create_video_dto "m4a" "jpg" (VRef lm) c dst custom kept_video_world = (r, w') ->
        forall x dx, heap kept_video_world !! x = Some dx -> heap w' !! x = Some dx).
Proof.
  apply (fallback_pass_returns_copy "m4a" "jpg" kept_video_world [] 2%positive
           kept_video_descriptor [] (VStr "m4a") "/tmp/x/clip.mp4" (VStr "/tmp/x/clip.m4a")).
  - repeat constructor. exists 2%positive, kept_video_descriptor.
    split; [reflexivity | split; vm_compute; reflexivity].
  - constructor.
  - vm_compute; reflexivity.
  - vm_compute; reflexivity.
  - vm_compute; reflexivity.
  - vm_compute; reflexivity.
  - vm_compute; reflexivity.
Defined.

(** C7: the claim fails for a selected descriptor that has a [filepath]:
    the copy gets the internal filename, not the filepath it had. *)
Lemma fallback_filepath_counterexample :
  let r := _get_requested_video "m4a" (VList [VRef 2%positive]) kept_video_world in
  fst r = Ok (VRef 3%positive)
  /\ heap (snd r) !! 3%positive ≫= (fun d => d !! "filepath") = Some (VStr "/tmp/x/clip.mp4")
  /\ kept_video_descriptor !! "filepath" = Some (VStr "/tmp/x/clip.m4a").
Proof. vm_compute. split; [reflexivity | split; reflexivity]. Qed.

Lemma fallback_pass_replaces_filepath_witness :
  exists l l' d internal,
    VRef 3%positive = VRef l' /\ In (VRef l) [VRef 2%positive]
    /\ heap kept_video_world !! l = Some d
    /\ heap kept_video_world !! l' = None
    /\ is_Some (d !! "filepath")
    /\ d !! "_filename" = Some internal
    /\ heap (snd (fallback_pass [VRef 2%positive] kept_video_world)) !! l'
       = Some (<["filepath" := replaced_filepath d internal]> d).
Proof.
  apply (fallback_pass_replaces_filepath [VRef 2%positive] kept_video_world
           (VRef 3%positive) (snd (fallback_pass [VRef 2%positive] kept_video_world))).
  vm_compute. reflexivity.
Defined.

(** C8: the claim fails where the scratch directory has no audio file:
    the error is a [TypeError], not an error of the file system, and no
    relocation was attempted. *)
Lemma no_audio_counterexample :
  _create_audio_dto "m4a" "jpg" (VRef 1%positive) ScratchDir StagingDir None no_audio_world
  = (Raise TypeError, no_audio_world)
  /\ is_OSError TypeError = false
  /\ trace no_audio_world = [].
Proof. split; [vm_compute; reflexivity | split; reflexivity]. Qed.

Lemma audio_resolution_witness :
  _find_downloaded_file "m4a" "jpg" ScratchDir "m4a" video_world
  = (Ok (List.head (glob "m4a" ScratchDir video_world)), video_world)
  /\ (forall name, List.head (glob "m4a" ScratchDir video_world) = Some name ->
                   In name video_files.*1 /\ glob_match "m4a" name = true)
  /\ ((forall name, In name video_files.*1 -> glob_match "m4a" name = false) ->
      _create_audio_dto "m4a" "jpg" (VRef 1%positive) ScratchDir StagingDir None video_world
      = (Raise TypeError, video_world))
  /\ (forall a w',
        _create_audio_dto "m4a" "jpg" (VRef 1%positive) ScratchDir StagingDir None video_world
        = (Ok a, w') -> audio_duration a = VNone).
Proof.
  apply (audio_resolution "m4a" "jpg" (VRef 1%positive) StagingDir None video_world video_files).
  - reflexivity.
  - repeat constructor.
Defined.

(** C10: the claim fails in two ways: a matched descriptor that already has
    its [filepath] leaves the document as it was, and a matched descriptor
    without internal filename makes the pass raise before any write. *)
Lemma primary_pass_counterexample :
  _get_requested_video "m4a" (VList [VRef 2%positive]) normalized_video_world
  = (Ok (VRef 2%positive), normalized_video_world)
  /\ _get_requested_video "m4a" (VList [VRef 2%positive]) no_internal_world
     = (Raise (KeyError "_filename"), no_internal_world).
Proof. split; vm_compute; reflexivity. Qed.

Lemma primary_pass_updates_witness :
  exists w',
    _get_requested_video "m4a" (VList [VRef 3%positive; VRef 2%positive]) video_world
    = (Ok (VRef 2%positive), w')
    /\ heap w' = <[2%positive := <["filepath" := VStr "/tmp/x/clip.mp4"]> video_descriptor]>
                   (heap video_world)
    /\ (scratch w', staging w', trace w')
       = (scratch video_world, staging video_world, trace video_world)
    /\ (heap w' = heap video_world <-> is_Some (video_descriptor !! "filepath")).
Proof.
  apply (primary_pass_updates_in_place "m4a" video_world [VRef 3%positive] 2%positive
           video_descriptor [] (VStr "/tmp/x/clip.mp4")).
  - exact video_world_audio_first.
  - vm_compute; reflexivity.
  - vm_compute; reflexivity.
  - vm_compute; reflexivity.
Defined.

(** *** The further properties at concrete documents *)

Lemma download_rejects_without_output_witness :
  exists msg,
    download "m4a" "jpg" VIDEO VNone None video_fresh_world
    = (Raise (MediaDownloaderError msg),
       emit (EvRemoveDir ScratchDir) (set_scratch None video_fresh_world)).
Proof.
  apply (download_rejects_without_output "m4a" "jpg" VIDEO VNone None video_fresh_world).
  left. reflexivity.
Defined.

Lemma download_keeps_existing_staging_witness :
  exists e w',
    download "m4a" "jpg" VIDEO (VRef 1%positive) None video_world = (Raise e, w')
    /\ staging w' = Some []
    /\ heap w' = heap video_world
    /\ trace w' = trace video_world ++ [EvRemoveDir ScratchDir].
Proof.
  apply (download_keeps_existing_staging "m4a" "jpg" VIDEO (VRef 1%positive) None
           video_world []).
  reflexivity.
Defined.

Lemma download_staging_iff_success_witness :
  let run := download "m4a" "jpg" VIDEO (VRef 1%positive) None video_fresh_world in
  scratch (snd run) = None
  /\ match fst run with
     | Ok media => is_Some (staging (snd run)) /\ dm_root_path media = StagingDir
     | Raise _ => staging (snd run) = None
     end.
Proof.
  intros run.
  apply (download_staging_iff_success "m4a" "jpg" VIDEO (VRef 1%positive) None
           video_fresh_world (fst run) (snd run)).
  - discriminate.
  - reflexivity.
  - apply surjective_pairing.
Defined.

Lemma download_unknown_media_type_witness :
  exists w',
    download "m4a" "jpg" OTHER (VRef 1%positive) None audio_only_world
    = (Raise (RuntimeError "Unknown media type"), w')
    /\ staging w' = Some []
    /\ trace w' = trace audio_only_world ++ [EvMkdir StagingDir; EvRemoveDir ScratchDir]
    /\ heap w' = heap audio_only_world.
Proof.
  apply (download_unknown_media_type "m4a" "jpg" (VRef 1%positive) None audio_only_world
           ("clip.m4a", 10) []).
  - vm_compute; reflexivity.
  - reflexivity.
  - reflexivity.
Defined.

Lemma download_result_shape_witness :
  exists media w',
    download "m4a" "jpg" AUDIO_VIDEO (VRef 1%positive) (Some "myclip.mp4") video_fresh_world
    = (Ok media, w')
    /\ dm_media_type media = AUDIO_VIDEO
    /\ (is_Some (dm_audio media) <-> AUDIO_VIDEO = AUDIO \/ AUDIO_VIDEO = AUDIO_VIDEO)
    /\ (is_Some (dm_video media) <-> AUDIO_VIDEO = VIDEO \/ AUDIO_VIDEO = AUDIO_VIDEO)
    /\ dm_root_path media = StagingDir
    /\ staging video_fresh_world = None.
Proof.
  eexists. eexists.
  refine ((fun H => conj H (download_result_shape "m4a" "jpg" AUDIO_VIDEO (VRef 1%positive)
                              (Some "myclip.mp4") video_fresh_world _ _ H)) _).
  vm_compute. reflexivity.
Defined.

Lemma video_filepath_never_ValueError_witness :
  _get_video_filepath "m4a" (VRef 1%positive) audio_only_world
  = (Raise TypeError, audio_only_world)
  /\ is_ValueError TypeError = false.
Proof.
  refine ((fun H => conj H (video_filepath_never_ValueError "m4a" (VRef 1%positive)
                              audio_only_world TypeError audio_only_world (or_introl H))) _).
  vm_compute. reflexivity.
Defined.

Lemma to_float_result_witness :
  empty_world = empty_world
  /\ ((exists f, VFloat (S754_finite false 7036874417766400 (-49)) = VFloat f)
      \/ (VFloat (S754_finite false 7036874417766400 (-49)) = VStr "12.5"
          /\ (VStr "12.5" = VNone \/ (exists items, VStr "12.5" = VList items)
              \/ exists l, VStr "12.5" = VRef l))).
Proof.
  apply (to_float_result (VStr "12.5") empty_world
           (Ok (VFloat (S754_finite false 7036874417766400 (-49)))) empty_world).
  vm_compute. reflexivity.
Defined.

Lemma video_filename_no_separator_witness :
  occurs "/" "clip.mp4" = false
  /\ exists p,
       _get_video_filepath "m4a" (VRef 1%positive) video_world
       = (Ok (VStr p),
          set_heap (<[2%positive := <["filepath" := VStr "/tmp/x/clip.mp4"]> video_descriptor]>
                      (heap video_world)) video_world)
       /\ (p = "clip.mp4" \/ exists dir, p = String.append dir (String "/" "clip.mp4")).
Proof.
  apply (video_filename_no_separator "m4a" (VRef 1%positive) video_world).
  vm_compute. reflexivity.
Defined.

Lemma video_context_witness :
  _get_video_context "m4a" (VRef 1%positive) video_world
  = (res_map (fun duration => (duration, default VNone (video_descriptor !! "width"),
                               default VNone (video_descriptor !! "height")))
       (fst (_to_float (default VNone (video_document !! "duration")) empty_world)),
     set_heap (<[2%positive := <["filepath" := normalized_filepath video_descriptor
                                                 (VStr "/tmp/x/clip.mp4")]> video_descriptor]>
                 (heap video_world)) video_world).
Proof.
  apply (video_context_from_primary_descriptor "m4a" video_world 1%positive video_document
           (VStr "video") [VRef 3%positive] 2%positive video_descriptor []
           (VStr "/tmp/x/clip.mp4"));
    try (vm_compute; reflexivity).
  exact video_world_audio_first.
Defined.

Lemma primary_pass_selects_without_ext_witness :
  _get_requested_video "m4a" (VList [VRef 2%positive]) no_ext_world
  = (Ok (VRef 2%positive),
     set_heap (<[2%positive := <["filepath" := normalized_filepath video_descriptor_no_ext
                                                 (VStr "/tmp/x/clip.mp4")]>
                                 video_descriptor_no_ext]>
                 (heap no_ext_world)) no_ext_world).
Proof.
  apply (primary_pass_selects_without_ext "m4a" no_ext_world [] 2%positive
           video_descriptor_no_ext [] (VStr "/tmp/x/clip.mp4")).
  - discriminate.
  - constructor.
  - vm_compute; reflexivity.
  - vm_compute; reflexivity.
  - vm_compute; reflexivity.
Defined.

Lemma audio_failure_skips_video_witness :
  _create_media_dtos "m4a" "jpg" AUDIO_VIDEO (VRef 1%positive) ScratchDir StagingDir None
    no_audio_world
  = (Raise TypeError, emit (EvRemoveDir StagingDir) (set_staging None no_audio_world))
  /\ heap no_audio_world = heap no_audio_world.
Proof.
  apply (audio_failure_skips_video "m4a" "jpg" (VRef 1%positive) ScratchDir None
           no_audio_world TypeError no_audio_world).
  vm_compute. reflexivity.
Defined.

Lemma playlist_first_entry_only_witness :
  _get_video_filepath "m4a" (VRef 4%positive) long_playlist_world
  = _get_video_filepath "m4a" (VRef 1%positive) long_playlist_world
  /\ _get_video_filename "m4a" (VRef 4%positive) long_playlist_world
     = _get_video_filename "m4a" (VRef 1%positive) long_playlist_world
  /\ _get_video_context "m4a" (VRef 4%positive) long_playlist_world
     = _get_video_context "m4a" (VRef 1%positive) long_playlist_world.
Proof.
  apply (playlist_first_entry_only "m4a" long_playlist_world 4%positive
           long_playlist_document 1%positive [VNone] 1%positive).
  - vm_compute; reflexivity.
  - vm_compute; reflexivity.
  - vm_compute; reflexivity.
  - exists video_document, video_document.
    split; [vm_compute; reflexivity | split; [vm_compute; reflexivity | split]].
    + exists video_document, (VStr "video").
      split; [vm_compute; reflexivity | split; vm_compute; reflexivity].
    + split; reflexivity.
Defined.

Lemma audio_dto_succeeds_witness :
  exists sz,
    lookup_file "clip.m4a" video_files = Some sz
    /\ _create_audio_dto "m4a" "jpg" (VRef 1%positive) ScratchDir StagingDir (Some "myclip.mp4")
         video_world
       = (Ok (mkAudio (VStr "T") (Some "clip.m4a") VNone StagingDir sz),
          relocated "clip.m4a" video_world)
    /\ stat (InStaging "clip.m4a") (relocated "clip.m4a" video_world) = Some sz
    /\ stat (InScratch "clip.m4a") (relocated "clip.m4a" video_world) = None.
Proof.
  apply (audio_dto_succeeds "m4a" "jpg" video_world 1%positive video_document (VStr "T")
           (Some "myclip.mp4") video_files [] "clip.m4a" []).
  - vm_compute; reflexivity.
  - vm_compute; reflexivity.
  - reflexivity.
  - repeat constructor.
  - reflexivity.
  - vm_compute; reflexivity.
  - reflexivity.
Defined.

Lemma download_changes_only_filepaths_witness :
  same_but_filepath (heap video_fresh_world)
    (heap (snd (download "m4a" "jpg" VIDEO (VRef 1%positive) None video_fresh_world))).
Proof.
  apply (download_changes_only_filepaths "m4a" "jpg" VIDEO (VRef 1%positive) None
           video_fresh_world
           (fst (download "m4a" "jpg" VIDEO (VRef 1%positive) None video_fresh_world))).
  apply surjective_pairing.
Defined.

Lemma audio_download_keeps_document_witness :
  heap (snd (download "m4a" "jpg" AUDIO (VRef 1%positive) None video_fresh_world))
  = heap video_fresh_world.
Proof.
  apply (audio_download_keeps_document "m4a" "jpg" (VRef 1%positive) None video_fresh_world
           (fst (download "m4a" "jpg" AUDIO (VRef 1%positive) None video_fresh_world))).
  apply surjective_pairing.
Defined.

Lemma fallback_selection_copies_witness :
  exists l1 l2 copy w1 w2,
    _get_requested_video "m4a" (VList [VRef 2%positive]) kept_video_world = (Ok (VRef l1), w1)
    /\ _get_requested_video "m4a" (VList [VRef 2%positive]) w1 = (Ok (VRef l2), w2)
    /\ l1 <> l2 /\ l1 <> 2%positive /\ l2 <> 2%positive
    /\ heap w2 !! l1 = Some copy
    /\ heap w2 !! l2 = Some copy
    /\ heap w2 !! 2%positive = Some kept_video_descriptor.
Proof.
  apply (fallback_selection_copies_each_time "m4a" kept_video_world [] 2%positive
           kept_video_descriptor [] (VStr "m4a") "/tmp/x/clip.mp4" (VStr "/tmp/x/clip.m4a")).
  - repeat constructor. exists 2%positive, kept_video_descriptor.
    split; [reflexivity | split; vm_compute; reflexivity].
  - constructor.
  - vm_compute; reflexivity.
  - vm_compute; reflexivity.
  - vm_compute; reflexivity.
  - vm_compute; reflexivity.
  - vm_compute; reflexivity.
Defined.

Lemma video_dto_result_witness :
  fst (_create_video_dto "m4a" "jpg" (VRef 1%positive) ScratchDir StagingDir
         (Some "myclip.mp4") video_world)
  = Ok (mkVideo (VStr "T") "clip.mp4" (Some "myclip.mp4")
          (VFloat (S754_finite false 7036874417766400 (-49))) (VInt 640) (VInt 360)
          StagingDir 100 (Some (InStaging "clip.jpg")) (Some "clip.jpg")).
Proof.
  etransitivity.
  - apply (f_equal fst).
    apply (video_dto_result "m4a" "jpg" video_world 1%positive video_document (VStr "video")
             [VRef 3%positive] 2%positive video_descriptor [] (VStr "/tmp/x/clip.mp4")
             "/tmp/x/clip.mp4" (Some "myclip.mp4") (VStr "T")
             (VFloat (S754_finite false 7036874417766400 (-49))) video_files [] 100
             "myclip.mp4");
      try (vm_compute; reflexivity).
    + exact video_world_audio_first.
    + repeat constructor.
    + intros name [<- | [<- | [<- | []]]] Hmatch Hne;
        solve [ discriminate Hmatch | contradiction Hne; reflexivity
              | split; [discriminate | reflexivity] ].
  - vm_compute. reflexivity.
Defined.

Lemma audio_missing_title_witness :
  _create_audio_dto "m4a" "jpg" (VRef 1%positive) ScratchDir StagingDir None untitled_world
  = (Raise (KeyError "title"), relocated "clip.m4a" untitled_world)
  /\ is_Some (stat (InStaging "clip.m4a") (relocated "clip.m4a" untitled_world))
  /\ exists w',
       create_dto (_create_audio_dto "m4a" "jpg") (VRef 1%positive) ScratchDir StagingDir None
         untitled_world
       = (Raise (KeyError "title"), w')
       /\ stat (InStaging "clip.m4a") w' = None
       /\ stat (InScratch "clip.m4a") w' = None.
Proof.
  apply (audio_missing_title_fails_after_relocation "m4a" "jpg" untitled_world 1%positive
           untitled_document None [("clip.m4a", 10)] [] "clip.m4a" []).
  - vm_compute; reflexivity.
  - vm_compute; reflexivity.
  - reflexivity.
  - repeat constructor.
  - reflexivity.
  - vm_compute; reflexivity.
  - reflexivity.
Defined.

Lemma download_audio_video_witness :
  exists audio_size video w',
    download "m4a" "jpg" AUDIO_VIDEO (VRef 1%positive) (Some "myclip.mp4") video_fresh_world
    = (Ok (mkDownMedia AUDIO_VIDEO
             (Some (mkAudio (VStr "T") (Some "clip.m4a") VNone StagingDir audio_size))
             (Some video) StagingDir), w')
    /\ lookup_file "clip.m4a" video_files = Some audio_size
    /\ video_title video = VStr "T"
    /\ video_original_filename video = final_segment "/tmp/x/clip.mp4"
    /\ video_custom_filename video = Some "myclip.mp4"
    /\ video_duration video = VFloat (S754_finite false 7036874417766400 (-49))
    /\ video_file_size video = 100
    /\ video_thumb_path video = InStaging <$> video_thumb_name video
    /\ ((exists name, In name video_files.*1 /\ glob_match "jpg" name = true
                      /\ name <> final_segment "/tmp/x/clip.mp4" /\ name <> "clip.m4a") ->
        is_Some (video_thumb_name video))
    /\ scratch w' = None
    /\ stat (InStaging "myclip.mp4") w' = Some 100.
Proof.
  apply (download_audio_video_succeeds "m4a" "jpg" video_fresh_world 1%positive
           video_document (VStr "video") [VRef 3%positive] 2%positive video_descriptor []
           (VStr "/tmp/x/clip.mp4") "/tmp/x/clip.mp4" (Some "myclip.mp4") (VStr "T")
           (VFloat (S754_finite false 7036874417766400 (-49))) video_files 100
           "myclip.mp4" "clip.m4a" []);
    try (vm_compute; reflexivity).
  - exact video_world_audio_first.
  - repeat constructor.
  - vm_compute. discriminate.
  - intros name [<- | [<- | [<- | []]]] Hmatch Hnv Hna;
      solve [ discriminate Hmatch | contradiction Hnv; reflexivity
            | contradiction Hna; reflexivity | discriminate ].
Defined.
